(** * Localised console rendering: translation lookup, word wrap and
      backtest rows

    A shallow embedding of [src/utils/language.py] and of the wrapping,
    row-construction and summary-extraction code of [src/utils/display.py].

    Python values are modelled as follows.
    - A [str] is the list of its Unicode code points ([N]); [len] is [length].
    - A [float] is an IEEE-754 binary64 value of [SpecFloat].
    - An exception is a value of [exn]; code that may raise returns [result].
    - A [dict] literal is an association list in source order. *)

From Stdlib Require Import List NArith ZArith Bool Lia Ascii String.
From Stdlib Require Import Floats.SpecFloat.
From Stdlib Require Import Sorted Permutation.
Import ListNotations.

Open Scope N_scope.

(** ** Python strings *)

Module Py.

Definition str : Type := list N.

(** Code points of a UTF-8 byte sequence; used only to write literals. *)
Fixpoint utf8 (bs : list N) : str :=
  match bs with
  | [] => []
  | b0 :: t0 =>
    if b0 <? 128 then b0 :: utf8 t0
    else match t0 with
    | [] => [b0]
    | b1 :: t1 =>
      if b0 <? 224 then ((b0 - 192) * 64 + (b1 - 128)) :: utf8 t1
      else match t1 with
      | [] => [b0; b1]
      | b2 :: t2 =>
        if b0 <? 240
        then ((b0 - 224) * 4096 + (b1 - 128) * 64 + (b2 - 128)) :: utf8 t2
        else match t2 with
        | [] => [b0; b1; b2]
        | b3 :: t3 =>
          ((b0 - 240) * 262144 + (b1 - 128) * 4096
           + (b2 - 128) * 64 + (b3 - 128)) :: utf8 t3
        end
      end
    end
  end.

(** [u "text"] is the Python literal ["text"]. *)
Definition u (s : string) : str :=
  utf8 (map N_of_ascii (list_ascii_of_string s)).

Definition NL : str := [10].
Definition ESC : N := 27.

Fixpoint eqb (a b : str) : bool :=
  match a, b with
  | [], [] => true
  | x :: a', y :: b' => (x =? y) && eqb a' b'
  | _, _ => false
  end.

(** Truthiness of a string: [bool(s)]. *)
Definition truthy (s : str) : bool :=
  match s with [] => false | _ :: _ => true end.

(** [a or b] on strings. *)
Definition or_ (a b : str) : str := if truthy a then a else b.

(** [Py_UNICODE_ISSPACE]: the code points [str.split()] and [str.strip()]
    treat as blanks. *)
Definition is_space (c : N) : bool :=
  ((9 <=? c) && (c <=? 13)) || ((28 <=? c) && (c <=? 32))
  || (c =? 133) || (c =? 160) || (c =? 5760)
  || ((8192 <=? c) && (c <=? 8202))
  || (c =? 8232) || (c =? 8233) || (c =? 8239) || (c =? 8287)
  || (c =? 12288).

Fixpoint lstrip (s : str) : str :=
  match s with
  | [] => []
  | c :: s' => if is_space c then lstrip s' else s
  end.

Definition rstrip (s : str) : str := rev (lstrip (rev s)).

(** [s.strip()] *)
Definition strip (s : str) : str := rstrip (lstrip s).

(** [sep.join(parts)] *)
Fixpoint join (sep : str) (parts : list str) : str :=
  match parts with
  | [] => []
  | [p] => p
  | p :: ps => p ++ sep ++ join sep ps
  end.

(** [s.split()]: maximal runs of non-blank code points. [cur] is the run
    being read. *)
Fixpoint split_go (cur : str) (s : str) : list str :=
  match s with
  | [] => if truthy cur then [cur] else []
  | c :: s' =>
    if is_space c
    then (if truthy cur then cur :: split_go [] s' else split_go [] s')
    else split_go (cur ++ [c]) s'
  end.

Definition split (s : str) : list str := split_go [] s.

(** [a.startswith(b)] *)
Fixpoint startswith (s p : str) {struct p} : bool :=
  match p, s with
  | [], _ => true
  | _ :: _, [] => false
  | y :: p', x :: s' => (x =? y) && startswith s' p'
  end.

(** [needle in hay] *)
Fixpoint contains (needle hay : str) : bool :=
  startswith hay needle ||
  match hay with
  | [] => false
  | _ :: hay' => contains needle hay'
  end.

(** *** Case mapping

    [str.lower()] and [str.upper()] map code point by code point.  The ASCII
    range is written out; the mapping of the code points from 128 on comes
    from the Unicode database and is taken as a parameter. *)
Section Casing.
Variable case_hi : N -> list N.

Definition lower_char (c : N) : list N :=
  if c <? 128 then
    (if (65 <=? c) && (c <=? 90) then [c + 32] else [c])
  else case_hi c.

Definition upper_char (c : N) : list N :=
  if c <? 128 then
    (if (97 <=? c) && (c <=? 122) then [c - 32] else [c])
  else case_hi c.

Definition lower (s : str) : str := flat_map lower_char s.
Definition upper (s : str) : str := flat_map upper_char s.
End Casing.

End Py.

Import Py.

(** ** language.py *)

Inductive Language : Set := ZH | EN | BOTH.

(** The value of each member of the [Language] enumeration. *)
Definition Language_value (l : Language) : str :=
  match l with
  | ZH => u "zh"
  | EN => u "en"
  | BOTH => u "both"
  end.

(** [Language(v)]: the member whose value is [v]; [None] stands for the
    [ValueError] of the enumeration. *)
Definition Language_of_value (v : str) : option Language :=
  if eqb v (Language_value ZH) then Some ZH
  else if eqb v (Language_value EN) then Some EN
  else if eqb v (Language_value BOTH) then Some BOTH
  else None.

Section FromValue.
(** Lower-case mapping of the code points from 128 on. *)
Variable lower_hi : N -> list N.

(** [Language.from_value]; the argument is an [Optional[str]]. *)
Definition from_value (value : option str) : Language :=
  match value with
  | None => ZH
  | Some v =>
    if negb (truthy v) then ZH
    else match Language_of_value (lower lower_hi v) with
         | Some l => l
         | None => ZH
         end
  end.
End FromValue.

Definition DEFAULT_LANGUAGE : Language := ZH.

Definition default_joiner : str := u " / ".

(** [combine_translations(zh_text, en_text, language, joiner)] *)
Definition combine_translations
    (zh_text en_text : str) (language : Language) (joiner : str) : str :=
  match language with
  | ZH => or_ zh_text en_text
  | EN => or_ en_text zh_text
  | BOTH =>
    let zh := strip zh_text in
    let en := strip en_text in
    let parts :=
      (if truthy zh then [zh] else [])
      ++ (if truthy en && negb (eqb en zh) then [en] else []) in
    match parts with
    | [] => or_ en_text zh_text
    | _ :: _ => join joiner parts
    end
  end.

(** ** Exceptions *)

Inductive exn : Type :=
| KeyError (key : str)
| IndexError
| ValueError
| OutsideModel.  (* a Python feature this development does not model *)

Inductive result (A : Type) : Type :=
| Ok (a : A)
| Raise (e : exn).
Arguments Ok {A} a.
Arguments Raise {A} e.

Definition bind {A B} (r : result A) (k : A -> result B) : result B :=
  match r with
  | Ok a => k a
  | Raise e => Raise e
  end.

Notation "x <- r ;; k" := (bind r (fun x => k))
  (at level 61, r at next level, right associativity).
Notation "' pat <- r ;; k" :=
  (bind r (fun x => match x with pat => k end))
  (at level 61, pat pattern, r at next level, right associativity).

Definition raises {A} (r : result A) : Prop := exists e, r = Raise e.

(** ** [str.format] with keyword arguments

    A template is read left to right into pieces, as [MarkupIterator] does:
    literal code points, [{{] and [}}] escapes, and replacement fields.  No
    positional argument is ever passed ([translate_text] forwards keyword
    arguments only), so an empty or numeric field name raises [IndexError].
    A substitution is modelled by the text it renders to; fields that look
    into the object behind it (attribute or index access, conversions and
    format specs) are outside the model. *)

Module Format.

Definition lbrace : N := 123.
Definition rbrace : N := 125.

Inductive piece : Type :=
| Text (c : N)
| Field (name : str)
| Bad (e : exn).

Inductive mode : Type :=
| Lit                 (* in literal text *)
| Open                (* just read a left brace *)
| Close               (* just read a right brace *)
| InField (b : str).  (* inside a replacement field, [b] read so far *)

Definition is_digit (c : N) : bool := (48 <=? c) && (c <=? 57).

(** [!], [:], [.] and [[] start a conversion, a format spec, an attribute
    access and an index access. *)
Definition is_special (c : N) : bool :=
  (c =? 33) || (c =? 58) || (c =? 46) || (c =? 91).

Definition field_piece (b : str) : piece :=
  if existsb is_special b then Bad OutsideModel
  else if forallb is_digit b then Bad IndexError
  else Field b.

Fixpoint parse_go (m : mode) (s : str) : list piece :=
  match s with
  | [] => match m with Lit => [] | _ => [Bad ValueError] end
  | c :: s' =>
    match m with
    | Lit =>
      if c =? lbrace then parse_go Open s'
      else if c =? rbrace then parse_go Close s'
      else Text c :: parse_go Lit s'
    | Open =>
      if c =? lbrace then Text lbrace :: parse_go Lit s'
      else if c =? rbrace then field_piece [] :: parse_go Lit s'
      else parse_go (InField [c]) s'
    | Close =>
      if c =? rbrace then Text rbrace :: parse_go Lit s'
      else [Bad ValueError]
    | InField b =>
      if c =? rbrace then field_piece b :: parse_go Lit s'
      else if c =? lbrace then [Bad OutsideModel]
      else parse_go (InField (b ++ [c])) s'
    end
  end.

Definition parse (template : str) : list piece := parse_go Lit template.

(** [kwargs.get(name)] *)
Fixpoint get {V} (key : str) (d : list (str * V)) : option V :=
  match d with
  | [] => None
  | (k, v) :: d' => if eqb key k then Some v else get key d'
  end.

Fixpoint render (kwargs : list (str * str)) (ps : list piece) : result str :=
  match ps with
  | [] => Ok []
  | Text c :: ps' => rest <- render kwargs ps' ;; Ok (c :: rest)
  | Field name :: ps' =>
    match get name kwargs with
    | None => Raise (KeyError name)
    | Some v => rest <- render kwargs ps' ;; Ok (v ++ rest)
    end
  | Bad e :: _ => Raise e
  end.

(** [template.format] applied to the keyword arguments [kwargs] *)
Definition format (template : str) (kwargs : list (str * str)) : result str :=
  render kwargs (parse template).

Definition names (ps : list piece) : list str :=
  flat_map (fun p => match p with Field n => [n] | _ => [] end) ps.

Definition no_bad (ps : list piece) : bool :=
  forallb (fun p => match p with Bad _ => false | _ => true end) ps.

(** The names of the replacement fields of a template. *)
Definition fields (template : str) : list str := names (parse template).

(** A template all of whose pieces are literal text or named fields. *)
Definition plain (template : str) : bool := no_bad (parse template).

End Format.

(** ** The translation tables *)

Definition TRANSLATIONS : list (str * list (str * str)) := [
  (u "cli.select_analysts",
   [(u "zh", u "选择你的 AI 分析师。");
    (u "en", u "Select your AI analysts.")]);
  (u "cli.instructions",
   [(u "zh", NL ++ NL ++ u "操作说明：" ++ NL ++ u "1. 按空格键选择/取消分析师。" ++ NL ++ u "2. 按 'a' 键全选/取消全选。" ++ NL ++ u "3. 按回车键开始运行。" ++ NL);
    (u "en", NL ++ NL ++ u "Instructions:" ++ NL ++ u "1. Press Space to select/unselect analysts." ++ NL ++ u "2. Press 'a' to select/unselect all." ++ NL ++ u "3. Press Enter to run the hedge fund." ++ NL)]);
  (u "cli.select_llm",
   [(u "zh", u "选择你要使用的大模型：");
    (u "en", u "Select your LLM model:")]);
  (u "cli.select_ollama_model",
   [(u "zh", u "选择你要使用的 Ollama 本地模型：");
    (u "en", u "Select your Ollama model:")]);
  (u "cli.enter_custom_model",
   [(u "zh", u "请输入自定义模型名称：");
    (u "en", u "Enter the custom model name:")]);
  (u "cli.interrupt",
   [(u "zh", NL ++ NL ++ u "检测到中断，程序退出……");
    (u "en", NL ++ NL ++ u "Interrupt received. Exiting...")]);
  (u "cli.selected_analysts",
   [(u "zh", u "已选择分析师：{names}");
    (u "en", u "Selected analysts: {names}")]);
  (u "cli.selected_model",
   [(u "zh", u "已选择 {provider} 模型：{model}");
    (u "en", u "Selected {provider} model: {model}")]);
  (u "cli.using_ollama",
   [(u "zh", u "正在使用 Ollama 进行本地推理。");
    (u "en", u "Using Ollama for local LLM inference.")]);
  (u "cli.validation.select_one",
   [(u "zh", u "至少选择一位分析师。");
    (u "en", u "You must select at least one analyst.")]);
  (u "cli.invalid_start_date",
   [(u "zh", u "开始日期必须是 YYYY-MM-DD 格式");
    (u "en", u "Start date must be in YYYY-MM-DD format")]);
  (u "cli.invalid_end_date",
   [(u "zh", u "结束日期必须是 YYYY-MM-DD 格式");
    (u "en", u "End date must be in YYYY-MM-DD format")]);
  (u "cli.analysis_for",
   [(u "zh", u "{ticker} 分析");
    (u "en", u "Analysis for {ticker}")]);
  (u "display.analysis_heading",
   [(u "zh", u "分析：{ticker}");
    (u "en", u "Analysis: {ticker}")]);
  (u "display.agent_analysis_header",
   [(u "zh", u "代理分析：{ticker}");
    (u "en", u "Agent Analysis: {ticker}")]);
  (u "display.trading_decision_header",
   [(u "zh", u "交易决策：{ticker}");
    (u "en", u "Trading Decision: {ticker}")]);
  (u "display.portfolio_summary_header",
   [(u "zh", u "投资组合汇总");
    (u "en", u "Portfolio Summary")]);
  (u "display.portfolio_strategy_header",
   [(u "zh", u "组合策略说明");
    (u "en", u "Portfolio Strategy")]);
  (u "display.no_decisions",
   [(u "zh", u "未生成任何交易决策");
    (u "en", u "No trading decisions available")]);
  (u "display.table.agent",
   [(u "zh", u "代理");
    (u "en", u "Agent")]);
  (u "display.table.signal",
   [(u "zh", u "信号");
    (u "en", u "Signal")]);
  (u "display.table.confidence",
   [(u "zh", u "置信度");
    (u "en", u "Confidence")]);
  (u "display.table.reasoning",
   [(u "zh", u "推理");
    (u "en", u "Reasoning")]);
  (u "display.table.action",
   [(u "zh", u "操作");
    (u "en", u "Action")]);
  (u "display.table.quantity",
   [(u "zh", u "数量");
    (u "en", u "Quantity")]);
  (u "display.table.ticker",
   [(u "zh", u "标的");
    (u "en", u "Ticker")]);
  (u "display.table.portfolio_confidence",
   [(u "zh", u "置信度");
    (u "en", u "Confidence")]);
  (u "display.portfolio_strategy_text",
   [(u "zh", u "{text}");
    (u "en", u "{text}")]);
  (u "backtest.prefetch_start",
   [(u "zh", NL ++ u "正在预加载整个回测区间所需的数据……");
    (u "en", NL ++ u "Pre-fetching data for the entire backtest period...")]);
  (u "backtest.prefetch_complete",
   [(u "zh", u "数据预加载完成。");
    (u "en", u "Data pre-fetch complete.")]);
  (u "backtest.start",
   [(u "zh", NL ++ u "开始执行回测……");
    (u "en", NL ++ u "Starting backtest...")]);
  (u "backtest.warning.no_price_data",
   [(u "zh", u "警告：{ticker} 在 {date} 没有价格数据");
    (u "en", u "Warning: No price data for {ticker} on {date}")]);
  (u "backtest.error.fetch_price_range",
   [(u "zh", u "获取 {ticker} 在 {start} 至 {end} 期间的价格数据时出错：{error}");
    (u "en", u "Error fetching price for {ticker} between {start} and {end}: {error}")]);
  (u "backtest.warning.skip_day_missing_data",
   [(u "zh", u "由于缺少价格数据，跳过 {date} 的交易日");
    (u "en", u "Skipping trading day {date} due to missing price data")]);
  (u "backtest.error.fetch_prices_day",
   [(u "zh", u "获取 {date} 的价格数据时出错：{error}");
    (u "en", u "Error fetching prices for {date}: {error}")]);
  (u "backtest.no_portfolio_data",
   [(u "zh", u "未找到投资组合数据，请先运行回测。");
    (u "en", u "No portfolio data found. Please run the backtest first.")]);
  (u "backtest.no_performance_data",
   [(u "zh", u "没有可用于分析的绩效数据。");
    (u "en", u "No valid performance data to analyze.")]);
  (u "backtest.performance_summary",
   [(u "zh", u "投资组合绩效摘要");
    (u "en", u "Portfolio Performance Summary")]);
  (u "backtest.total_return",
   [(u "zh", u "总收益");
    (u "en", u "Total Return")]);
  (u "backtest.total_realized_gains",
   [(u "zh", u "累计已实现盈亏");
    (u "en", u "Total Realized Gains/Losses")]);
  (u "backtest.chart.portfolio_value_title",
   [(u "zh", u "投资组合价值随时间变化");
    (u "en", u "Portfolio Value Over Time")]);
  (u "backtest.chart.portfolio_value_ylabel",
   [(u "zh", u "投资组合价值 (美元)");
    (u "en", u "Portfolio Value ($)")]);
  (u "backtest.chart.portfolio_value_xlabel",
   [(u "zh", u "日期");
    (u "en", u "Date")]);
  (u "backtest.sharpe_ratio",
   [(u "zh", u "夏普比率");
    (u "en", u "Sharpe Ratio")]);
  (u "backtest.max_drawdown",
   [(u "zh", u "最大回撤：{value}%");
    (u "en", u "Maximum Drawdown: {value}%")]);
  (u "backtest.max_drawdown_with_date",
   [(u "zh", u "最大回撤：{value}%（发生于 {date}）");
    (u "en", u "Maximum Drawdown: {value}% (on {date})")]);
  (u "backtest.win_rate",
   [(u "zh", u "胜率");
    (u "en", u "Win Rate")]);
  (u "backtest.win_loss_ratio",
   [(u "zh", u "盈亏比");
    (u "en", u "Win/Loss Ratio")]);
  (u "backtest.max_consecutive_wins",
   [(u "zh", u "最长连续盈利天数");
    (u "en", u "Max Consecutive Wins")]);
  (u "backtest.max_consecutive_losses",
   [(u "zh", u "最长连续亏损天数");
    (u "en", u "Max Consecutive Losses")]);
  (u "backtest.table.summary_heading",
   [(u "zh", u "投资组合汇总");
    (u "en", u "PORTFOLIO SUMMARY")]);
  (u "backtest.table.cash_balance",
   [(u "zh", u "现金余额");
    (u "en", u "Cash Balance")]);
  (u "backtest.table.position_value",
   [(u "zh", u "总持仓市值");
    (u "en", u "Total Position Value")]);
  (u "backtest.table.total_value",
   [(u "zh", u "资产总值");
    (u "en", u "Total Value")]);
  (u "backtest.table.return",
   [(u "zh", u "收益率");
    (u "en", u "Return")]);
  (u "backtest.table.sharpe_ratio",
   [(u "zh", u "夏普比率");
    (u "en", u "Sharpe Ratio")]);
  (u "backtest.table.sortino_ratio",
   [(u "zh", u "索提诺比率");
    (u "en", u "Sortino Ratio")]);
  (u "backtest.table.max_drawdown",
   [(u "zh", u "最大回撤");
    (u "en", u "Max Drawdown")]);
  (u "backtest.table.date",
   [(u "zh", u "日期");
    (u "en", u "Date")]);
  (u "backtest.table.ticker",
   [(u "zh", u "标的");
    (u "en", u "Ticker")]);
  (u "backtest.table.action",
   [(u "zh", u "操作");
    (u "en", u "Action")]);
  (u "backtest.table.quantity",
   [(u "zh", u "数量");
    (u "en", u "Quantity")]);
  (u "backtest.table.price",
   [(u "zh", u "价格");
    (u "en", u "Price")]);
  (u "backtest.table.long_shares",
   [(u "zh", u "多头持股");
    (u "en", u "Long Shares")]);
  (u "backtest.table.short_shares",
   [(u "zh", u "空头持股");
    (u "en", u "Short Shares")]);
  (u "backtest.table.position_value_column",
   [(u "zh", u "净持仓价值");
    (u "en", u "Position Value")]);
  (u "backtest.table.bullish",
   [(u "zh", u "看多");
    (u "en", u "Bullish")]);
  (u "backtest.table.bearish",
   [(u "zh", u "看空");
    (u "en", u "Bearish")]);
  (u "backtest.table.neutral",
   [(u "zh", u "中性");
    (u "en", u "Neutral")]);
  (u "cli.cannot_proceed_ollama",
   [(u "zh", u "无法继续：未检测到 Ollama 或所选模型。");
    (u "en", u "Cannot proceed without Ollama and the selected model.")]);
  (u "cli.selected_model_generic",
   [(u "zh", NL ++ u "已选择模型：{model}" ++ NL);
    (u "en", NL ++ u "Selected model: {model}" ++ NL)])
].

Definition ACTION_TRANSLATIONS : list (str * str) := [
  (u "BUY", u "买入");
  (u "SELL", u "卖出");
  (u "HOLD", u "观望");
  (u "SHORT", u "做空");
  (u "COVER", u "回补")
].

(** ** Translation functions *)

(** [fallback or ""] for an [Optional[str]] *)
Definition or_empty (fallback : option str) : str :=
  match fallback with
  | None => []
  | Some s => s
  end.

(** [d.get(key, default)] *)
Definition get_default {V} (key : str) (d : list (str * V)) (default : V) : V :=
  match Format.get key d with
  | Some v => v
  | None => default
  end.

(** The body of [translate_text], with the module-level table it reads
    made explicit. *)
Definition translate_text_in (table : list (str * list (str * str)))
    (key : str) (language : Language) (fallback : option str)
    (kwargs : list (str * str)) : result str :=
  match Format.get key table with
  | None | Some [] =>
    let base := or_empty fallback in
    Ok (combine_translations base base language default_joiner)
  | Some translations =>
    let zh_text := get_default (u "zh") translations (or_empty fallback) in
    let en_text := get_default (u "en") translations (or_empty fallback) in
    formatted_zh <- Format.format zh_text kwargs ;;
    formatted_en <- Format.format en_text kwargs ;;
    Ok (combine_translations formatted_zh formatted_en language default_joiner)
  end.

(** [translate_text(key, language, fallback)] with keyword arguments *)
Definition translate_text := translate_text_in TRANSLATIONS.

Section Actions.
(** Upper-case mapping of the code points from 128 on. *)
Variable upper_hi : N -> list N.

(** [translate_action(action, language)] *)
Definition translate_action (action : str) (language : Language) : str :=
  let action_upper := upper upper_hi action in
  let zh := get_default action_upper ACTION_TRANSLATIONS action_upper in
  let en := action_upper in
  combine_translations zh en language default_joiner.
End Actions.

(** ** Python floats and their fixed-point rendering *)

Module Float.

Definition float : Type := spec_float.
Definition prec : Z := 53.
Definition emax : Z := 1024.

Definition zero : float := S754_zero false.

(** The double nearest to [n / 10^k], negated when [neg]: the value of a
    decimal numeral with digits [n] and [k] of them after the point. *)
Definition of_decimal (neg : bool) (n : N) (k : nat) : float :=
  match n with
  | N0 => S754_zero neg
  | Npos p =>
    SFdiv prec emax (S754_finite neg p 0)
          (S754_finite false (Z.to_pos (10 ^ Z.of_nat k)) 0)
  end.

(** Truthiness of a float: every value but the two zeros. *)
Definition truthy (x : float) : bool :=
  match x with
  | S754_zero _ => false
  | _ => true
  end.

(** [x or 0] for an [Optional[float]]; the integer [0] renders and compares
    as the float [0.0]. *)
Definition or0 (x : option float) : float :=
  match x with
  | None => zero
  | Some f => if truthy f then f else zero
  end.

(** [x >= 0] *)
Definition ge0 (x : float) : bool := SFleb zero x.

Definition is_finite (x : float) : bool :=
  match x with
  | S754_zero _ | S754_finite _ _ _ => true
  | _ => false
  end.

(** [m * 2^e * 10^digits] rounded to an integer, ties to even. *)
Definition scaled_round (m : positive) (e : Z) (digits : nat) : N :=
  let num := Npos m * 10 ^ N.of_nat digits in
  match e with
  | Z0 => num
  | Zpos p => num * 2 ^ Npos p
  | Zneg p =>
    let den := 2 ^ Npos p in
    let q := num / den in
    let r := num mod den in
    match 2 * r ?= den with
    | Lt => q
    | Gt => q + 1
    | Eq => if N.even q then q else q + 1
    end
  end.

(** Decimal digits of [n], most significant first; [acc] holds the digits
    already produced. *)
Fixpoint decimal_go (fuel : nat) (n : N) (acc : str) : str :=
  match fuel with
  | O => acc
  | S fuel' =>
    let acc' := (48 + n mod 10) :: acc in
    if n / 10 =? 0 then acc' else decimal_go fuel' (n / 10) acc'
  end.

Definition decimal (n : N) : str :=
  decimal_go (S (N.to_nat (N.log2 n))) n [].

(** The [k] low-order decimal digits of [n]. *)
Fixpoint decimal_fixed (k : nat) (n : N) : str :=
  match k with
  | O => []
  | S k' => decimal_fixed k' (n / 10) ++ [48 + n mod 10]
  end.

(** A comma after every third digit, counted from the least significant
    one; the digits come least significant first. *)
Fixpoint group3_rev (ds : str) : str :=
  match ds with
  | a :: b :: c :: ((_ :: _) as rest) => a :: b :: c :: 44 :: group3_rev rest
  | _ => ds
  end.

Definition group3 (ds : str) : str := rev (group3_rev (rev ds)).

Definition sign_text (plus neg : bool) : str :=
  if neg then u "-" else if plus then u "+" else [].

Definition fixed_text (comma : bool) (digits : nat) (q : N) : str :=
  let ip := decimal (q / 10 ^ N.of_nat digits) in
  (if comma then group3 ip else ip)
  ++ match digits with
     | O => []
     | S _ => u "." ++ decimal_fixed digits (q mod 10 ^ N.of_nat digits)
     end.

(** [format(x, "[+][,].<digits>f")] *)
Definition format_f (plus comma : bool) (digits : nat) (x : float) : str :=
  match x with
  | S754_nan => sign_text plus false ++ u "nan"
  | S754_infinity s => sign_text plus s ++ u "inf"
  | S754_zero s => sign_text plus s ++ fixed_text comma digits 0
  | S754_finite s m e =>
    sign_text plus s ++ fixed_text comma digits (scaled_round m e digits)
  end.

(** [str(n)] for an [int] *)
Definition format_int (n : Z) : str :=
  match n with
  | Zneg p => u "-" ++ decimal (Npos p)
  | _ => decimal (Z.to_N n)
  end.

(** Value of a run of ASCII digits. *)
Definition digits_value (ds : str) : N :=
  fold_left (fun acc c => acc * 10 + (c - 48)) ds 0.

Fixpoint span_digits (s : str) : str * str :=
  match s with
  | [] => ([], [])
  | c :: s' =>
    if Format.is_digit c
    then let '(ds, rest) := span_digits s' in (c :: ds, rest)
    else ([], s)
  end.

(** [float(s)] on plain decimal numerals [[sign] digits [. digits]] and on
    [inf], [infinity] and [nan] in any letter case.  The other spellings
    CPython accepts (exponents, underscores, surrounding blanks, non-ASCII
    digits) are outside the model. *)
Definition float_of_str (s : str) : result float :=
  let '(neg, body) :=
    match s with
    | c :: r =>
      if c =? 45 then (true, r) else if c =? 43 then (false, r) else (false, s)
    | [] => (false, s)
    end in
  let word := lower (fun c => [c]) body in
  if eqb word (u "inf") || eqb word (u "infinity") then Ok (S754_infinity neg)
  else if eqb word (u "nan") then Ok S754_nan
  else
    let '(ip, rest) := span_digits body in
    match rest with
    | [] =>
      match ip with
      | [] => Raise ValueError
      | _ :: _ => Ok (of_decimal neg (digits_value ip) 0)
      end
    | c :: rest' =>
      if c =? 46 then
        let '(fp, rest'') := span_digits rest' in
        match rest'', ip ++ fp with
        | [], [] => Raise ValueError
        | [], _ :: _ => Ok (of_decimal neg (digits_value (ip ++ fp)) (List.length fp))
        | _ :: _, _ => Raise OutsideModel
        end
      else Raise OutsideModel
    end.

End Float.

Import Float.

(** ** colorama *)

Module Fore.
Definition RED : str := ESC :: u "[31m".
Definition GREEN : str := ESC :: u "[32m".
Definition YELLOW : str := ESC :: u "[33m".
Definition BLUE : str := ESC :: u "[34m".
Definition CYAN : str := ESC :: u "[36m".
Definition WHITE : str := ESC :: u "[37m".
End Fore.

Module Style.
Definition BRIGHT : str := ESC :: u "[1m".
Definition RESET_ALL : str := ESC :: u "[0m".
End Style.

(** ** display.py *)

(** *** Wrapping of reasoning text

    The loop that [print_trading_output] runs over [reasoning_str.split()],
    for the analyst reasoning, the decision reasoning and the portfolio
    reasoning alike.  The state is [(wrapped_reasoning, current_line)]. *)

Definition max_line_length : nat := 60.

Definition wrap_step (st : str * str) (word : str) : str * str :=
  let '(wrapped_reasoning, current_line) := st in
  if Nat.ltb max_line_length (List.length current_line + List.length word + 1)
  then (wrapped_reasoning ++ current_line ++ NL, word)
  else if Py.truthy current_line
       then (wrapped_reasoning, current_line ++ u " " ++ word)
       else (wrapped_reasoning, word).

Definition wrap_finish (st : str * str) : str :=
  let '(wrapped_reasoning, current_line) := st in
  if Py.truthy current_line then wrapped_reasoning ++ current_line
  else wrapped_reasoning.

Definition wrap_words (words : list str) : str :=
  wrap_finish (fold_left wrap_step words ([], [])).

Definition wrap (reasoning_str : str) : str :=
  wrap_words (split reasoning_str).

(** [s.split("\n")]: the lines of a text. *)
Fixpoint lines_go (cur : str) (s : str) : list str :=
  match s with
  | [] => [cur]
  | c :: s' =>
    if c =? 10 then cur :: lines_go [] s' else lines_go (cur ++ [c]) s'
  end.

Definition lines (s : str) : list str := lines_go [] s.

(** *** Backtest rows *)

(** A row of the backtest table: its cells, each a rendered string. *)
Definition row : Type := list str.

(** The arguments of [format_backtest_row]. *)
Record row_args : Type := {
  date : str;
  ticker : str;
  action : str;
  quantity : float;
  price : float;
  long_shares : float;
  short_shares : float;
  position_value : float;
  bullish_count : Z;
  bearish_count : Z;
  neutral_count : Z;
  is_summary : bool;
  total_value : option float;
  return_pct : option float;
  cash_balance : option float;
  total_position_value : option float;
  sharpe_ratio : option float;
  sortino_ratio : option float;
  max_drawdown : option float;
  language : Language
}.

Definition summary_heading_key : str := u "backtest.table.summary_heading".
Definition summary_heading_fallback : str := u "PORTFOLIO SUMMARY".

(** A currency cell: [f"{color}${x:,.2f}{Style.RESET_ALL}"] *)
Definition money_cell (color : str) (x : float) : str :=
  color ++ u "$" ++ format_f false true 2 x ++ Style.RESET_ALL.

Section Rows.
(** Upper-case mapping of the code points from 128 on. *)
Variable upper_hi : N -> list N.

Definition action_colors : list (str * str) :=
  [ (u "BUY", Fore.GREEN); (u "COVER", Fore.GREEN); (u "SELL", Fore.RED);
    (u "SHORT", Fore.RED); (u "HOLD", Fore.WHITE) ].

Definition format_backtest_row (a : row_args) : result row :=
  let language := a.(language) in
  let action_color :=
    get_default (upper upper_hi a.(action)) action_colors Fore.WHITE in
  if a.(is_summary) then
    summary_heading <-
      translate_text summary_heading_key language
                     (Some summary_heading_fallback) [] ;;
    let return_color :=
      if ge0 (or0 a.(return_pct)) then Fore.GREEN else Fore.RED in
    Ok [ a.(date);
         Fore.WHITE ++ Style.BRIGHT ++ summary_heading ++ Style.RESET_ALL;
         []; []; []; []; [];
         money_cell Fore.YELLOW (or0 a.(total_position_value));
         money_cell Fore.CYAN (or0 a.(cash_balance));
         money_cell Fore.WHITE (or0 a.(total_value));
         return_color ++ format_f true false 2 (or0 a.(return_pct))
           ++ u "%" ++ Style.RESET_ALL;
         match a.(sharpe_ratio) with
         | Some _ =>
           Fore.YELLOW ++ format_f false false 2 (or0 a.(sharpe_ratio))
             ++ Style.RESET_ALL
         | None => []
         end;
         match a.(sortino_ratio) with
         | Some _ =>
           Fore.YELLOW ++ format_f false false 2 (or0 a.(sortino_ratio))
             ++ Style.RESET_ALL
         | None => []
         end;
         match a.(max_drawdown) with
         | Some _ =>
           Fore.RED
             ++ format_f false false 2 (SFabs (or0 a.(max_drawdown)))
             ++ u "%" ++ Style.RESET_ALL
         | None => []
         end ]
  else
    let localized_action :=
      translate_action upper_hi (upper upper_hi a.(action)) language in
    Ok [ a.(date);
         Fore.CYAN ++ a.(ticker) ++ Style.RESET_ALL;
         action_color ++ localized_action ++ Style.RESET_ALL;
         action_color ++ format_f false true 0 a.(quantity)
           ++ Style.RESET_ALL;
         money_cell Fore.WHITE a.(price);
         Fore.GREEN ++ format_f false true 0 a.(long_shares)
           ++ Style.RESET_ALL;
         Fore.RED ++ format_f false true 0 a.(short_shares)
           ++ Style.RESET_ALL;
         money_cell Fore.YELLOW a.(position_value);
         Fore.GREEN ++ format_int a.(bullish_count) ++ Style.RESET_ALL;
         Fore.RED ++ format_int a.(bearish_count) ++ Style.RESET_ALL;
         Fore.BLUE ++ format_int a.(neutral_count) ++ Style.RESET_ALL ].
End Rows.

(** *** Reading the summary back *)

(** [row[i]] *)
Definition item {A} (l : list A) (i : nat) : result A :=
  match nth_error l i with
  | Some x => Ok x
  | None => Raise IndexError
  end.

(** [s.split(sep)] for a non-empty [sep]; [skip] counts the code points of
    a separator that was just matched and is still to be passed over. *)
Fixpoint split_on_go (sep : str) (skip : nat) (cur : str) (s : str)
  : list str :=
  match s with
  | [] => [cur]
  | c :: s' =>
    match skip with
    | S k => split_on_go sep k cur s'
    | O =>
      if startswith s sep
      then cur :: split_on_go sep (List.length sep - 1) [] s'
      else split_on_go sep 0 (cur ++ [c]) s'
    end
  end.

Definition split_on (sep : str) (s : str) : list str :=
  split_on_go sep 0 [] s.

(** [s.replace(old, new)] for a one-code-point [old] *)
Definition replace1 (old : N) (new : str) (s : str) : str :=
  flat_map (fun c => if c =? old then new else [c]) s.

(** [cell.split("$")[1].split(Style.RESET_ALL)[0].replace(",", "")] *)
Definition amount_text (cell : str) : result str :=
  after <- item (split_on (u "$") cell) 1 ;;
  before <- item (split_on Style.RESET_ALL after) 0 ;;
  Ok (replace1 44 [] before).

(** [a < b] on strings: lexicographic on code points. *)
Fixpoint ltb (a b : str) : bool :=
  match a, b with
  | _, [] => false
  | [], _ :: _ => true
  | x :: a', y :: b' => (x <? y) || ((x =? y) && ltb a' b')
  end.

(** [max(rows, key=lambda r: r[0])] over [best :: rows]: the first row with
    the greatest date. *)
Fixpoint max_by_date (best : row) (best_key : str) (rows : list row)
  : result row :=
  match rows with
  | [] => Ok best
  | r :: rows' =>
    k <- item r 0 ;;
    if ltb best_key k then max_by_date r k rows'
    else max_by_date best best_key rows'
  end.

(** The loop that sorts rows into [ticker_rows] and [summary_rows].  Every
    cell is a string, so the [isinstance(row[1], str)] test holds and the
    substring test decides. *)
Definition is_summary_row (summary_heading : str) (r : row) : result bool :=
  second <- item r 1 ;;
  Ok (contains summary_heading second).

Fixpoint classify_rows (summary_heading : str) (table_rows : list row)
  : result (list row * list row) :=
  match table_rows with
  | [] => Ok ([], [])
  | r :: rest =>
    b <- is_summary_row summary_heading r ;;
    '(ticker_rows, summary_rows) <- classify_rows summary_heading rest ;;
    Ok (if b then (ticker_rows, r :: summary_rows)
        else (r :: ticker_rows, summary_rows))
  end.

(** What [print_backtest_results] shows of the latest summary row. *)
Record summary_view : Type := {
  shown_cash : float;
  shown_position : float;
  shown_total : float;
  shown_return : str;
  shown_sharpe : option str;
  shown_sortino : option str;
  shown_max_drawdown : option str
}.

(** [print(...) if cell] *)
Definition if_truthy (cell : str) : option str :=
  if Py.truthy cell then Some cell else None.

Definition read_summary (latest_summary : row) : result summary_view :=
  c7 <- item latest_summary 7 ;;
  position_str <- amount_text c7 ;;
  c8 <- item latest_summary 8 ;;
  cash_str <- amount_text c8 ;;
  c9 <- item latest_summary 9 ;;
  total_str <- amount_text c9 ;;
  cash <- float_of_str cash_str ;;
  position <- float_of_str position_str ;;
  total <- float_of_str total_str ;;
  ret <- item latest_summary 10 ;;
  sharpe <- item latest_summary 11 ;;
  sortino <- item latest_summary 12 ;;
  mdd <- item latest_summary 13 ;;
  Ok {| shown_cash := cash; shown_position := position;
        shown_total := total; shown_return := ret;
        shown_sharpe := if_truthy sharpe;
        shown_sortino := if_truthy sortino;
        shown_max_drawdown := if_truthy mdd |}.

(** [print_backtest_results(table_rows, language)]: the summary it shows,
    if any, and the rows of the grid it prints. *)
Definition print_backtest_results (table_rows : list row)
    (language : Language) : result (option summary_view * list row) :=
  summary_heading <-
    translate_text summary_heading_key language
                   (Some summary_heading_fallback) [] ;;
  '(ticker_rows, summary_rows) <- classify_rows summary_heading table_rows ;;
  match summary_rows with
  | [] => Ok (None, ticker_rows)
  | r :: rest =>
    k <- item r 0 ;;
    latest_summary <- max_by_date r k rest ;;
    view <- read_summary latest_summary ;;
    Ok (Some view, ticker_rows)
  end.

(** ** language.py, continued *)

(** [language_to_metadata(language)]: [language.value] *)
Definition language_to_metadata (language : Language) : str :=
  Language_value language.

(** *** The vocabulary tables *)

Definition STATUS_TRANSLATIONS : list (str * str) := [
  (u "Analyzing Graham valuation",
   u "正在分析格雷厄姆估值");
  (u "Analyzing activism potential",
   u "正在分析激进投资潜力");
  (u "Analyzing balance sheet",
   u "正在分析资产负债表");
  (u "Analyzing balance sheet and capital structure",
   u "正在分析资产负债表与资本结构");
  (u "Analyzing book value growth",
   u "正在分析账面价值增长");
  (u "Analyzing business predictability",
   u "正在分析业务可预测性");
  (u "Analyzing business quality",
   u "正在分析企业质量");
  (u "Analyzing cash flow",
   u "正在分析现金流");
  (u "Analyzing cash yield and valuation",
   u "正在分析现金收益率与估值");
  (u "Analyzing competitive moat",
   u "正在分析竞争护城河");
  (u "Analyzing consistency",
   u "正在分析盈利稳定性");
  (u "Analyzing contrarian sentiment",
   u "正在分析逆向情绪");
  (u "Analyzing disruptive potential",
   u "正在分析颠覆式潜力");
  (u "Analyzing downside protection",
   u "正在分析下行保护");
  (u "Analyzing earnings stability",
   u "正在分析盈利稳定性");
  (u "Analyzing financial health",
   u "正在分析财务健康状况");
  (u "Analyzing financial strength",
   u "正在分析财务实力");
  (u "Analyzing fundamentals",
   u "正在分析基本面");
  (u "Analyzing growth",
   u "正在分析增长情况");
  (u "Analyzing growth & momentum",
   u "正在分析增长与动量");
  (u "Analyzing growth & quality",
   u "正在分析增长与质量");
  (u "Analyzing growth and reinvestment",
   u "正在分析增长与再投资");
  (u "Analyzing innovation-driven growth",
   u "正在分析创新驱动增长");
  (u "Analyzing insider activity",
   u "正在分析内部交易行为");
  (u "Analyzing management actions",
   u "正在分析管理层动作");
  (u "Analyzing management efficiency & leverage",
   u "正在分析管理效率与杠杆");
  (u "Analyzing management quality",
   u "正在分析管理质量");
  (u "Analyzing margins & stability",
   u "正在分析利润率与稳定性");
  (u "Analyzing moat strength",
   u "正在分析护城河强度");
  (u "Analyzing price data",
   u "正在分析价格数据");
  (u "Analyzing pricing power",
   u "正在分析定价能力");
  (u "Analyzing profitability",
   u "正在分析盈利能力");
  (u "Analyzing risk profile",
   u "正在分析风险状况");
  (u "Analyzing risk-reward",
   u "正在分析风险回报");
  (u "Analyzing sentiment",
   u "正在分析市场情绪");
  (u "Analyzing trading patterns",
   u "正在分析交易模式");
  (u "Analyzing valuation (Fisher style)",
   u "正在进行费雪风格估值分析");
  (u "Analyzing valuation (focus on PEG)",
   u "正在分析估值（重点关注 PEG）");
  (u "Analyzing valuation ratios",
   u "正在分析估值指标");
  (u "Analyzing value",
   u "正在分析价值");
  (u "Analyzing volatility",
   u "正在分析波动率");
  (u "Assessing potential to double",
   u "正在评估翻倍潜力");
  (u "Assessing relative valuation",
   u "正在评估相对估值");
  (u "Calculating Munger-style valuation",
   u "正在计算芒格式估值");
  (u "Calculating WACC and enhanced DCF",
   u "正在计算加权资本成本与增强 DCF");
  (u "Calculating final signal",
   u "正在计算最终信号");
  (u "Calculating intrinsic value",
   u "正在计算内在价值");
  (u "Calculating intrinsic value & margin of safety",
   u "正在计算内在价值与安全边际");
  (u "Calculating intrinsic value (DCF)",
   u "正在通过 DCF 计算内在价值");
  (u "Calculating mean reversion",
   u "正在计算均值回归");
  (u "Calculating momentum",
   u "正在计算动量指标");
  (u "Calculating trend signals",
   u "正在计算趋势信号");
  (u "Calculating valuation & high-growth scenario",
   u "正在估算估值与高增长情景");
  (u "Calculating volatility- and correlation-adjusted limits",
   u "正在计算波动率与相关性调整限额");
  (u "Combining signals",
   u "正在综合分析师信号");
  (u "Done",
   u "完成");
  (u "Failed: All valuation methods zero",
   u "失败：所有估值方法结果为零");
  (u "Failed: Insufficient financial line items",
   u "失败：财务科目数据不足");
  (u "Failed: Market cap unavailable",
   u "失败：未获取到市值数据");
  (u "Failed: No financial metrics found",
   u "失败：未获取到财务指标");
  (u "Failed: No price data found",
   u "失败：未获取到价格数据");
  (u "Failed: No valid price data",
   u "失败：价格数据无效");
  (u "Fetching company news",
   u "正在获取公司新闻");
  (u "Fetching financial data",
   u "正在获取财务数据");
  (u "Fetching financial line items",
   u "正在获取财务科目");
  (u "Fetching financial metrics",
   u "正在获取财务指标");
  (u "Fetching insider trades",
   u "正在获取内部交易");
  (u "Fetching line items",
   u "正在获取科目数据");
  (u "Fetching market cap",
   u "正在获取市值");
  (u "Fetching price data and calculating volatility",
   u "正在获取价格并计算波动率");
  (u "Fetching recent price data for momentum",
   u "正在获取近期价格数据以计算动量");
  (u "Gathering comprehensive line items",
   u "正在收集完整的财务科目");
  (u "Gathering financial line items",
   u "正在汇总财务科目");
  (u "Generating Ben Graham analysis",
   u "正在生成本·格雷厄姆分析");
  (u "Generating Bill Ackman analysis",
   u "正在生成比尔·阿克曼分析");
  (u "Generating Cathie Wood analysis",
   u "正在生成凯茜·伍德分析");
  (u "Generating Charlie Munger analysis",
   u "正在生成查理·芒格分析");
  (u "Generating Damodaran analysis",
   u "正在生成达莫达兰分析");
  (u "Generating Jhunjhunwala analysis",
   u "正在生成琼君瓦拉分析");
  (u "Generating LLM output",
   u "正在生成大模型输出");
  (u "Generating Pabrai analysis",
   u "正在生成帕布莱分析");
  (u "Generating Peter Lynch analysis",
   u "正在生成彼得·林奇分析");
  (u "Generating Phil Fisher-style analysis",
   u "正在生成菲利普·费雪风格分析");
  (u "Generating Stanley Druckenmiller analysis",
   u "正在生成斯坦利·德鲁肯米勒分析");
  (u "Generating Warren Buffett analysis",
   u "正在生成沃伦·巴菲特分析");
  (u "Generating trading decisions",
   u "正在生成交易决策");
  (u "Getting market cap",
   u "正在获取市值");
  (u "Performing Druckenmiller-style valuation",
   u "正在执行德鲁肯米勒风格估值");
  (u "Processing analyst signals",
   u "正在处理分析师信号");
  (u "Statistical analysis",
   u "正在进行统计分析");
  (u "Warning: Insufficient price data",
   u "警告：价格数据不足");
  (u "Warning: No price data found",
   u "警告：未找到价格数据")
].

Definition AGENT_NAME_TRANSLATIONS : list (str * str) := [
  (u "aswath_damodaran",
   u "阿斯瓦斯·达莫达兰");
  (u "ben_graham",
   u "本·格雷厄姆");
  (u "bill_ackman",
   u "比尔·阿克曼");
  (u "cathie_wood",
   u "凯茜·伍德");
  (u "charlie_munger",
   u "查理·芒格");
  (u "michael_burry",
   u "迈克尔·伯里");
  (u "mohnish_pabrai",
   u "莫尼什·帕布莱");
  (u "peter_lynch",
   u "彼得·林奇");
  (u "phil_fisher",
   u "菲利普·费雪");
  (u "rakesh_jhunjhunwala",
   u "拉凯什·琼君瓦拉");
  (u "stanley_druckenmiller",
   u "斯坦利·德鲁肯米勒");
  (u "warren_buffett",
   u "沃伦·巴菲特");
  (u "technical_analyst",
   u "技术分析师");
  (u "fundamentals_analyst",
   u "基本面分析师");
  (u "sentiment_analyst",
   u "情绪分析师");
  (u "valuation_analyst",
   u "估值分析师");
  (u "risk_management",
   u "风险管理");
  (u "portfolio_manager",
   u "投资组合经理")
].

Definition SIGNAL_TRANSLATIONS : list (str * str) := [
  (u "BULLISH",
   u "看多");
  (u "BEARISH",
   u "看空");
  (u "NEUTRAL",
   u "中性")
].

(** [translate_status(status, language)] *)
Definition translate_status (status : str) (language : Language) : str :=
  match language with
  | EN => status
  | _ =>
    let zh := get_default status STATUS_TRANSLATIONS status in
    match language with
    | ZH => zh
    | _ => combine_translations zh status BOTH default_joiner
    end
  end.

Section Signals.
(** Upper-case mapping of the code points from 128 on. *)
Variable upper_hi : N -> list N.

(** [translate_signal(signal, language)] *)
Definition translate_signal (signal : str) (language : Language) : str :=
  let signal_upper := upper upper_hi signal in
  let zh := get_default signal_upper SIGNAL_TRANSLATIONS signal_upper in
  let en := signal_upper in
  combine_translations zh en language default_joiner.
End Signals.

(** *** [str.title()]

    Code point by code point: the title case of a code point that follows
    an uncased one (or starts the text), the lower case of one that follows
    a cased one.  In the ASCII range the cased code points are the letters
    and the title case is the upper case; the rest comes from the Unicode
    database and is taken as parameters. *)
Section Title.
Variable title_hi : N -> list N.
Variable lower_hi : N -> list N.
Variable cased_hi : N -> bool.

Definition is_cased (c : N) : bool :=
  if c <? 128
  then ((65 <=? c) && (c <=? 90)) || ((97 <=? c) && (c <=? 122))
  else cased_hi c.

Definition title_char (c : N) : list N := upper_char title_hi c.

Fixpoint title_go (previous_is_cased : bool) (s : str) : str :=
  match s with
  | [] => []
  | c :: s' =>
    (if previous_is_cased then lower_char lower_hi c else title_char c)
    ++ title_go (is_cased c) s'
  end.

Definition title (s : str) : str := title_go false s.

(** [translate_agent_name(agent_key, language)] *)
Definition translate_agent_name (agent_key : str) (language : Language)
  : str :=
  let base := title (replace1 95 [32] agent_key) in
  let zh := get_default agent_key AGENT_NAME_TRANSLATIONS base in
  let en := base in
  combine_translations zh en language default_joiner.
End Title.

(** ** display.py, continued: the analyst table of [print_trading_output] *)

(** [s.replace(old, new)] for a non-empty [old]: the pieces between the
    occurrences of [old], read left to right without overlap, joined by
    [new]. *)
Definition replace (old new : str) (s : str) : str :=
  join new (split_on old s).

(** [d[key] = value] on a dict: the value of an existing key is replaced
    in place, a new key goes last. *)
Fixpoint dict_set {V} (key : str) (value : V) (d : list (str * V))
  : list (str * V) :=
  match d with
  | [] => [(key, value)]
  | (k, x) :: d' =>
    if eqb key k then (k, value) :: d' else (k, x) :: dict_set key value d'
  end.

(** The [reasoning] of a signal when it is present and truthy: a [str], a
    [dict] given by its [json.dumps(reasoning, indent=2)] text, or another
    value given by its [str(reasoning)] text. *)
Inductive reasoning_value : Type :=
| ReasonStr (s : str)
| ReasonDict (dumped : str)
| ReasonOther (shown : str).

(** The signal of one agent for one ticker.  [sig_signal] is
    [signal.get("signal")], [sig_confidence] the text that
    [signal.get("confidence")] renders to, [sig_reasoning] the reasoning,
    [None] when the key is absent or its value is a falsy non-string. *)
Record signal_record : Type := {
  sig_signal : option str;
  sig_confidence : option str;
  sig_reasoning : option reasoning_value
}.

(** A row of [table_rows]: the rank it is sorted by and its four cells. *)
Definition ranked_row : Type := (Z * row)%type.

Definition signal_colors : list (str * str) :=
  [ (u "BULLISH", Fore.GREEN); (u "BEARISH", Fore.RED);
    (u "NEUTRAL", Fore.YELLOW) ].

(** [sorted(rows, key=lambda r: r[0])]: a stable sort, so an element goes
    before the first one whose rank is not smaller than its own. *)
Fixpoint insert_by_rank (x : ranked_row) (sorted : list ranked_row)
  : list ranked_row :=
  match sorted with
  | [] => [x]
  | y :: rest =>
    if (fst x <=? fst y)%Z then x :: y :: rest
    else y :: insert_by_rank x rest
  end.

Definition sorted_by_rank (rows : list ranked_row) : list ranked_row :=
  fold_right insert_by_rank [] rows.

Section AnalystTable.
Variable upper_hi : N -> list N.
Variable title_hi : N -> list N.
Variable lower_hi : N -> list N.
Variable cased_hi : N -> bool.
(** [get_analyst_order_map()]: the rank of each analyst key. *)
Variable analyst_order_map : list (str * Z).

(** [analyst_order], after
    [analyst_order["risk_management"] = len(analyst_order)]. *)
Definition analyst_order : list (str * Z) :=
  dict_set (u "risk_management")
           (Z.of_nat (List.length analyst_order_map)) analyst_order_map.

(** The wrapped reasoning of a signal; empty without a truthy reasoning. *)
Definition reasoning_cell (reasoning : option reasoning_value) : str :=
  match reasoning with
  | None => []
  | Some (ReasonStr s) => if Py.truthy s then wrap s else []
  | Some (ReasonDict dumped) => wrap dumped
  | Some (ReasonOther shown) => wrap shown
  end.

(** The body of the loop over [analyst_signals] for one agent: the row it
    appends, if any. *)
Definition agent_row (language : Language) (ticker : str)
    (agent : str) (signals : list (str * signal_record))
  : option ranked_row :=
  match Format.get ticker signals with
  | None => None
  | Some signal =>
    if eqb agent (u "risk_management_agent") then None
    else
      let agent_key := replace (u "_agent") [] agent in
      let agent_name :=
        translate_agent_name title_hi lower_hi cased_hi agent_key language in
      let signal_type :=
        upper upper_hi
              (match signal.(sig_signal) with Some s => s | None => [] end) in
      let confidence :=
        match signal.(sig_confidence) with Some c => c | None => u "0" end in
      let signal_color := get_default signal_type signal_colors Fore.WHITE in
      let reasoning_str := reasoning_cell signal.(sig_reasoning) in
      Some (get_default agent_key analyst_order 999%Z,
            [ Fore.CYAN ++ agent_name ++ Style.RESET_ALL;
              signal_color ++ translate_signal upper_hi signal_type language
                ++ Style.RESET_ALL;
              Fore.WHITE ++ confidence ++ u "%" ++ Style.RESET_ALL;
              Fore.WHITE ++ reasoning_str ++ Style.RESET_ALL ])
  end.

(** [table_rows] once the loop is over. *)
Fixpoint agent_table_rows (language : Language) (ticker : str)
    (analyst_signals : list (str * list (str * signal_record)))
  : list ranked_row :=
  match analyst_signals with
  | [] => []
  | (agent, signals) :: rest =>
    match agent_row language ticker agent signals with
    | Some r => r :: agent_table_rows language ticker rest
    | None => agent_table_rows language ticker rest
    end
  end.

(** [table_data]: the rows in rank order, the rank dropped. *)
Definition agent_table_data (language : Language) (ticker : str)
    (analyst_signals : list (str * list (str * signal_record)))
  : list row :=
  map snd (sorted_by_rank (agent_table_rows language ticker analyst_signals)).
End AnalystTable.

(** ** Definitions used to state the properties *)

(** ASCII case folding, and equality of a text with a lower-case ASCII word
    up to the case of ASCII letters. *)
Definition ascii_fold (c : N) : N :=
  if (65 <=? c) && (c <=? 90) then c + 32 else c.

Definition caseless (s word : str) : bool := eqb (map ascii_fold s) word.

Definition caseless_opt (value : option str) (word : str) : bool :=
  match value with
  | Some s => caseless s word
  | None => false
  end.

(** What the Unicode database guarantees about the lower-case mapping [l]
    of a code point from 128 on: it is not empty, and it starts with a code
    point from 128 on, or with [k] (for the Kelvin sign) or [i] (for the
    dotted capital I). *)
Definition lower_head_ok (l : list N) : bool :=
  match l with
  | [] => false
  | d :: _ => (128 <=? d) || (d =? 107) || (d =? 105)
  end.

(** A sample lower-case mapping: Kelvin sign, dotted capital I, capital E
    with acute; every other code point is its own lower case. *)
Definition sample_lower_hi (c : N) : list N :=
  if c =? 8490 then [107]
  else if c =? 304 then [105; 775]
  else if c =? 201 then [233]
  else [c].

(** The [BOTH] rule read literally: the raw texts are joined, the secondary
    one is left out when empty or equal to the primary one, the primary one
    when empty. *)
Definition combine_both_literal (zh_text en_text : str) : str :=
  let parts :=
    (if Py.truthy zh_text then [zh_text] else [])
    ++ (if Py.truthy en_text && negb (eqb en_text zh_text)
        then [en_text] else []) in
  match parts with
  | [] => or_ en_text zh_text
  | _ :: _ => join default_joiner parts
  end.

(** A word, as [str.split()] yields them: not empty, no blank in it. *)
Definition is_word (w : str) : Prop :=
  w <> [] /\ Forall (fun c => is_space c = false) w.

Definition has_line_break (t : str) : bool := existsb (N.eqb 10) t.

Definition has_long_word (t : str) : bool :=
  existsb (fun w => Nat.ltb max_line_length (List.length w)) (split t).

(** A word of sixty letters, and one of sixty-one. *)
Definition word60 : str := repeat 97 60.
Definition word61 : str := repeat 97 61.

(** [a] is included in [b], as lists of names. *)
Definition incl_b (a b : list str) : bool :=
  forallb (fun x => existsb (eqb x) b) a.

(** An entry of the translation table is regular when it has a [zh] and an
    [en] template, both made of literal text and named fields only, and
    both naming the same fields. *)
Definition regular_entry (translations : list (str * str)) : bool :=
  match Format.get (u "zh") translations, Format.get (u "en") translations with
  | Some zh_text, Some en_text =>
    Format.plain zh_text && Format.plain en_text
    && incl_b (Format.fields zh_text) (Format.fields en_text)
    && incl_b (Format.fields en_text) (Format.fields zh_text)
  | _, _ => false
  end.

(** A table with one entry whose [en] template names a field that its [zh]
    template does not. *)
Definition lopsided_table : list (str * list (str * str)) :=
  [ (u "greeting", [(u "zh", u "你好"); (u "en", u "Hello {name}")]) ].

(** The localised summary heading in each language. *)
Definition heading_text (language : Language) : str :=
  match language with
  | ZH => u "投资组合汇总"
  | EN => u "PORTFOLIO SUMMARY"
  | BOTH => u "投资组合汇总 / PORTFOLIO SUMMARY"
  end.

(** No code point of [a] occurs in [b]. *)
Definition disjoint_b (a b : str) : bool :=
  forallb (fun y => negb (existsb (N.eqb y) b)) a.

(** A number written with two decimals: an optional minus sign, at least
    one digit, a point and two digits. *)
Definition two_decimals (t : str) : bool :=
  let body :=
    match t with
    | c :: r => if c =? 45 then r else t
    | [] => t
    end in
  let '(ip, rest) := span_digits body in
  match ip, rest with
  | _ :: _, [p; d1; d2] =>
    (p =? 46) && Format.is_digit d1 && Format.is_digit d2
  | _, _ => false
  end.

(** What a Sharpe, Sortino or drawdown cell must be for its input:
    empty exactly when the input is absent, a coloured two-decimal number
    when the input is a finite number, and the coloured text [0.00] when
    the input is numerically zero. *)
Definition metric_cell_ok (color suffix : str) (input : option float)
    (cell : str) : Prop :=
  (cell = [] <-> input = None)
  /\ (forall x, input = Some x -> is_finite x = true ->
        exists t, cell = color ++ t ++ suffix ++ Style.RESET_ALL
                  /\ two_decimals t = true)
  /\ (forall x, input = Some x -> Float.truthy x = false ->
        cell = color ++ u "0.00" ++ suffix ++ Style.RESET_ALL).

(** The sign of a float and, for a finite one, its magnitude in
    hundredths rounded to an integer, ties to even. *)
Definition sign_bit (x : float) : bool :=
  match x with
  | S754_zero s | S754_infinity s | S754_finite s _ _ => s
  | S754_nan => false
  end.

Definition cents (x : float) : N :=
  match x with
  | S754_finite _ m e => scaled_round m e 2
  | _ => 0
  end.

(** The number a currency cell shows for [x]: the double nearest to [x]
    rounded to two decimals; an infinity or a NaN shows as itself. *)
Definition shown_amount (x : float) : float :=
  if is_finite x then of_decimal (sign_bit x) (cents x) 2 else x.

(** [float(amount_text(cell))], the way [print_backtest_results] reads a
    currency cell back. *)
Definition read_amount (cell : str) : result float :=
  text <- amount_text cell ;; float_of_str text.

(** The doubles written [1234567.89] and [0.125]. *)
Definition f_1234567_89 : float := of_decimal false 123456789 2.
Definition f_0_125 : float := of_decimal false 125 3.

(** Arguments of a summary row in which every amount is [x]. *)
Definition summary_args (x : option float) (language : Language) : row_args :=
  {| date := u "2024-01-02"; ticker := []; action := [];
     quantity := zero; price := zero; long_shares := zero;
     short_shares := zero; position_value := zero;
     bullish_count := 0; bearish_count := 0; neutral_count := 0;
     is_summary := true;
     total_value := x; return_pct := x; cash_balance := x;
     total_position_value := x;
     sharpe_ratio := x; sortino_ratio := x; max_drawdown := x;
     language := language |}.

(** Arguments of a per-trade row. *)
Definition trade_args (ticker : str) (language : Language) : row_args :=
  {| date := u "2024-01-02"; ticker := ticker; action := u "buy";
     quantity := of_decimal false 10 0; price := of_decimal false 18955 2;
     long_shares := of_decimal false 10 0; short_shares := zero;
     position_value := of_decimal false 189550 2;
     bullish_count := 3; bearish_count := 1; neutral_count := 0;
     is_summary := false;
     total_value := None; return_pct := None; cash_balance := None;
     total_position_value := None;
     sharpe_ratio := None; sortino_ratio := None; max_drawdown := None;
     language := language |}.

(** Upper-case mapping that leaves the code points from 128 on alone. *)
Definition sample_upper_hi (c : N) : list N := [c].

(** A summary row whose every metric is numerically zero. *)
Definition zero_summary_args : row_args := summary_args (Some zero) EN.

Definition zero_summary_row : row :=
  match format_backtest_row sample_upper_hi zero_summary_args with
  | Ok r => r
  | Raise _ => []
  end.

(** A letter of the words [zh], [en] and [both]: ASCII, neither [k] nor
    [i]. *)
Definition word_char (y : N) : bool :=
  (y <? 128) && negb (y =? 107) && negb (y =? 105).

(** What the wrapping loop keeps true of its state [(wrapped, current)]
    once it has read the words [done]: splitting the text built so far
    gives [done] back, and nothing has been flushed while the current line
    is empty. *)
Definition wrap_inv (done : list str) (st : str * str) : Prop :=
  split (fst st ++ snd st) = done /\ (snd st = [] -> fst st = []).

Definition no_break (l : str) : Prop := Forall (fun c => c <> 10) l.

(** A line is fine when it fits the width or is one of the words. *)
Definition line_ok (words : list str) (l : str) : Prop :=
  (List.length l <= max_line_length)%nat \/ In l words.

(** The flushed lines [ls] and the current line of a loop state. *)
Definition lines_inv (words : list str) (st : str * str) (ls : list str)
  : Prop :=
  fst st = List.concat (map (fun l => l ++ NL) ls)
  /\ Forall no_break ls /\ no_break (snd st)
  /\ Forall (line_ok words) ls /\ line_ok words (snd st).

Definition digit (c : N) : Prop := Format.is_digit c = true.


(** ** Definitions used to state the further properties *)

(** The first word of a line; empty when the line has no word. *)
Definition first_word (l : str) : str := hd [] (split l).

(** The next word did not fit: line [a] followed by a blank and the first
    word of line [b] is longer than the width. *)
Definition did_not_fit (a b : str) : Prop :=
  (max_line_length < List.length a + List.length (first_word b) + 1)%nat.

(** [did_not_fit] holds of every two adjacent lines. *)
Fixpoint all_adjacent (R : str -> str -> Prop) (ls : list str) : Prop :=
  match ls with
  | a :: ((b :: _) as rest) => R a b /\ all_adjacent R rest
  | _ => True
  end.

(** The words [ws], each after a blank. *)
Definition spaced (ws : list str) : str :=
  List.concat (map (fun x => 32 :: x) ws).

(** Whether the second cell of a row contains the heading; [false] for a
    row without a second cell. *)
Definition has_heading (heading : str) (r : row) : bool :=
  match nth_error r 1 with
  | Some second => contains heading second
  | None => false
  end.

(** The date of a row: its first cell. *)
Definition date_of (r : row) : str := hd [] r.

(** A table built row by row with [format_backtest_row], the way a caller
    fills [table_rows]. *)
Fixpoint build_rows (upper_hi : N -> list N) (args : list row_args)
  : result (list row) :=
  match args with
  | [] => Ok []
  | a :: rest =>
    r <- format_backtest_row upper_hi a ;;
    rs <- build_rows upper_hi rest ;;
    Ok (r :: rs)
  end.

(** The row [format_backtest_row] builds, as a plain value. *)
Definition row_of (upper_hi : N -> list N) (a : row_args) : row :=
  match format_backtest_row upper_hi a with
  | Ok r => r
  | Raise _ => []
  end.

(** The arguments fit the language [l]: the row is built in that language
    and, for a per-trade row, the ticker does not contain the heading. *)
Definition fits_language (l : Language) (a : row_args) : Prop :=
  a.(language) = l
  /\ (a.(is_summary) = false -> contains (heading_text l) a.(ticker) = false).

Definition is_trade (a : row_args) : bool := negb a.(is_summary).

(** A table entry is clean when neither text is blank or has blanks around
    it and the two texts differ. *)
Definition clean_entry (e : str * str) : bool :=
  Py.truthy (fst e) && Py.truthy (snd e)
  && eqb (strip (fst e)) (fst e) && eqb (strip (snd e)) (snd e)
  && negb (eqb (fst e) (snd e)).


(** An agent is shown for a ticker when it has a signal for it and is not
    the risk-management agent. *)
Definition agent_shown (ticker : str)
    (entry : str * list (str * signal_record)) : bool :=
  match Format.get ticker (snd entry) with
  | Some _ => negb (eqb (fst entry) (u "risk_management_agent"))
  | None => false
  end.

Definition has_rank (k : Z) (r : ranked_row) : bool := (fst r =? k)%Z.

(** Sample signals: two analysts outside the order map, one inside it and
    the risk-management agent. *)
Definition sample_signal (s : string) : list (str * signal_record) :=
  [ (u "AAPL",
     {| sig_signal := Some (u s); sig_confidence := Some (u "75");
        sig_reasoning := Some (ReasonStr (u "Strong fundamentals")) |}) ].

Definition sample_analyst_signals
  : list (str * list (str * signal_record)) :=
  [ (u "zeta_agent", sample_signal "bearish");
    (u "risk_management_agent", sample_signal "neutral");
    (u "alpha_agent", sample_signal "neutral");
    (u "warren_buffett_agent", sample_signal "bullish") ].

Definition sample_order : list (str * Z) := [ (u "warren_buffett", 0%Z) ].

(** Sample tables and rows. *)
Definition two_summaries : list row :=
  [ [u "2024-01-01"; u "PORTFOLIO SUMMARY"];
    [u "2024-01-02"; u "PORTFOLIO SUMMARY"];
    [u "2024-01-02"; u "PORTFOLIO SUMMARY (again)"] ].

Definition loss_args : row_args :=
  summary_args (Some (of_decimal true 1234 2)) EN.

Definition loss_row : row := row_of sample_upper_hi loss_args.

Definition sample_table_args : list row_args :=
  [ trade_args (u "AAPL") EN;
    summary_args (Some f_1234567_89) EN;
    trade_args (u "MSFT") EN ].
(** * Properties *)

(** ** The model on sample values

    Each value below is what CPython gives for the same expression. *)

Example u_decodes_utf8 :
  u "投资组合汇总" = [25237; 36164; 32452; 21512; 27719; 24635].
Proof. reflexivity. Qed.

(** [(1234567.89).hex()] is [0x1.2d687e3d70a3dp+20]. *)
Example double_1234567_89 :
  f_1234567_89 = S754_finite false 5302428712241725 (-32).
Proof. reflexivity. Qed.

Example format_grouped :
  format_f false true 2 f_1234567_89 = u "1,234,567.89"
  /\ format_f true false 2 f_1234567_89 = u "+1234567.89"
  /\ format_f false true 0 f_1234567_89 = u "1,234,568".
Proof. repeat split; vm_compute; reflexivity. Qed.

(** Ties go to the even digit, and the exact binary value decides:
    [0.125] is a tie, [2.675] lies below [2.675], [999.995] above. *)
Example format_rounding :
  format_f false true 2 f_0_125 = u "0.12"
  /\ format_f false true 2 (of_decimal false 2675 3) = u "2.67"
  /\ format_f false true 2 (of_decimal false 999995 3) = u "1,000.00"
  /\ format_f false true 0 (of_decimal false 25 1) = u "2"
  /\ format_f false true 2 (of_decimal true 1 3) = u "-0.00".
Proof. repeat split; vm_compute; reflexivity. Qed.

Example format_not_finite :
  format_f false true 2 (S754_infinity true) = u "-inf"
  /\ format_f true false 2 S754_nan = u "+nan".
Proof. repeat split; vm_compute; reflexivity. Qed.

(** [(0.12).hex()] is [0x1.eb851eb851eb8p-4]. *)
Example float_of_str_samples :
  float_of_str (u "0.12") = Ok (S754_finite false 8646911284551352 (-56))
  /\ float_of_str (u "-0.00") = Ok (S754_zero true)
  /\ float_of_str (u "1234567.89") = Ok f_1234567_89
  /\ float_of_str (u "-INF") = Ok (S754_infinity true).
Proof. repeat split; vm_compute; reflexivity. Qed.

Example split_blanks :
  split (u "  to be" ++ NL ++ u "or  not ") = [u "to"; u "be"; u "or"; u "not"].
Proof. reflexivity. Qed.

Example split_on_separator :
  split_on (u "ab") (u "xabyababz") = [u "x"; u "y"; []; u "z"].
Proof. reflexivity. Qed.

Example format_template :
  Format.format (u "a{{b}}c{x}") [(u "x", u "1")] = Ok (u "a{b}c1")
  /\ Format.format (u "{x}") [] = Raise (KeyError (u "x"))
  /\ Format.format (u "{}") [(u "x", u "1")] = Raise IndexError
  /\ Format.format (u "a}b") [] = Raise ValueError.
Proof. repeat split; vm_compute; reflexivity. Qed.

Example translate_text_samples :
  translate_text (u "display.analysis_heading") BOTH None
                 [(u "ticker", u "AAPL")]
    = Ok (u "分析：AAPL / Analysis: AAPL")
  /\ translate_text (u "display.table.agent") EN (Some (u "Agent")) []
     = Ok (u "Agent")
  /\ translate_text (u "display.table.confidence") BOTH None []
     = Ok (u "置信度 / Confidence").
Proof. repeat split; vm_compute; reflexivity. Qed.

Example wrap_sample :
  wrap (u "one two" ++ NL ++ u "three") = u "one two three"
  /\ lines (wrap (word61 ++ u " b")) = [[]; word61; u "b"].
Proof. repeat split; vm_compute; reflexivity. Qed.

(** ** Strings *)

Lemma eqb_eq (a b : str) : eqb a b = true <-> a = b.
Proof.
  revert b; induction a as [|x a IH]; intros [|y b]; simpl;
    try (split; [discriminate | discriminate]); [tauto|].
  rewrite andb_true_iff, N.eqb_eq, IH.
  split; [intros [-> ->]; reflexivity | intros H; inversion H; auto].
Qed.

Lemma eqb_refl (a : str) : eqb a a = true.
Proof. apply eqb_eq; reflexivity. Qed.

Lemma eqb_neq (a b : str) : eqb a b = false <-> a <> b.
Proof.
  destruct (eqb a b) eqn:E.
  - apply eqb_eq in E. split; [discriminate | intros H; contradiction].
  - split; [|reflexivity]. intros _ H. apply eqb_eq in H. congruence.
Qed.

(** ** Language selection *)

Section FromValueFacts.
Variable lower_hi : N -> list N.
Hypothesis lower_hi_head :
  forall c, 128 <= c -> lower_head_ok (lower_hi c) = true.

Lemma lower_caseless (word : str) :
  forallb word_char word = true ->
  forall v, eqb (lower lower_hi v) word = caseless v word.
Proof.
  intros Hw v. revert word Hw.
  induction v as [|c v IH]; intros word Hw.
  - reflexivity.
  - unfold caseless, lower in *. simpl.
    unfold lower_char at 1. unfold ascii_fold at 1.
    destruct (c <? 128) eqn:Hc.
    + destruct ((65 <=? c) && (c <=? 90)); simpl;
        (destruct word as [|y word]; [reflexivity|]);
        simpl in Hw; apply andb_true_iff in Hw as [_ Hw];
        (f_equal; apply IH; exact Hw).
    + apply N.ltb_ge in Hc.
      pose proof (lower_hi_head c Hc) as Hh.
      destruct (lower_hi c) as [|d l]; [discriminate|].
      simpl in Hh. simpl.
      destruct word as [|y word]; [reflexivity|].
      simpl in Hw. apply andb_true_iff in Hw as [Hy _].
      unfold word_char in Hy.
      apply andb_true_iff in Hy as [Hy Hi].
      apply andb_true_iff in Hy as [Hy Hk].
      apply N.ltb_lt in Hy. apply negb_true_iff, N.eqb_neq in Hk, Hi.
      assert (Hd : (d =? y) = false).
      { apply N.eqb_neq. intros ->.
        rewrite !orb_true_iff, N.leb_le, !N.eqb_eq in Hh. lia. }
      assert (Hcy : ((if (65 <=? c) && (c <=? 90) then c + 32 else c) =? y)
                    = false).
      { apply N.eqb_neq. destruct ((65 <=? c) && (c <=? 90)); lia. }
      rewrite Hd, Hcy. reflexivity.
Qed.

(** C8. [Language.from_value] is total: whatever the optional string, it
    returns a member of the enumeration.  An input equal to [zh], [en] or
    [both] up to the case of its ASCII letters gives that member; every
    other input, among them [None], the empty string and [fr], gives
    [ZH]. *)
Theorem from_value_caseless :
  (forall value : option str,
     from_value lower_hi value =
       if caseless_opt value (u "zh") then ZH
       else if caseless_opt value (u "en") then EN
       else if caseless_opt value (u "both") then BOTH
       else ZH)
  /\ from_value lower_hi None = ZH
  /\ from_value lower_hi (Some []) = ZH
  /\ from_value lower_hi (Some (u "fr")) = ZH
  /\ from_value lower_hi (Some (u "BoTh")) = BOTH
  /\ from_value lower_hi (Some (u "EN")) = EN.
Proof.
  assert (H : forall value : option str,
     from_value lower_hi value =
       if caseless_opt value (u "zh") then ZH
       else if caseless_opt value (u "en") then EN
       else if caseless_opt value (u "both") then BOTH
       else ZH).
  { intros [v|]; [|reflexivity].
    unfold from_value, caseless_opt, Language_of_value, Language_value.
    destruct v as [|c v]; [reflexivity|].
    cbn [Py.truthy negb].
    rewrite !lower_caseless by reflexivity.
    destruct (caseless (c :: v) (u "zh")); [reflexivity|].
    destruct (caseless (c :: v) (u "en")); [reflexivity|].
    destruct (caseless (c :: v) (u "both")); reflexivity. }
  split; [exact H|].
  repeat split; rewrite H; reflexivity.
Qed.
End FromValueFacts.

(** ** Combination of the two texts *)

(** C3, as the code has it.  In [BOTH] mode the rule applies to the texts
    with their leading and trailing blanks stripped: the stripped primary
    and secondary texts are joined with [" / "], the secondary one is left
    out when its stripped text is empty or equal to the stripped primary
    one, the primary one when its stripped text is empty; when both
    stripped texts are empty the raw [en_text] is returned if it is not
    empty, else the raw [zh_text]. *)
Theorem combine_both_stripped (zh_text en_text : str) :
  combine_translations zh_text en_text BOTH default_joiner =
    if Py.truthy (strip zh_text) || Py.truthy (strip en_text)
    then combine_both_literal (strip zh_text) (strip en_text)
    else or_ en_text zh_text.
Proof.
  unfold combine_translations, combine_both_literal.
  destruct (strip zh_text) as [|z zs] eqn:Hz;
    destruct (strip en_text) as [|e es] eqn:He; reflexivity.
Qed.

(** C3 as stated fails: a secondary text that differs from the primary one
    only by a trailing blank is left out, where exact equality of the raw
    texts would keep it. *)
Lemma combine_both_literal_fails :
  combine_translations (u "a") (u "a ") BOTH default_joiner = u "a"
  /\ combine_both_literal (u "a") (u "a ") = u "a / a "
  /\ combine_translations (u "a") (u "a ") BOTH default_joiner
     <> combine_both_literal (u "a") (u "a ").
Proof. repeat split; try reflexivity. discriminate. Qed.

(** ** Templates and the translation table *)

Module FormatFacts.
Import Format.

Lemma render_ok (kwargs : list (str * str)) (ps : list piece) :
  no_bad ps = true ->
  (forall n, In n (names ps) -> get n kwargs <> None) ->
  exists s, render kwargs ps = Ok s.
Proof.
  induction ps as [|p ps IH]; intros Hb Hn; simpl.
  - eexists; reflexivity.
  - destruct p as [c|n|e]; simpl in Hb; [| |discriminate].
    + destruct (IH Hb Hn) as [s ->]. eexists; reflexivity.
    + destruct (get n kwargs) eqn:Hg.
      * destruct (IH Hb) as [r ->].
        { intros m Hm. apply Hn. right. exact Hm. }
        eexists; reflexivity.
      * exfalso. apply (Hn n); [left; reflexivity | exact Hg].
Qed.

Lemma render_raise (kwargs : list (str * str)) (ps : list piece) (e : exn) :
  no_bad ps = true -> render kwargs ps = Raise e ->
  exists n, e = KeyError n /\ In n (names ps) /\ get n kwargs = None.
Proof.
  induction ps as [|p ps IH]; intros Hb Hr; simpl in *.
  - discriminate.
  - destruct p as [c|n|e']; [| |discriminate].
    + destruct (render kwargs ps) eqn:Hps; [discriminate|].
      inversion Hr; subst. apply IH; [exact Hb | reflexivity].
    + destruct (get n kwargs) eqn:Hg.
      * destruct (render kwargs ps) eqn:Hps; [discriminate|].
        inversion Hr; subst.
        destruct (IH Hb eq_refl) as (m & -> & Hm & Hgm).
        exists m. repeat split; [right; exact Hm | exact Hgm].
      * inversion Hr; subst. exists n.
        repeat split; [left; reflexivity | exact Hg].
Qed.

Lemma render_missing (kwargs : list (str * str)) (ps : list piece) (n : str) :
  no_bad ps = true -> In n (names ps) -> get n kwargs = None ->
  exists m, render kwargs ps = Raise (KeyError m) /\ get m kwargs = None.
Proof.
  intros Hb Hn Hg.
  destruct (render kwargs ps) as [s|e] eqn:Hr.
  - exfalso. revert s Hr. induction ps as [|p ps IH]; intros s Hr.
    + destruct Hn.
    + simpl in *. destruct p as [c|m|e]; [| |discriminate].
      * destruct (render kwargs ps); [|discriminate]. eapply IH; eauto.
      * destruct (get m kwargs) eqn:Hm; [|discriminate].
        destruct (render kwargs ps); [|discriminate].
        destruct Hn as [->|Hn]; [congruence|]. eapply IH; eauto.
  - destruct (render_raise _ _ _ Hb Hr) as (m & -> & _ & Hm).
    exists m. split; [reflexivity | exact Hm].
Qed.

(** Formatting a plain template succeeds exactly when every field it
    names is supplied; otherwise it raises [KeyError] for a missing name. *)
Lemma format_plain_ok (t : str) (kwargs : list (str * str)) :
  plain t = true ->
  (forall n, In n (fields t) -> get n kwargs <> None) ->
  exists s, format t kwargs = Ok s.
Proof. apply render_ok. Qed.

Lemma format_plain_raise (t : str) (kwargs : list (str * str)) (e : exn) :
  plain t = true -> format t kwargs = Raise e ->
  exists n, e = KeyError n /\ In n (fields t) /\ get n kwargs = None.
Proof. apply render_raise. Qed.

Lemma format_plain_missing (t : str) (kwargs : list (str * str)) (n : str) :
  plain t = true -> In n (fields t) -> get n kwargs = None ->
  exists m, format t kwargs = Raise (KeyError m) /\ get m kwargs = None.
Proof. apply render_missing. Qed.

Lemma get_In {V} (key : str) (d : list (str * V)) (v : V) :
  get key d = Some v -> In v (map snd d).
Proof.
  induction d as [|[k x] d IH]; simpl; [discriminate|].
  destruct (eqb key k).
  - intros H; inversion H; left; reflexivity.
  - intros H; right; apply IH, H.
Qed.

End FormatFacts.

Lemma incl_b_In (a b : list str) (x : str) :
  incl_b a b = true -> In x a -> In x b.
Proof.
  unfold incl_b. rewrite forallb_forall. intros H Hx.
  apply H in Hx. apply existsb_exists in Hx as (y & Hy & E).
  apply eqb_eq in E. subst. exact Hy.
Qed.

(** Every entry of the shipped table is regular. *)
Lemma TRANSLATIONS_regular :
  forallb regular_entry (map snd TRANSLATIONS) = true.
Proof. vm_compute. reflexivity. Qed.

Lemma TRANSLATIONS_entry (key : str) (translations : list (str * str)) :
  Format.get key TRANSLATIONS = Some translations ->
  exists zh_text en_text,
    Format.get (u "zh") translations = Some zh_text
    /\ Format.get (u "en") translations = Some en_text
    /\ Format.plain zh_text = true /\ Format.plain en_text = true
    /\ (forall n, In n (Format.fields zh_text) <-> In n (Format.fields en_text)).
Proof.
  intros Hg. apply FormatFacts.get_In in Hg.
  pose proof TRANSLATIONS_regular as Hall.
  rewrite forallb_forall in Hall. apply Hall in Hg.
  unfold regular_entry in Hg.
  destruct (Format.get (u "zh") translations) as [z|]; [|discriminate].
  destruct (Format.get (u "en") translations) as [e|]; [|discriminate].
  rewrite !andb_true_iff in Hg. destruct Hg as [[[Hz He] Hze] Hez].
  exists z, e. repeat split; auto; intros Hn; eapply incl_b_In; eauto.
Qed.

(** The body of [translate_text] once the key is found. *)
Lemma translate_text_in_found table key translations language fallback kwargs :
  Format.get key table = Some translations -> translations <> [] ->
  translate_text_in table key language fallback kwargs =
    (formatted_zh <-
       Format.format
         (get_default (u "zh") translations (or_empty fallback)) kwargs ;;
     formatted_en <-
       Format.format
         (get_default (u "en") translations (or_empty fallback)) kwargs ;;
     Ok (combine_translations formatted_zh formatted_en language
                              default_joiner)).
Proof.
  intros Hg Hne. unfold translate_text_in. rewrite Hg.
  destruct translations; [contradiction | reflexivity].
Qed.

(** C7. A key that is not in the table never makes [translate_text]
    raise: the fallback, or the empty string, is combined with itself.  For
    a key of the table, a field named by one of its two templates and not
    supplied makes [translate_text] raise [KeyError] for a name that is not
    supplied. *)
Theorem translate_text_absent_or_missing key language fallback kwargs :
  (Format.get key TRANSLATIONS = None ->
   translate_text key language fallback kwargs =
     Ok (combine_translations (or_empty fallback) (or_empty fallback)
                              language default_joiner))
  /\ (forall translations name,
        Format.get key TRANSLATIONS = Some translations ->
        In name
           (Format.fields
              (get_default (u "zh") translations (or_empty fallback))
            ++ Format.fields
                 (get_default (u "en") translations (or_empty fallback))) ->
        Format.get name kwargs = None ->
        exists missing,
          translate_text key language fallback kwargs
            = Raise (KeyError missing)
          /\ Format.get missing kwargs = None).
Proof.
  split.
  - intros Hg. unfold translate_text, translate_text_in. rewrite Hg.
    reflexivity.
  - intros translations name Hg Hin Hmiss.
    destruct (TRANSLATIONS_entry _ _ Hg)
      as (z & e & Hz & He & Pz & Pe & Hsame).
    unfold translate_text.
    rewrite (translate_text_in_found _ _ _ _ _ _ Hg)
      by (intros ->; discriminate).
    unfold get_default in *. rewrite Hz, He in *.
    assert (Hinz : In name (Format.fields z)).
    { apply in_app_or in Hin as [H|H]; [exact H | apply Hsame, H]. }
    destruct (FormatFacts.format_plain_missing z kwargs name Pz Hinz Hmiss)
      as (m & Hr & Hm).
    exists m. rewrite Hr. split; [reflexivity | exact Hm].
Qed.

(** C10, as the code has it.  Once the key is found both templates are
    formatted before the texts are combined, so [translate_text] raises
    exactly when formatting one of the two templates raises, whatever the
    language.  With a table whose [en] template names a field that the
    [zh] one does not, a [ZH] call raises for that field although the [zh]
    template formats.  In the shipped table the two templates of a key name
    the same fields, so one formats exactly when the other does. *)
Theorem translate_text_formats_both :
  (forall table key translations language fallback kwargs,
     Format.get key table = Some translations -> translations <> [] ->
     (raises (translate_text_in table key language fallback kwargs)
      <-> raises (Format.format
                    (get_default (u "zh") translations (or_empty fallback))
                    kwargs)
          \/ raises (Format.format
                       (get_default (u "en") translations (or_empty fallback))
                       kwargs)))
  /\ (Format.format (u "你好") [] = Ok (u "你好")
      /\ translate_text_in lopsided_table (u "greeting") ZH None []
         = Raise (KeyError (u "name")))
  /\ (forall key translations fallback kwargs,
        Format.get key TRANSLATIONS = Some translations ->
        (raises (Format.format
                   (get_default (u "zh") translations (or_empty fallback))
                   kwargs)
         <-> raises (Format.format
                       (get_default (u "en") translations (or_empty fallback))
                       kwargs))).
Proof.
  split; [|split].
  - intros table key translations language fallback kwargs Hg Hne.
    rewrite (translate_text_in_found _ _ _ _ _ _ Hg Hne).
    destruct (Format.format (get_default (u "zh") _ _) kwargs) as [z|ez];
      destruct (Format.format (get_default (u "en") _ _) kwargs) as [e|ee];
      simpl; unfold raises; split.
    + intros [x H]; discriminate.
    + intros [[x H]|[x H]]; discriminate.
    + intros _. right. eexists; reflexivity.
    + intros _. eexists; reflexivity.
    + intros _. left. eexists; reflexivity.
    + intros _. eexists; reflexivity.
    + intros _. left. eexists; reflexivity.
    + intros _. eexists; reflexivity.
  - split; vm_compute; reflexivity.
  - intros key translations fallback kwargs Hg.
    destruct (TRANSLATIONS_entry _ _ Hg)
      as (z & e & Hz & He & Pz & Pe & Hsame).
    unfold get_default. rewrite Hz, He. unfold raises.
    split; intros [x Hr].
    + destruct (FormatFacts.format_plain_raise _ _ _ Pz Hr)
        as (n & -> & Hn & Hm).
      apply Hsame in Hn.
      destruct (FormatFacts.format_plain_missing e kwargs n Pe Hn Hm)
        as (m & Hr' & _).
      eexists; exact Hr'.
    + destruct (FormatFacts.format_plain_raise _ _ _ Pe Hr)
        as (n & -> & Hn & Hm).
      apply Hsame in Hn.
      destruct (FormatFacts.format_plain_missing z kwargs n Pz Hn Hm)
        as (m & Hr' & _).
      eexists; exact Hr'.
Qed.

(** C10 as stated fails on the shipped table: no key, fallback and
    substitutions make a [ZH] call raise while the [zh] template formats,
    nor an [EN] call raise while the [en] template formats. *)
Lemma no_key_raises_for_hidden_template :
  ~ (exists key translations fallback kwargs shown,
       Format.get key TRANSLATIONS = Some translations
       /\ Format.format
            (get_default (u "zh") translations (or_empty fallback)) kwargs
          = Ok shown
       /\ raises (translate_text key ZH fallback kwargs))
  /\ ~ (exists key translations fallback kwargs shown,
          Format.get key TRANSLATIONS = Some translations
          /\ Format.format
               (get_default (u "en") translations (or_empty fallback)) kwargs
             = Ok shown
          /\ raises (translate_text key EN fallback kwargs)).
Proof.
  assert (H : forall language key translations fallback kwargs shown,
    Format.get key TRANSLATIONS = Some translations ->
    (Format.format (get_default (u "zh") translations (or_empty fallback))
       kwargs = Ok shown
     \/ Format.format (get_default (u "en") translations (or_empty fallback))
          kwargs = Ok shown) ->
    ~ raises (translate_text key language fallback kwargs)).
  { intros language key translations fallback kwargs shown Hg Hok [x Hr].
    destruct (TRANSLATIONS_entry _ _ Hg)
      as (z & e & Hz & He & Pz & Pe & Hsame).
    unfold translate_text in Hr.
    rewrite (translate_text_in_found _ _ _ _ _ _ Hg) in Hr
      by (intros ->; discriminate).
    unfold get_default in *. rewrite Hz, He in *.
    assert (Hall : forall n, In n (Format.fields z) ->
                             Format.get n kwargs <> None).
    { intros n Hn Hm. destruct Hok as [Hok|Hok].
      - destruct (FormatFacts.format_plain_missing z kwargs n Pz Hn Hm)
          as (m & Hr' & _). congruence.
      - apply Hsame in Hn.
        destruct (FormatFacts.format_plain_missing e kwargs n Pe Hn Hm)
          as (m & Hr' & _). congruence. }
    destruct (FormatFacts.format_plain_ok z kwargs Pz Hall) as [sz Ez].
    destruct (FormatFacts.format_plain_ok e kwargs Pe) as [se Ee].
    { intros n Hn. apply Hall, Hsame, Hn. }
    rewrite Ez, Ee in Hr. discriminate. }
  split; intros (key & translations & fallback & kwargs & shown & Hg & Hok & Hr).
  - exact (H ZH _ _ _ _ _ Hg (or_introl Hok) Hr).
  - exact (H EN _ _ _ _ _ Hg (or_intror Hok) Hr).
Qed.

(** ** Substring tests *)

Lemma startswith_app (n b : str) : startswith (n ++ b) n = true.
Proof.
  induction n as [|y n IH]; simpl; [reflexivity|].
  rewrite N.eqb_refl. exact IH.
Qed.

Lemma contains_unfold (n h : str) :
  contains n h =
    startswith h n
    || match h with [] => false | _ :: h' => contains n h' end.
Proof. destruct h; reflexivity. Qed.

Lemma contains_middle (n a b : str) : contains n (a ++ n ++ b) = true.
Proof.
  induction a as [|x a IH].
  - rewrite app_nil_l, contains_unfold, startswith_app. reflexivity.
  - rewrite contains_unfold. simpl. rewrite IH. apply orb_true_r.
Qed.

Lemma contains_skip (n p h : str) :
  disjoint_b n p = true -> n <> [] ->
  contains n (p ++ h) = contains n h.
Proof.
  intros Hd Hn. destruct n as [|y n]; [contradiction|].
  simpl in Hd. apply andb_true_iff in Hd as [Hy _].
  apply negb_true_iff in Hy.
  induction p as [|x p IH]; [reflexivity|].
  simpl in Hy. apply orb_false_iff in Hy as [Hyx Hy].
  rewrite N.eqb_sym in Hyx.
  change (contains (y :: n) ((x :: p) ++ h))
    with (((x =? y) && startswith (p ++ h) n) || contains (y :: n) (p ++ h)).
  rewrite Hyx. simpl andb. simpl orb. apply IH, Hy.
Qed.

Lemma startswith_before (q : str) :
  forall n t, disjoint_b n q = true ->
    startswith (t ++ q) n = startswith t n.
Proof.
  induction n as [|y n IH]; intros t Hd.
  - destruct t; destruct q; reflexivity.
  - simpl in Hd. apply andb_true_iff in Hd as [Hy Hd].
    apply negb_true_iff in Hy.
    destruct t as [|x t]; simpl.
    + destruct q as [|x q]; [reflexivity|].
      simpl in Hy. apply orb_false_iff in Hy as [Hyx _].
      rewrite N.eqb_sym in Hyx. rewrite Hyx. reflexivity.
    + rewrite IH by exact Hd. reflexivity.
Qed.

Lemma contains_before (n q : str) :
  disjoint_b n q = true -> n <> [] ->
  forall t, contains n (t ++ q) = contains n t.
Proof.
  intros Hd Hn. induction t as [|x t IH].
  - rewrite app_nil_l, <- (app_nil_r q) at 1.
    rewrite contains_skip by assumption.
    destruct n; [contradiction | reflexivity].
  - change (contains n ((x :: t) ++ q))
      with (startswith ((x :: t) ++ q) n || contains n (t ++ q)).
    rewrite startswith_before, IH by exact Hd. reflexivity.
Qed.

(** ** Summary rows and ticker rows *)

Lemma summary_heading_text (language : Language) :
  translate_text summary_heading_key language
                 (Some summary_heading_fallback) [] = Ok (heading_text language).
Proof. destruct language; vm_compute; reflexivity. Qed.

Lemma heading_avoids_colors (language : Language) :
  heading_text language <> []
  /\ disjoint_b (heading_text language) Fore.CYAN = true
  /\ disjoint_b (heading_text language) Style.RESET_ALL = true.
Proof. destruct language; repeat split; try discriminate; vm_compute; reflexivity. Qed.

Lemma is_summary_row_cell (heading : str) (r : row) (second : str) :
  nth_error r 1 = Some second ->
  is_summary_row heading r = Ok (contains heading second).
Proof. intros H. unfold is_summary_row, item. rewrite H. reflexivity. Qed.

Section RowFacts.
Variable upper_hi : N -> list N.

Lemma summary_row_cells (a : row_args) (r : row) :
  a.(is_summary) = true -> format_backtest_row upper_hi a = Ok r ->
  r = [ a.(date);
        Fore.WHITE ++ Style.BRIGHT ++ heading_text a.(language)
          ++ Style.RESET_ALL;
        []; []; []; []; [];
        money_cell Fore.YELLOW (or0 a.(total_position_value));
        money_cell Fore.CYAN (or0 a.(cash_balance));
        money_cell Fore.WHITE (or0 a.(total_value));
        (if ge0 (or0 a.(return_pct)) then Fore.GREEN else Fore.RED)
          ++ format_f true false 2 (or0 a.(return_pct))
          ++ u "%" ++ Style.RESET_ALL;
        match a.(sharpe_ratio) with
        | Some _ =>
          Fore.YELLOW ++ format_f false false 2 (or0 a.(sharpe_ratio))
            ++ Style.RESET_ALL
        | None => []
        end;
        match a.(sortino_ratio) with
        | Some _ =>
          Fore.YELLOW ++ format_f false false 2 (or0 a.(sortino_ratio))
            ++ Style.RESET_ALL
        | None => []
        end;
        match a.(max_drawdown) with
        | Some _ =>
          Fore.RED ++ format_f false false 2 (SFabs (or0 a.(max_drawdown)))
            ++ u "%" ++ Style.RESET_ALL
        | None => []
        end ].
Proof.
  intros Hs. unfold format_backtest_row.
  rewrite Hs, summary_heading_text. cbn [bind].
  intros H. inversion H. reflexivity.
Qed.

Lemma summary_row_classified (a : row_args) (r : row) :
  a.(is_summary) = true -> format_backtest_row upper_hi a = Ok r ->
  classify_rows (heading_text a.(language)) [r] = Ok ([], [r]).
Proof.
  intros Hs Hr.
  assert (H1 : nth_error r 1
               = Some (Fore.WHITE ++ Style.BRIGHT
                       ++ heading_text a.(language) ++ Style.RESET_ALL)).
  { rewrite (summary_row_cells a r Hs Hr). reflexivity. }
  cbn [classify_rows]. rewrite (is_summary_row_cell _ _ _ H1).
  cbn [bind].
  rewrite (app_assoc Fore.WHITE), contains_middle. reflexivity.
Qed.

Lemma summary_row_exists (a : row_args) :
  a.(is_summary) = true -> exists r, format_backtest_row upper_hi a = Ok r.
Proof.
  intros Hs. unfold format_backtest_row. rewrite Hs, summary_heading_text.
  cbn [bind]. eexists. reflexivity.
Qed.

(** A per-trade row whose ticker does not contain the heading is shown
    in the grid, and no summary is read. *)
Lemma trade_row_shown (a : row_args) :
  a.(is_summary) = false ->
  contains (heading_text a.(language)) a.(ticker) = false ->
  exists r, format_backtest_row upper_hi a = Ok r
            /\ classify_rows (heading_text a.(language)) [r] = Ok ([r], [])
            /\ print_backtest_results [r] a.(language) = Ok (None, [r]).
Proof.
  intros Hs Hno. eexists. split.
  { unfold format_backtest_row. rewrite Hs. reflexivity. }
  assert (Hclass :
    forall r, nth_error r 1
              = Some (Fore.CYAN ++ a.(ticker) ++ Style.RESET_ALL) ->
    classify_rows (heading_text a.(language)) [r] = Ok ([r], [])).
  { intros r H1. cbn [classify_rows].
    rewrite (is_summary_row_cell _ _ _ H1). cbn [bind].
    destruct (heading_avoids_colors a.(language)) as (Hne & Hc & Hr).
    rewrite contains_skip, contains_before, Hno by assumption.
    reflexivity. }
  split; [apply Hclass; reflexivity|].
  unfold print_backtest_results. rewrite summary_heading_text.
  cbn [bind]. rewrite Hclass by reflexivity. reflexivity.
Qed.
End RowFacts.

(** ** Decimal digits *)

Module DecimalFacts.

(** Quotient and remainder by ten, as two numbers [q] and [r] that [lia]
    can reason about. *)
Lemma div_mod_10 (n : N) :
  exists q r, n / 10 = q /\ n mod 10 = r /\ n = 10 * q + r /\ r < 10.
Proof.
  exists (n / 10), (n mod 10). repeat split.
  - apply N.div_mod. discriminate.
  - apply N.mod_upper_bound. discriminate.
Qed.

Ltac by_tens n :=
  let q := fresh "q" in
  let r := fresh "r" in
  let Eq := fresh "Eq" in
  let Er := fresh "Er" in
  destruct (div_mod_10 n) as (q & r & Eq & Er & ? & ?);
  rewrite ?Eq, ?Er in *.

Lemma digit_of_mod (n : N) : digit (48 + n mod 10).
Proof.
  unfold digit, Format.is_digit. by_tens n.
  apply andb_true_iff. split; apply N.leb_le; lia.
Qed.

Lemma digits_value_app (a b : str) :
  digits_value (a ++ b)
  = digits_value a * 10 ^ N.of_nat (List.length b) + digits_value b.
Proof.
  unfold digits_value.
  assert (H : forall b v,
    fold_left (fun acc c => acc * 10 + (c - 48)) b v
    = v * 10 ^ N.of_nat (List.length b)
      + fold_left (fun acc c => acc * 10 + (c - 48)) b 0).
  { clear. induction b as [|c b IH]; intros v.
    - cbn [fold_left List.length]. change (N.of_nat 0) with 0.
      rewrite N.pow_0_r. lia.
    - cbn [fold_left List.length]. rewrite IH, (IH (0 * 10 + (c - 48))).
      rewrite Nat2N.inj_succ, N.pow_succ_r'. lia. }
  rewrite fold_left_app, H. reflexivity.
Qed.

Lemma digits_value_snoc (a : str) (n : N) :
  digits_value (a ++ [48 + n]) = digits_value a * 10 + n.
Proof.
  rewrite digits_value_app. unfold digits_value at 2.
  cbn [fold_left List.length]. change (10 ^ N.of_nat 1) with 10. lia.
Qed.

Lemma digits_value_single (n : N) : digits_value [48 + n] = n.
Proof. exact (digits_value_snoc [] n). Qed.

(** With enough fuel the digits produced are a non-empty run of digits
    whose value is [n]. *)
Lemma decimal_go_spec (fuel : nat) :
  forall n acc, n < 10 ^ N.of_nat (S fuel) ->
    exists ds, decimal_go (S fuel) n acc = ds ++ acc
               /\ ds <> [] /\ Forall digit ds /\ digits_value ds = n.
Proof.
  induction fuel as [|fuel IH]; intros n acc Hn.
  - exists [48 + n mod 10].
    change (10 ^ N.of_nat 1) with 10 in Hn.
    cbn [decimal_go]. rewrite (N.div_small n 10) by exact Hn.
    repeat split; [discriminate | | ].
    + constructor; [apply digit_of_mod | constructor].
    + rewrite digits_value_single. apply N.mod_small, Hn.
  - change (decimal_go (S (S fuel)) n acc)
      with (if n / 10 =? 0 then (48 + n mod 10) :: acc
            else decimal_go (S fuel) (n / 10) ((48 + n mod 10) :: acc)).
    destruct (N.eqb_spec (n / 10) 0) as [Hz|Hnz].
    + exists [48 + n mod 10].
      repeat split; [discriminate | | ].
      * constructor; [apply digit_of_mod | constructor].
      * rewrite digits_value_single. by_tens n. lia.
    + destruct (IH (n / 10) ((48 + n mod 10) :: acc))
        as (ds & E & Hne & Hd & Hv).
      { apply N.Div0.div_lt_upper_bound.
        rewrite Nat2N.inj_succ, N.pow_succ_r' in Hn. exact Hn. }
      exists (ds ++ [48 + n mod 10]).
      repeat split.
      * rewrite E, <- app_assoc. reflexivity.
      * destruct ds; discriminate.
      * apply Forall_app. split; [exact Hd|].
        constructor; [apply digit_of_mod | constructor].
      * rewrite digits_value_snoc, Hv. by_tens n. lia.
Qed.

Lemma decimal_spec (n : N) :
  decimal n <> [] /\ Forall digit (decimal n) /\ digits_value (decimal n) = n.
Proof.
  unfold decimal.
  destruct (decimal_go_spec (N.to_nat (N.log2 n)) n []) as (ds & E & H).
  { rewrite Nat2N.inj_succ, N2Nat.id.
    destruct (N.eq_dec n 0) as [->|Hn]; [reflexivity|].
    apply N.lt_le_trans with (2 ^ N.succ (N.log2 n)).
    - apply N.log2_spec. lia.
    - apply N.pow_le_mono_l. lia. }
  rewrite E, app_nil_r. exact H.
Qed.

Lemma decimal_fixed_spec (k : nat) :
  forall n, List.length (decimal_fixed k n) = k
            /\ Forall digit (decimal_fixed k n)
            /\ digits_value (decimal_fixed k n) = n mod 10 ^ N.of_nat k.
Proof.
  induction k as [|k IH]; intros n.
  - repeat split; [constructor|]. simpl. rewrite N.mod_1_r. reflexivity.
  - destruct (IH (n / 10)) as (Hl & Hd & Hv). cbn [decimal_fixed].
    repeat split.
    + rewrite length_app, Hl. simpl. lia.
    + apply Forall_app. split; [exact Hd|].
      constructor; [apply digit_of_mod | constructor].
    + rewrite digits_value_snoc, Hv, Nat2N.inj_succ, N.pow_succ_r'.
      rewrite N.Div0.mod_mul_r.
      generalize ((n / 10) mod 10 ^ N.of_nat k) (n mod 10). intros; lia.
Qed.

Lemma span_digits_run (ds rest : str) :
  Forall digit ds ->
  match rest with [] => True | c :: _ => Format.is_digit c = false end ->
  span_digits (ds ++ rest) = (ds, rest).
Proof.
  intros Hd Hr. induction Hd as [|d ds Hdig _ IH]; simpl.
  - destruct rest as [|c rest]; [reflexivity|]. simpl. rewrite Hr. reflexivity.
  - unfold digit in Hdig. rewrite Hdig, IH. reflexivity.
Qed.

End DecimalFacts.

(** ** Splitting into words *)

Lemma truthy_app_cons (a : str) (c : N) : Py.truthy (a ++ [c]) = true.
Proof. destruct a; reflexivity. Qed.

Lemma split_go_sep (c : N) (b : str) :
  is_space c = true ->
  forall a cur, split_go cur (a ++ c :: b) = split_go cur a ++ split_go [] b.
Proof.
  intros Hc. induction a as [|x a IH]; intros cur; simpl.
  - rewrite Hc. destruct (Py.truthy cur); reflexivity.
  - destruct (is_space x).
    + destruct (Py.truthy cur); simpl; rewrite IH; reflexivity.
    + apply IH.
Qed.

Lemma split_go_run (w : str) :
  Forall (fun c => is_space c = false) w ->
  forall cur, split_go cur w = if Py.truthy (cur ++ w) then [cur ++ w] else [].
Proof.
  induction 1 as [|x w Hx _ IH]; intros cur; simpl.
  - rewrite app_nil_r. reflexivity.
  - rewrite Hx, IH, <- app_assoc. reflexivity.
Qed.

Lemma split_word (w : str) : is_word w -> split w = [w].
Proof.
  intros [Hne Hw]. unfold split. rewrite split_go_run by exact Hw.
  destruct w; [contradiction | reflexivity].
Qed.

Lemma split_sep (a b : str) (c : N) :
  is_space c = true -> split (a ++ c :: b) = split a ++ split b.
Proof. intros Hc. apply split_go_sep, Hc. Qed.

Lemma split_go_words (s : str) :
  forall cur, Forall (fun c => is_space c = false) cur ->
    Forall is_word (split_go cur s).
Proof.
  induction s as [|c s IH]; intros cur Hcur; simpl.
  - destruct cur; simpl; constructor; [|constructor].
    split; [discriminate | exact Hcur].
  - destruct (is_space c) eqn:Hc.
    + destruct cur as [|x cur]; simpl.
      * apply IH. constructor.
      * constructor; [split; [discriminate | exact Hcur]|].
        apply IH. constructor.
    + apply IH. apply Forall_app. split; [exact Hcur|].
      constructor; [exact Hc | constructor].
Qed.

Lemma split_words (s : str) : Forall is_word (split s).
Proof. apply split_go_words. constructor. Qed.

(** ** The wrapping loop *)

Lemma wrap_step_inv (done : list str) (st : str * str) (w : str) :
  is_word w -> wrap_inv done st -> wrap_inv (done ++ [w]) (wrap_step st w).
Proof.
  intros Hw [Hs He]. destruct st as [W C]. simpl in Hs, He.
  unfold wrap_step, wrap_inv.
  destruct (Nat.ltb _ _); [|destruct C as [|c C]]; cbn [fst snd].
  - split; [|intros ->; destruct Hw as [Hw _]; contradiction].
    change NL with [10]. rewrite <- !app_assoc. simpl.
    rewrite app_assoc, split_sep, Hs, split_word by (exact Hw || reflexivity).
    reflexivity.
  - rewrite He in * by reflexivity. simpl.
    split; [|intros ->; destruct Hw as [Hw _]; contradiction].
    rewrite split_word by exact Hw. simpl in Hs. rewrite <- Hs. reflexivity.
  - split; [|discriminate].
    transitivity (split ((W ++ c :: C) ++ 32 :: w)).
    { f_equal. rewrite <- !app_assoc. reflexivity. }
    rewrite (split_sep (W ++ c :: C) w 32), Hs, split_word
      by (exact Hw || reflexivity).
    reflexivity.
Qed.

Lemma wrap_loop_inv (ws : list str) :
  Forall is_word ws ->
  forall done st, wrap_inv done st ->
    wrap_inv (done ++ ws) (fold_left wrap_step ws st).
Proof.
  induction 1 as [|w ws Hw _ IH]; intros done st Hinv; simpl.
  - rewrite app_nil_r. exact Hinv.
  - replace (done ++ w :: ws) with ((done ++ [w]) ++ ws)
      by (rewrite <- app_assoc; reflexivity).
    apply IH, wrap_step_inv; assumption.
Qed.

Lemma split_wrap_words (ws : list str) :
  Forall is_word ws -> split (wrap_words ws) = ws.
Proof.
  intros Hws. unfold wrap_words.
  destruct (wrap_loop_inv ws Hws [] ([], [])) as [Hs He].
  { split; reflexivity. }
  destruct (fold_left wrap_step ws ([], [])) as [W C].
  simpl in *. destruct C as [|c C]; simpl.
  - rewrite He in Hs by reflexivity. rewrite He by reflexivity. exact Hs.
  - exact Hs.
Qed.

(** C4, as the code has it.  Wrapping reads its input through
    [str.split()] only, and splitting a wrapped text gives the words of the
    input back: re-wrapping the output of the wrap is a no-op for every
    input, whatever the length of its words and whether or not it has line
    breaks. *)
Theorem wrap_idempotent (t : str) : wrap (wrap t) = wrap t.
Proof.
  unfold wrap. rewrite split_wrap_words by apply split_words. reflexivity.
Qed.

(** C4 as stated fails: a text with a line break, and a text with a word
    of more than sixty letters, are both left unchanged by re-wrapping
    their wrapped form. *)
Lemma rewrap_noop_with_break_or_long_word :
  (has_line_break (u "a" ++ NL ++ u "b") = true
   /\ wrap (wrap (u "a" ++ NL ++ u "b")) = wrap (u "a" ++ NL ++ u "b"))
  /\ (has_long_word word61 = true
      /\ wrap (wrap word61) = wrap word61).
Proof. repeat split; vm_compute; reflexivity. Qed.

(** C5 fails on the code: the flush test has no guard on the current line.
    A first word of sixty letters makes [0 + 60 + 1 > 60] true while the
    current line is still empty, so a line break is emitted first and the
    output starts with an empty line. *)
Theorem wrap_flushes_empty_line :
  wrap_step ([], []) word60 = (NL, word60)
  /\ wrap word60 = NL ++ word60
  /\ lines (wrap word60) = [[]; word60].
Proof. repeat split; vm_compute; reflexivity. Qed.

(** The same happens for every first word of sixty code points or more. *)
Lemma wrap_long_first_word (w : str) :
  is_word w -> (60 <= List.length w)%nat -> wrap w = NL ++ w.
Proof.
  intros Hw Hlen. unfold wrap. rewrite split_word by exact Hw.
  unfold wrap_words. cbn [fold_left wrap_step List.length].
  replace (Nat.ltb max_line_length (0 + List.length w + 1)) with true
    by (symmetry; apply Nat.ltb_lt; unfold max_line_length; lia).
  destruct Hw as [Hne _]. destruct w; [contradiction | reflexivity].
Qed.

(** ** Lines of the wrapped text *)

Lemma lines_go_run (l : str) :
  no_break l -> forall cur, lines_go cur l = [cur ++ l].
Proof.
  induction 1 as [|x l Hx _ IH]; intros cur; simpl.
  - rewrite app_nil_r. reflexivity.
  - apply N.eqb_neq in Hx. rewrite Hx, IH, <- app_assoc. reflexivity.
Qed.

Lemma lines_go_break (l s : str) :
  no_break l -> forall cur, lines_go cur (l ++ 10 :: s) = (cur ++ l) :: lines s.
Proof.
  induction 1 as [|x l Hx _ IH]; intros cur; simpl.
  - rewrite app_nil_r. reflexivity.
  - apply N.eqb_neq in Hx. rewrite Hx, IH, <- app_assoc. reflexivity.
Qed.

Lemma lines_flushed (ls : list str) (c : str) :
  Forall no_break ls -> no_break c ->
  lines (List.concat (map (fun l => l ++ NL) ls) ++ c) = ls ++ [c].
Proof.
  induction 1 as [|l ls Hl _ IH]; intros Hc; simpl.
  - apply (lines_go_run c Hc []).
  - unfold lines. change NL with [10].
    rewrite <- !app_assoc. simpl.
    rewrite lines_go_break by exact Hl.
    exact (f_equal (cons l) (IH Hc)).
Qed.

Lemma word_no_break (w : str) : is_word w -> no_break w.
Proof.
  intros [_ Hw]. unfold no_break.
  eapply Forall_impl; [|exact Hw].
  intros c Hc ->. discriminate.
Qed.

Section WrapLines.
Variable words : list str.

Lemma wrap_step_lines (st : str * str) (ls : list str) (w : str) :
  is_word w -> In w words -> lines_inv words st ls ->
  exists ls', lines_inv words (wrap_step st w) ls'.
Proof.
  intros Hw Hin (HW & Hnb & Hnc & Hok & Hoc). destruct st as [W C].
  simpl in HW, Hnc, Hoc. unfold wrap_step.
  destruct (Nat.ltb _ _) eqn:Hlt; [|destruct C as [|c C]].
  - exists (ls ++ [C]). repeat split; simpl.
    + rewrite map_app, List.concat_app, HW. simpl. rewrite app_nil_r.
      reflexivity.
    + apply Forall_app. split; [exact Hnb | constructor; [exact Hnc|constructor]].
    + apply word_no_break, Hw.
    + apply Forall_app. split; [exact Hok | constructor; [exact Hoc|constructor]].
    + right. exact Hin.
  - exists ls. repeat split; simpl; try assumption.
    + apply word_no_break, Hw.
    + right. exact Hin.
  - exists ls. repeat split; simpl; try assumption.
    + change (u " ") with [32].
      apply (Forall_app _ (c :: C) ([32] ++ w)). split; [exact Hnc|].
      constructor; [discriminate | apply word_no_break, Hw].
    + left. apply Nat.ltb_ge in Hlt. unfold max_line_length in *.
      change (u " ") with [32].
      change (List.length ((c :: C) ++ [32%N] ++ w) <= 60)%nat.
      rewrite !length_app. simpl in *. lia.
Qed.

Lemma wrap_loop_lines (ws : list str) :
  Forall is_word ws -> incl ws words ->
  forall st ls, lines_inv words st ls ->
    exists ls', lines_inv words (fold_left wrap_step ws st) ls'.
Proof.
  induction 1 as [|w ws Hw _ IH]; intros Hin st ls Hinv; simpl.
  - exists ls. exact Hinv.
  - destruct (wrap_step_lines st ls w Hw) as [ls' Hinv'];
      [apply Hin; left; reflexivity | exact Hinv |].
    apply (IH (fun x Hx => Hin x (or_intror Hx)) _ ls' Hinv').
Qed.
End WrapLines.

(** C6. Every line of the wrapped text has at most sixty code points, or
    is a single word of the input, longer than sixty code points and left
    whole. *)
Theorem wrap_line_width (text line : str) :
  In line (lines (wrap text)) ->
  (List.length line <= 60)%nat
  \/ ((60 < List.length line)%nat /\ In line (split text)).
Proof.
  intros Hin.
  assert (Hok : line_ok (split text) line).
  { unfold wrap, wrap_words in Hin.
    destruct (wrap_loop_lines (split text) (split text) (split_words text)
                (incl_refl _) ([], []) []) as [ls (HW & Hnb & Hnc & Hok & Hoc)].
    { unfold lines_inv. simpl.
      repeat split; try (constructor; fail). left. apply Nat.le_0_l. }
    destruct (fold_left wrap_step (split text) ([], [])) as [W C].
    simpl in HW, Hnc, Hoc.
    assert (Hl : lines (wrap_finish (W, C)) = ls ++ [C]).
    { simpl. destruct C as [|c C]; simpl.
      - rewrite <- (app_nil_r W), HW. apply lines_flushed; assumption.
      - rewrite HW. apply lines_flushed; assumption. }
    rewrite Hl in Hin. apply in_app_or in Hin as [Hin|[<-|[]]].
    - rewrite Forall_forall in Hok. apply Hok, Hin.
    - exact Hoc. }
  destruct (Nat.le_gt_cases (List.length line) 60) as [Hle|Hgt].
  - left. exact Hle.
  - destruct Hok as [Hle|Hw]; [unfold max_line_length in Hle; lia|].
    right. split; assumption.
Qed.

(** ** The text of a fixed-point number *)

Module FixedFacts.
Import DecimalFacts.

Lemma format_f_finite (plus comma : bool) (x : float) :
  is_finite x = true ->
  format_f plus comma 2 x
  = sign_text plus (sign_bit x)
    ++ (if comma then group3 (decimal (cents x / 100))
        else decimal (cents x / 100))
    ++ [46] ++ decimal_fixed 2 (cents x mod 100).
Proof.
  destruct x as [s|s| |s m e]; try discriminate; intros _;
    unfold format_f, fixed_text; reflexivity.
Qed.

Lemma decimal_head (n : N) :
  exists d ds, decimal n = d :: ds /\ digit d /\ Forall digit ds.
Proof.
  destruct (decimal_spec n) as (Hne & Hd & _).
  destruct (decimal n) as [|d ds]; [contradiction|].
  inversion Hd; subst. exists d, ds. auto.
Qed.

Lemma digit_bounds (d : N) : digit d -> 48 <= d <= 57.
Proof.
  unfold digit, Format.is_digit. rewrite andb_true_iff, !N.leb_le. tauto.
Qed.

(** The plain text of a finite number has the two-decimal shape. *)
Lemma two_decimals_finite (x : float) :
  is_finite x = true -> two_decimals (format_f false false 2 x) = true.
Proof.
  intros Hx. rewrite format_f_finite by exact Hx.
  destruct (decimal_head (cents x / 100)) as (d & ds & E & Hd & Hds).
  destruct (decimal_fixed_spec 2 (cents x mod 100)) as (Hl & Hf & _).
  destruct (decimal_fixed 2 (cents x mod 100)) as [|d1 [|d2 [|? ?]]];
    try discriminate.
  inversion Hf as [|? ? H1 Hf']; subst. inversion Hf' as [|? ? H2 _]; subst.
  rewrite E.
  assert (Hspan : span_digits ((d :: ds) ++ [46; d1; d2])
                  = (d :: ds, [46; d1; d2])).
  { apply span_digits_run; [constructor; assumption | reflexivity]. }
  unfold two_decimals, sign_text.
  assert (Hd45 : (d =? 45) = false).
  { apply N.eqb_neq. apply digit_bounds in Hd. lia. }
  destruct (sign_bit x).
  - change (u "-" ++ (d :: ds) ++ [46] ++ [d1; d2])
      with (45 :: (d :: ds) ++ [46; d1; d2]).
    cbv iota beta. rewrite N.eqb_refl, Hspan. cbv iota beta.
    unfold digit in H1, H2. rewrite H1, H2. reflexivity.
  - change ([] ++ (d :: ds) ++ [46] ++ [d1; d2])
      with (d :: ds ++ [46; d1; d2]).
    cbv iota beta. rewrite Hd45.
    change (d :: ds ++ [46; d1; d2]) with ((d :: ds) ++ [46; d1; d2]).
    rewrite Hspan. cbv iota beta.
    unfold digit in H1, H2. rewrite H1, H2. reflexivity.
Qed.

Lemma or0_falsy (x : float) :
  Float.truthy x = false -> or0 (Some x) = zero.
Proof. unfold or0. intros ->. reflexivity. Qed.

Lemma or0_finite (x : float) :
  is_finite x = true -> is_finite (or0 (Some x)) = true.
Proof. unfold or0. destruct x; simpl; auto. Qed.

Lemma abs_finite (x : float) :
  is_finite x = true -> is_finite (SFabs x) = true.
Proof. destruct x; simpl; auto. Qed.

End FixedFacts.

Section MetricFacts.
Variable upper_hi : N -> list N.

(** C9. In a summary row the Sharpe, Sortino and drawdown cells are
    empty exactly when their input is absent; for a finite input they
    are a two-decimal number in colour (with a percent sign for the
    drawdown); and an input that is numerically zero gives the coloured
    text [0.00] ([0.00%] for the drawdown), not an empty cell. *)
Theorem metric_cells_test_presence (a : row_args) (r : row) :
  a.(is_summary) = true -> format_backtest_row upper_hi a = Ok r ->
  exists sharpe sortino drawdown,
    nth_error r 11 = Some sharpe
    /\ nth_error r 12 = Some sortino
    /\ nth_error r 13 = Some drawdown
    /\ metric_cell_ok Fore.YELLOW [] a.(sharpe_ratio) sharpe
    /\ metric_cell_ok Fore.YELLOW [] a.(sortino_ratio) sortino
    /\ metric_cell_ok Fore.RED (u "%") a.(max_drawdown) drawdown.
Proof.
  intros Hs Hr. rewrite (summary_row_cells upper_hi a r Hs Hr).
  do 3 eexists. split; [reflexivity|]. split; [reflexivity|].
  split; [reflexivity|].
  assert (Hplain : forall input,
    metric_cell_ok Fore.YELLOW [] input
      match input with
      | Some _ =>
        Fore.YELLOW ++ format_f false false 2 (or0 input)
          ++ Style.RESET_ALL
      | None => []
      end).
  { intros [x|]; unfold metric_cell_ok; repeat split;
      try discriminate; try (intros; discriminate).
    - intros y Hy Hfin. inversion Hy; subst y.
      exists (format_f false false 2 (or0 (Some x))). split; [reflexivity|].
      apply FixedFacts.two_decimals_finite, FixedFacts.or0_finite, Hfin.
    - intros y Hy Hz. inversion Hy; subst y.
      rewrite FixedFacts.or0_falsy by exact Hz. reflexivity. }
  split; [apply Hplain|]. split; [apply Hplain|].
  destruct (max_drawdown a) as [x|]; unfold metric_cell_ok; repeat split;
    try discriminate; try (intros; discriminate).
  - intros y Hy Hfin. inversion Hy; subst y.
    exists (format_f false false 2 (SFabs (or0 (Some x)))).
    split; [reflexivity|].
    apply FixedFacts.two_decimals_finite, FixedFacts.abs_finite,
      FixedFacts.or0_finite, Hfin.
  - intros y Hy Hz. inversion Hy; subst y.
    rewrite FixedFacts.or0_falsy by exact Hz. reflexivity.
Qed.
End MetricFacts.

(** ** Reading a currency cell back *)

Module ReadFacts.
Import DecimalFacts FixedFacts.

Lemma not_In_b (c : N) (l : str) : existsb (N.eqb c) l = false -> ~ In c l.
Proof.
  intros H Hin. assert (E : existsb (N.eqb c) l = true).
  { apply existsb_exists. exists c. split; [exact Hin | apply N.eqb_refl]. }
  congruence.
Qed.

(** *** [split] on a separator *)

Lemma split_on_go_char_none (c : N) (t : str) :
  ~ In c t -> forall cur, split_on_go [c] 0 cur t = [cur ++ t].
Proof.
  induction t as [|x t IH]; intros Hn cur; simpl.
  - rewrite app_nil_r. reflexivity.
  - destruct (N.eqb_spec x c) as [->|Hx].
    + exfalso. apply Hn. left. reflexivity.
    + simpl. rewrite IH, <- app_assoc; [reflexivity|].
      intros H. apply Hn. right. exact H.
Qed.

Lemma split_on_go_char (c : N) (p t : str) :
  ~ In c p ->
  forall cur, split_on_go [c] 0 cur (p ++ c :: t)
              = (cur ++ p) :: split_on_go [c] 0 [] t.
Proof.
  induction p as [|x p IH]; intros Hn cur; simpl.
  - rewrite N.eqb_refl, app_nil_r. reflexivity.
  - destruct (N.eqb_spec x c) as [->|Hx].
    + exfalso. apply Hn. left. reflexivity.
    + simpl. rewrite IH, <- app_assoc; [reflexivity|].
      intros H. apply Hn. right. exact H.
Qed.

Lemma split_on_char (c : N) (p t : str) :
  ~ In c p -> ~ In c t -> split_on [c] (p ++ c :: t) = [p; t].
Proof.
  intros Hp Ht. unfold split_on.
  rewrite split_on_go_char, split_on_go_char_none by assumption.
  reflexivity.
Qed.

Lemma split_on_go_first (h : N) (tl rest : str) (t : str) :
  ~ In h t ->
  forall cur, exists l,
    split_on_go (h :: tl) 0 cur (t ++ (h :: tl) ++ rest) = (cur ++ t) :: l.
Proof.
  induction t as [|x t IH]; intros Hn cur.
  - rewrite app_nil_l, app_nil_r.
    change (((h :: tl) ++ rest)) with (h :: (tl ++ rest)).
    cbn [split_on_go].
    change (h :: (tl ++ rest)) with ((h :: tl) ++ rest).
    rewrite startswith_app. eexists. reflexivity.
  - change ((x :: t) ++ (h :: tl) ++ rest)
      with (x :: (t ++ (h :: tl) ++ rest)).
    cbn [split_on_go startswith].
    destruct (N.eqb_spec x h) as [->|Hx].
    + exfalso. apply Hn. left. reflexivity.
    + cbn [andb]. destruct (IH (fun H => Hn (or_intror H)) (cur ++ [x]))
        as [l ->].
      exists l. rewrite <- app_assoc. reflexivity.
Qed.

(** The text between the dollar sign and the reset marker, commas
    removed. *)
Lemma amount_text_cell (color text : str) :
  ~ In 36 color -> ~ In 36 text -> ~ In 27 text ->
  amount_text (color ++ u "$" ++ text ++ Style.RESET_ALL)
  = Ok (replace1 44 [] text).
Proof.
  intros Hc Ht He. unfold amount_text.
  change (color ++ u "$" ++ text ++ Style.RESET_ALL)
    with (color ++ 36 :: (text ++ Style.RESET_ALL)).
  change (u "$") with [36].
  rewrite split_on_char; [|exact Hc|].
  - cbn [item nth_error bind]. unfold split_on.
    destruct (split_on_go_first 27 (u "[0m") [] text He []) as [l E].
    rewrite app_nil_r in E. change (27 :: u "[0m") with Style.RESET_ALL in E.
    rewrite E. reflexivity.
  - intros H. apply in_app_or in H as [H|H]; [exact (Ht H)|].
    revert H. apply not_In_b. reflexivity.
Qed.

(** *** Thousands separators *)

Lemma replace1_none (c : N) (l : str) :
  ~ In c l -> replace1 c [] l = l.
Proof.
  induction l as [|x l IH]; intros Hn; simpl; [reflexivity|].
  destruct (N.eqb_spec x c) as [->|Hx].
  - exfalso. apply Hn. left. reflexivity.
  - simpl. f_equal. apply IH. intros H. apply Hn. right. exact H.
Qed.

Lemma replace1_app (c : N) (a b : str) :
  replace1 c [] (a ++ b) = replace1 c [] a ++ replace1 c [] b.
Proof. apply flat_map_app. Qed.

Lemma replace1_rev (c : N) (l : str) :
  replace1 c [] (rev l) = rev (replace1 c [] l).
Proof.
  induction l as [|x l IH]; [reflexivity|].
  simpl. rewrite replace1_app, IH. simpl.
  destruct (x =? c); simpl; rewrite ?app_nil_r; reflexivity.
Qed.

Lemma group3_rev_spec (n : nat) :
  forall ds, (List.length ds <= n)%nat -> ~ In 44 ds ->
    replace1 44 [] (group3_rev ds) = ds
    /\ (forall c, In c (group3_rev ds) -> c = 44 \/ In c ds).
Proof.
  induction n as [|n IH]; intros ds Hl Hn.
  - destruct ds; [|simpl in Hl; lia]. split; [reflexivity | auto].
  - destruct ds as [|a [|b [|c [|d rest]]]];
      try (split; [apply replace1_none, Hn | auto]).
    destruct (IH (d :: rest)) as [Hr Hi].
    { simpl in *. lia. }
    { intros H. apply Hn. do 3 right. exact H. }
    change (group3_rev (a :: b :: c :: d :: rest))
      with (a :: b :: c :: 44 :: group3_rev (d :: rest)).
    split.
    + change (a :: b :: c :: 44 :: group3_rev (d :: rest))
        with ([a; b; c] ++ [44] ++ group3_rev (d :: rest)).
      rewrite !replace1_app, Hr.
      change (replace1 44 [] [44]) with (@nil N).
      rewrite replace1_none; [reflexivity|].
      intros H. apply Hn. simpl in *. tauto.
    + intros x [<-|[<-|[<-|[<-|H]]]]; simpl; auto.
      apply Hi in H. simpl in *. tauto.
Qed.

Lemma group3_spec (ds : str) :
  ~ In 44 ds ->
  replace1 44 [] (group3 ds) = ds
  /\ (forall c, In c (group3 ds) -> c = 44 \/ In c ds).
Proof.
  intros Hn. unfold group3.
  destruct (group3_rev_spec (List.length (rev ds)) (rev ds) (Nat.le_refl _))
    as [Hr Hi].
  { intros H. apply Hn, in_rev, H. }
  split.
  - rewrite replace1_rev, Hr. apply rev_involutive.
  - intros c H. apply in_rev, Hi in H. destruct H as [H|H]; [left; exact H|].
    right. apply in_rev, H.
Qed.

Lemma digits_avoid (ds : str) (c : N) :
  Forall digit ds -> Format.is_digit c = false -> ~ In c ds.
Proof.
  intros Hd Hc Hin. rewrite Forall_forall in Hd. apply Hd in Hin.
  unfold digit in Hin. congruence.
Qed.

(** *** [float] of a decimal numeral *)

Lemma lower_digit (d : N) (rest : str) :
  digit d -> lower (fun c => [c]) (d :: rest) = d :: lower (fun c => [c]) rest.
Proof.
  intros Hd. apply digit_bounds in Hd. unfold lower. simpl.
  unfold lower_char at 1.
  replace (d <? 128) with true by (symmetry; apply N.ltb_lt; lia).
  replace (65 <=? d) with false by (symmetry; apply N.leb_gt; lia).
  reflexivity.
Qed.

Lemma float_of_str_decimal (neg : bool) (ip fp : str) :
  ip <> [] -> Forall digit ip -> Forall digit fp ->
  float_of_str (sign_text false neg ++ ip ++ 46 :: fp)
  = Ok (of_decimal neg (digits_value (ip ++ fp)) (List.length fp)).
Proof.
  intros Hne Hip Hfp.
  destruct ip as [|d ip]; [contradiction|].
  inversion Hip as [|? ? Hd Hip']; subst.
  assert (Hspan : span_digits ((d :: ip) ++ 46 :: fp) = (d :: ip, 46 :: fp)).
  { apply span_digits_run; [exact Hip | reflexivity]. }
  assert (Hspan' : span_digits fp = (fp, [])).
  { rewrite <- (app_nil_r fp) at 1. apply span_digits_run; [exact Hfp | exact I]. }
  assert (Hbody : forall w,
    (let word := lower (fun c => [c]) ((d :: ip) ++ 46 :: fp) in
     if eqb word (u "inf") || eqb word (u "infinity")
     then Ok (S754_infinity w)
     else if eqb word (u "nan") then Ok S754_nan
     else
       let '(ip0, rest) := span_digits ((d :: ip) ++ 46 :: fp) in
       match rest with
       | [] =>
         match ip0 with
         | [] => Raise ValueError
         | _ :: _ => Ok (of_decimal w (digits_value ip0) 0)
         end
       | c :: rest' =>
         if c =? 46 then
           let '(fp0, rest'') := span_digits rest' in
           match rest'', ip0 ++ fp0 with
           | [], [] => Raise ValueError
           | [], _ :: _ =>
             Ok (of_decimal w (digits_value (ip0 ++ fp0)) (List.length fp0))
           | _ :: _, _ => Raise OutsideModel
           end
         else Raise OutsideModel
       end)
    = Ok (of_decimal w (digits_value ((d :: ip) ++ fp)) (List.length fp))).
  { intros w. cbv zeta.
    change ((d :: ip) ++ 46 :: fp) with (d :: (ip ++ 46 :: fp)) at 1 2 3.
    rewrite lower_digit by exact Hd.
    pose proof (digit_bounds d Hd) as Hb.
    assert (Hi : (d =? 105) = false) by (apply N.eqb_neq; lia).
    assert (Hn : (d =? 110) = false) by (apply N.eqb_neq; lia).
    change (u "inf") with (105 :: u "nf").
    change (u "infinity") with (105 :: u "nfinity").
    change (u "nan") with (110 :: u "an").
    cbn [eqb]. rewrite Hi, Hn. cbn [andb orb].
    change (d :: (ip ++ 46 :: fp)) with ((d :: ip) ++ 46 :: fp).
    rewrite Hspan. cbv iota beta. rewrite N.eqb_refl, Hspan'.
    reflexivity. }
  assert (Hd45 : (d =? 45) = false).
  { apply N.eqb_neq. apply digit_bounds in Hd. lia. }
  assert (Hd43 : (d =? 43) = false).
  { apply N.eqb_neq. apply digit_bounds in Hd. lia. }
  unfold float_of_str, sign_text. destruct neg.
  - change (u "-" ++ (d :: ip) ++ 46 :: fp)
      with (45 :: ((d :: ip) ++ 46 :: fp)).
    cbv iota beta. rewrite N.eqb_refl. apply Hbody.
  - change ([] ++ (d :: ip) ++ 46 :: fp) with (d :: (ip ++ 46 :: fp)).
    cbv iota beta. rewrite Hd45, Hd43. apply Hbody.
Qed.

(** *** A currency cell read back *)

Lemma in_sign_text (plus neg : bool) (c : N) :
  In c (sign_text plus neg) -> c = 45 \/ c = 43.
Proof.
  unfold sign_text. destruct neg; [|destruct plus]; simpl; intuition.
Qed.

Lemma amount_finite (x : float) :
  is_finite x = true ->
  let text := format_f false true 2 x in
  ~ In 36 text /\ ~ In 27 text
  /\ float_of_str (replace1 44 [] text) = Ok (shown_amount x).
Proof.
  intros Hx. cbv zeta. rewrite FixedFacts.format_f_finite by exact Hx.
  destruct (decimal_spec (cents x / 100)) as (Hne & Hip & Hiv).
  destruct (decimal_fixed_spec 2 (cents x mod 100)) as (Hfl & Hfp & Hfv).
  assert (H44 : ~ In 44 (decimal (cents x / 100))).
  { apply digits_avoid; [exact Hip | reflexivity]. }
  destruct (group3_spec _ H44) as [Hrep Hin].
  assert (Hchars : forall c,
    In c (sign_text false (sign_bit x) ++ group3 (decimal (cents x / 100))
          ++ [46] ++ decimal_fixed 2 (cents x mod 100)) ->
    c = 45 \/ c = 43 \/ c = 44 \/ c = 46 \/ digit c).
  { intros c H. apply in_app_or in H as [H|H].
    - apply in_sign_text in H. tauto.
    - apply in_app_or in H as [H|H].
      + apply Hin in H as [H|H]; [tauto|].
        do 4 right. rewrite Forall_forall in Hip. apply Hip, H.
      + destruct H as [<-|H]; [tauto|].
        do 4 right. rewrite Forall_forall in Hfp. apply Hfp, H. }
  split; [|split].
  - intros H. apply Hchars in H.
    destruct H as [H|[H|[H|[H|H]]]]; discriminate.
  - intros H. apply Hchars in H.
    destruct H as [H|[H|[H|[H|H]]]]; discriminate.
  - rewrite !replace1_app, Hrep.
    rewrite (replace1_none 44 (sign_text false (sign_bit x)))
      by (intros H; apply in_sign_text in H as [H|H]; discriminate).
    rewrite (replace1_none 44 [46])
      by (intros [H|[]]; discriminate).
    rewrite (replace1_none 44 (decimal_fixed 2 _))
      by (apply digits_avoid; [exact Hfp | reflexivity]).
    change ([46] ++ decimal_fixed 2 (cents x mod 100))
      with (46 :: decimal_fixed 2 (cents x mod 100)).
    rewrite float_of_str_decimal by assumption.
    rewrite digits_value_app, Hiv, Hfv, Hfl.
    unfold shown_amount. rewrite Hx.
    change (10 ^ N.of_nat 2) with 100.
    rewrite N.Div0.mod_mod, N.mul_comm, <- N.div_mod by discriminate.
    reflexivity.
Qed.

Lemma read_amount_money_cell (color : str) (x : float) :
  ~ In 36 color ->
  read_amount (money_cell color x) = Ok (shown_amount x).
Proof.
  intros Hc. unfold read_amount, money_cell.
  destruct (is_finite x) eqn:Hx.
  - destruct (amount_finite x Hx) as (H36 & H27 & Hf).
    rewrite amount_text_cell by assumption. exact Hf.
  - destruct x as [s|s| |s m e]; try discriminate.
    + rewrite amount_text_cell;
        try assumption; try (apply not_In_b; destruct s; reflexivity).
      destruct s; reflexivity.
    + rewrite amount_text_cell;
        try assumption; try (apply not_In_b; reflexivity).
      reflexivity.
Qed.

End ReadFacts.

Lemma read_amount_inv (cell : str) (v : float) :
  read_amount cell = Ok v ->
  exists text, amount_text cell = Ok text /\ float_of_str text = Ok v.
Proof.
  unfold read_amount. destruct (amount_text cell) as [text|e]; simpl.
  - intros H. exists text. split; [reflexivity | exact H].
  - discriminate.
Qed.

Lemma colors_without_dollar :
  ~ In 36 Fore.YELLOW /\ ~ In 36 Fore.CYAN /\ ~ In 36 Fore.WHITE.
Proof. repeat split; apply ReadFacts.not_In_b; reflexivity. Qed.

Section SummaryFacts.
Variable upper_hi : N -> list N.

(** A summary row put alone through [print_backtest_results] is read as
    the summary, with each amount read back as the number its cell
    shows. *)
Lemma summary_row_shown (a : row_args) (r : row) :
  a.(is_summary) = true -> format_backtest_row upper_hi a = Ok r ->
  exists view,
    print_backtest_results [r] a.(language) = Ok (Some view, [])
    /\ view.(shown_cash) = shown_amount (or0 a.(cash_balance))
    /\ view.(shown_position)
       = shown_amount (or0 a.(total_position_value))
    /\ view.(shown_total) = shown_amount (or0 a.(total_value)).
Proof.
  intros Hs Hr.
  pose proof (summary_row_classified upper_hi a r Hs Hr) as Hclass.
  pose proof (summary_row_cells upper_hi a r Hs Hr) as Hcells.
  destruct colors_without_dollar as (Hy & Hc & Hw).
  destruct (read_amount_inv _ _
              (ReadFacts.read_amount_money_cell Fore.YELLOW
                 (or0 a.(total_position_value)) Hy)) as (tp & Hp1 & Hp2).
  destruct (read_amount_inv _ _
              (ReadFacts.read_amount_money_cell Fore.CYAN
                 (or0 a.(cash_balance)) Hc)) as (tc & Hc1 & Hc2).
  destruct (read_amount_inv _ _
              (ReadFacts.read_amount_money_cell Fore.WHITE
                 (or0 a.(total_value)) Hw)) as (tt & Ht1 & Ht2).
  assert (Hread : exists view,
    read_summary r = Ok view
    /\ view.(shown_cash) = shown_amount (or0 a.(cash_balance))
    /\ view.(shown_position) = shown_amount (or0 a.(total_position_value))
    /\ view.(shown_total) = shown_amount (or0 a.(total_value))).
  { rewrite Hcells. unfold read_summary.
    cbn [item nth_error bind].
    rewrite Hp1. cbn [bind]. rewrite Hc1. cbn [bind].
    rewrite Ht1. cbn [bind]. rewrite Hc2. cbn [bind].
    rewrite Hp2. cbn [bind]. rewrite Ht2. cbn [bind].
    eexists. split; [reflexivity|]. repeat split. }
  destruct Hread as (view & Hview & H1 & H2 & H3).
  exists view. split; [|auto].
  unfold print_backtest_results.
  rewrite summary_heading_text. cbn [bind].
  rewrite Hclass. cbn [bind].
  assert (H0 : item r 0 = Ok a.(date)) by (rewrite Hcells; reflexivity).
  rewrite H0. cbn [bind max_by_date]. rewrite Hview. reflexivity.
Qed.

(** C1. With the heading of the row's own language: a row built in
    summary mode is sorted into the summary rows and read as the summary
    by [print_backtest_results]; a row built in per-trade mode whose
    ticker does not contain the heading is sorted into the ticker rows
    and shown in the grid; and whether a row is a summary row is the
    substring test on its second cell and nothing else. *)
Theorem summary_rows_by_heading (a : row_args) :
  exists heading,
    translate_text summary_heading_key a.(language)
                   (Some summary_heading_fallback) [] = Ok heading
    /\ (a.(is_summary) = true ->
        exists r view,
          format_backtest_row upper_hi a = Ok r
          /\ classify_rows heading [r] = Ok ([], [r])
          /\ print_backtest_results [r] a.(language) = Ok (Some view, []))
    /\ (a.(is_summary) = false ->
        contains heading a.(ticker) = false ->
        exists r,
          format_backtest_row upper_hi a = Ok r
          /\ classify_rows heading [r] = Ok ([r], [])
          /\ print_backtest_results [r] a.(language) = Ok (None, [r]))
    /\ (forall r second, nth_error r 1 = Some second ->
          is_summary_row heading r = Ok (contains heading second))
    /\ (forall r1 r2, nth_error r1 1 = nth_error r2 1 ->
          is_summary_row heading r1 = is_summary_row heading r2).
Proof.
  exists (heading_text a.(language)).
  split; [apply summary_heading_text|].
  split; [|split; [|split]].
  - intros Hs. destruct (summary_row_exists upper_hi a Hs) as [r Hr].
    destruct (summary_row_shown a r Hs Hr) as (view & Hv & _).
    exists r, view. split; [exact Hr|]. split; [|exact Hv].
    apply (summary_row_classified upper_hi); assumption.
  - intros Hs Hno. apply trade_row_shown; assumption.
  - intros r second H. apply is_summary_row_cell, H.
  - intros r1 r2 H. unfold is_summary_row, item. rewrite H. reflexivity.
Qed.

(** C2, as the code has it.  The cash cell of [1234567.89] is the colour,
    [$1,234,567.89] and the reset marker, and [1234567.89] is read back
    from it exactly.  In general a summary row put alone through
    [print_backtest_results] is read as a summary, and each of the cash,
    position-value and total-value figures read back is the double
    nearest to the formatted value rounded to two decimals: the value
    itself when it is such a double, as [1234567.89] is. *)
Theorem summary_amounts_read_back (a : row_args) :
  a.(is_summary) = true ->
  (exists r view,
     format_backtest_row upper_hi a = Ok r
     /\ print_backtest_results [r] a.(language) = Ok (Some view, [])
     /\ view.(shown_cash) = shown_amount (or0 a.(cash_balance))
     /\ view.(shown_position)
        = shown_amount (or0 a.(total_position_value))
     /\ view.(shown_total) = shown_amount (or0 a.(total_value)))
  /\ money_cell Fore.CYAN f_1234567_89
     = Fore.CYAN ++ u "$1,234,567.89" ++ Style.RESET_ALL
  /\ read_amount (money_cell Fore.CYAN f_1234567_89) = Ok f_1234567_89
  /\ shown_amount f_1234567_89 = f_1234567_89.
Proof.
  intros Hs. split; [|repeat split; vm_compute; reflexivity].
  destruct (summary_row_exists upper_hi a Hs) as [r Hr].
  destruct (summary_row_shown a r Hs Hr) as (view & Hv).
  exists r, view. split; [exact Hr | exact Hv].
Qed.
End SummaryFacts.

(** C2 as stated fails: a cash balance of [0.125] is shown as [$0.12], and
    what [print_backtest_results] reads back is the double [0.12], not the
    original value. *)
Lemma eighth_not_read_back :
  (r <- format_backtest_row (fun c => [c]) (summary_args (Some f_0_125) EN) ;;
   out <- print_backtest_results [r] EN ;;
   Ok (nth_error r 8, option_map shown_cash (fst out)))
  = Ok (Some (Fore.CYAN ++ u "$0.12" ++ Style.RESET_ALL),
        Some (of_decimal false 12 2))
  /\ of_decimal false 12 2 <> f_0_125.
Proof. split; [vm_compute; reflexivity | vm_compute; discriminate]. Qed.

(** * Further properties of language.py *)

Lemma truthy_join (joiner p : str) (ps : list str) :
  Py.truthy p = true -> Py.truthy (join joiner (p :: ps)) = true.
Proof.
  intros Hp. destruct p as [|c p]; [discriminate|].
  destruct ps; reflexivity.
Qed.

(** X1. [combine_translations] never loses the text: when one of the two
    texts is not empty the result is not empty, in every language and with
    every joiner. *)
Theorem combine_keeps_text (zh_text en_text : str) (language : Language)
    (joiner : str) :
  Py.truthy zh_text || Py.truthy en_text = true ->
  Py.truthy (combine_translations zh_text en_text language joiner) = true.
Proof.
  intros H. destruct language; simpl.
  - unfold or_. destruct (Py.truthy zh_text) eqn:E; [exact E | exact H].
  - unfold or_. destruct (Py.truthy en_text) eqn:E; [exact E|].
    rewrite orb_false_r in H. exact H.
  - destruct (strip zh_text) as [|z zs].
    + destruct (strip en_text) as [|e es]; simpl.
      * unfold or_. destruct (Py.truthy en_text) eqn:E; [exact E|].
        rewrite orb_false_r in H. exact H.
      * reflexivity.
    + simpl. destruct (Py.truthy (strip en_text) && _); reflexivity.
Qed.

(** The text [combine_translations] gives when both texts are [t]. *)
Lemma combine_same (t : str) (language : Language) :
  combine_translations t t language default_joiner =
    match language with
    | BOTH => if Py.truthy (strip t) then strip t else t
    | _ => t
    end.
Proof.
  destruct language; simpl.
  - unfold or_. destruct (Py.truthy t); reflexivity.
  - unfold or_. destruct (Py.truthy t); reflexivity.
  - destruct (strip t) as [|c s] eqn:E.
    + unfold or_. destruct (Py.truthy t); reflexivity.
    + simpl. rewrite N.eqb_refl, eqb_refl. reflexivity.
Qed.

(** X2. For a key that is not in the table the fallback is returned as
    it is in [ZH] and [EN] mode, braces included: it is never formatted and
    the substitutions are ignored.  In [BOTH] mode it is returned with its
    leading and trailing blanks stripped, unless it is all blanks. *)
Theorem translate_text_absent_value key language fallback kwargs :
  Format.get key TRANSLATIONS = None ->
  translate_text key language fallback kwargs =
    Ok match language with
       | BOTH => if Py.truthy (strip (or_empty fallback))
                 then strip (or_empty fallback) else or_empty fallback
       | _ => or_empty fallback
       end.
Proof.
  intros Hg. unfold translate_text, translate_text_in. rewrite Hg.
  rewrite combine_same. reflexivity.
Qed.

Lemma translate_text_ok_when_supplied
    key translations language fallback kwargs :
  Format.get key TRANSLATIONS = Some translations ->
  (forall name,
     In name (Format.fields
                (get_default (u "zh") translations (or_empty fallback))) ->
     Format.get name kwargs <> None) ->
  exists text, translate_text key language fallback kwargs = Ok text.
Proof.
  intros Hg Hall.
  destruct (TRANSLATIONS_entry _ _ Hg) as (z & e & Hz & He & Pz & Pe & Hsame).
  unfold translate_text.
  rewrite (translate_text_in_found _ _ _ _ _ _ Hg) by (intros ->; discriminate).
  unfold get_default in *. rewrite Hz, He in *.
  destruct (FormatFacts.format_plain_ok z kwargs Pz Hall) as [sz ->].
  destruct (FormatFacts.format_plain_ok e kwargs Pe) as [se ->].
  { intros n Hn. apply Hall, Hsame, Hn. }
  eexists. reflexivity.
Qed.

(** X3. For a key of the table, supplying every field that its [zh]
    template names is enough: [translate_text] then returns a text, in
    every language and whatever the fallback. *)
Theorem translate_text_supplied key translations language fallback kwargs :
  Format.get key TRANSLATIONS = Some translations ->
  (forall name,
     In name (Format.fields
                (get_default (u "zh") translations (or_empty fallback))) ->
     Format.get name kwargs <> None) ->
  exists text, translate_text key language fallback kwargs = Ok text.
Proof. apply translate_text_ok_when_supplied. Qed.

(** X4. For a key of the table the fallback plays no part: two calls
    that differ only in the fallback give the same result. *)
Theorem translate_text_ignores_fallback
    key translations language fallback1 fallback2 kwargs :
  Format.get key TRANSLATIONS = Some translations ->
  translate_text key language fallback1 kwargs
  = translate_text key language fallback2 kwargs.
Proof.
  intros Hg.
  destruct (TRANSLATIONS_entry _ _ Hg) as (z & e & Hz & He & _).
  unfold translate_text.
  rewrite !(translate_text_in_found _ _ _ _ _ _ Hg)
    by (intros ->; discriminate).
  unfold get_default. rewrite Hz, He. reflexivity.
Qed.

(** X5. The language stored in metadata reads back as itself:
    [Language.from_value(language_to_metadata(l))] is [l], and so does its
    upper-case spelling. *)
Theorem from_value_of_metadata (lower_hi : N -> list N) (l : Language) :
  from_value lower_hi (Some (language_to_metadata l)) = l
  /\ from_value lower_hi
       (Some (upper (fun c => [c]) (language_to_metadata l))) = l.
Proof. destruct l; split; reflexivity. Qed.

(** * Further properties of the vocabulary translations *)

Lemma get_key_In {V} (key : str) (d : list (str * V)) (v : V) :
  Format.get key d = Some v -> In (key, v) d.
Proof.
  induction d as [|[k x] d IH]; simpl; [discriminate|].
  destruct (eqb key k) eqn:E.
  - apply eqb_eq in E. subst k. intros H. inversion H. left. reflexivity.
  - intros H. right. apply IH, H.
Qed.

(** The texts [combine_translations] gives for a clean pair. *)
Lemma combine_clean (zh en : str) (language : Language) :
  clean_entry (en, zh) = true ->
  combine_translations zh en language default_joiner =
    match language with
    | ZH => zh
    | EN => en
    | BOTH => zh ++ u " / " ++ en
    end.
Proof.
  unfold clean_entry. cbn [fst snd].
  rewrite !andb_true_iff, !eqb_eq, negb_true_iff.
  intros [[[[He Hz] Hse] Hsz] Hne].
  destruct language; cbn [combine_translations].
  - unfold or_. rewrite Hz. reflexivity.
  - unfold or_. rewrite He. reflexivity.
  - rewrite Hse, Hsz, Hz, He, Hne. cbn [negb andb app].
    destruct zh; [discriminate|]. reflexivity.
Qed.

Lemma STATUS_TRANSLATIONS_clean :
  forallb clean_entry STATUS_TRANSLATIONS = true.
Proof. vm_compute. reflexivity. Qed.

(** X17. [translate_status]: a status of the table is shown as its
    Chinese phrase in [ZH], as itself in [EN] and as the phrase, [" / "]
    and itself in [BOTH]; a status that is not in the table is returned as
    it is in [ZH] and [EN], and stripped of the blanks around it in
    [BOTH] (as it is when it is all blanks). *)
Theorem translate_status_cases (status : str) (language : Language) :
  (forall zh, Format.get status STATUS_TRANSLATIONS = Some zh ->
     translate_status status language =
       match language with
       | ZH => zh
       | EN => status
       | BOTH => zh ++ u " / " ++ status
       end)
  /\ (Format.get status STATUS_TRANSLATIONS = None ->
      translate_status status language =
        match language with
        | BOTH => if Py.truthy (strip status) then strip status else status
        | _ => status
        end).
Proof.
  split.
  - intros zh Hg. pose proof (get_key_In _ _ _ Hg) as Hin.
    pose proof STATUS_TRANSLATIONS_clean as Hc.
    rewrite forallb_forall in Hc. apply Hc in Hin.
    unfold translate_status, get_default. rewrite Hg.
    destruct language; try reflexivity.
    apply (combine_clean zh status BOTH Hin).
  - intros Hg. unfold translate_status, get_default. rewrite Hg.
    destruct language; try reflexivity.
    apply (combine_same status BOTH).
Qed.

Lemma vocabulary_cases (table : list (str * str)) (word : str)
    (language : Language) :
  forallb clean_entry table = true ->
  (forall zh, Format.get word table = Some zh ->
     combine_translations (get_default word table word) word language
                          default_joiner =
       match language with
       | ZH => zh
       | EN => word
       | BOTH => zh ++ u " / " ++ word
       end)
  /\ (Format.get word table = None ->
      combine_translations (get_default word table word) word language
                           default_joiner =
        match language with
        | BOTH => if Py.truthy (strip word) then strip word else word
        | _ => word
        end).
Proof.
  intros Hc. split.
  - intros zh Hg. pose proof (get_key_In _ _ _ Hg) as Hin.
    rewrite forallb_forall in Hc. apply Hc in Hin.
    unfold get_default. rewrite Hg. apply (combine_clean zh word _ Hin).
  - intros Hg. unfold get_default. rewrite Hg. apply combine_same.
Qed.

(** X18. [translate_action] and [translate_signal] work on the
    upper-cased word: a word of the table is shown as its Chinese word in
    [ZH], upper-cased in [EN] and as both, joined by [" / "], in [BOTH];
    any other word comes back upper-cased (and, in [BOTH], stripped of the
    blanks around it). *)
Theorem translate_action_signal_cases (upper_hi : N -> list N)
    (word : str) (language : Language) :
  let upper_word := upper upper_hi word in
  let known zh :=
    match language with
    | ZH => zh
    | EN => upper_word
    | BOTH => zh ++ u " / " ++ upper_word
    end in
  let unknown :=
    match language with
    | BOTH => if Py.truthy (strip upper_word) then strip upper_word
              else upper_word
    | _ => upper_word
    end in
  (forall zh, Format.get upper_word ACTION_TRANSLATIONS = Some zh ->
              translate_action upper_hi word language = known zh)
  /\ (Format.get upper_word ACTION_TRANSLATIONS = None ->
      translate_action upper_hi word language = unknown)
  /\ (forall zh, Format.get upper_word SIGNAL_TRANSLATIONS = Some zh ->
                 translate_signal upper_hi word language = known zh)
  /\ (Format.get upper_word SIGNAL_TRANSLATIONS = None ->
      translate_signal upper_hi word language = unknown).
Proof.
  cbv zeta.
  destruct (vocabulary_cases ACTION_TRANSLATIONS (upper upper_hi word)
              language eq_refl) as [Ha1 Ha2].
  destruct (vocabulary_cases SIGNAL_TRANSLATIONS (upper upper_hi word)
              language eq_refl) as [Hs1 Hs2].
  repeat split; assumption.
Qed.


(** * Further properties of the wrapping loop *)

(** X6. Wrapping keeps the words: splitting the wrapped text gives the
    words of the input, none dropped, cut, merged or moved. *)
Theorem wrap_keeps_words (t : str) : split (wrap t) = split t.
Proof. unfold wrap. apply split_wrap_words, split_words. Qed.

Lemma join_space (w : str) (ws : list str) :
  join (u " ") (w :: ws) = w ++ spaced ws.
Proof.
  revert w. induction ws as [|x ws IH]; intros w.
  - simpl. rewrite app_nil_r. reflexivity.
  - change (join (u " ") (w :: x :: ws))
      with (w ++ u " " ++ join (u " ") (x :: ws)).
    rewrite IH. reflexivity.
Qed.

Lemma wrap_loop_short (ws : list str) :
  forall C, C <> [] ->
    (List.length (C ++ spaced ws) <= 60)%nat ->
    fold_left wrap_step ws ([], C)
    = ([], C ++ spaced ws).
Proof.
  induction ws as [|w ws IH]; intros C Hne Hlen.
  - simpl. rewrite app_nil_r. reflexivity.
  - unfold spaced in *. cbn [fold_left map List.concat] in *.
    fold (spaced ws) in *.
    unfold wrap_step at 2.
    replace (Nat.ltb max_line_length (List.length C + List.length w + 1))
      with false.
    + destruct C as [|c C]; [contradiction|]. cbn [Py.truthy].
      rewrite IH.
      * rewrite <- !app_assoc. reflexivity.
      * discriminate.
      * rewrite <- !app_assoc. exact Hlen.
    + symmetry. apply Nat.ltb_ge. unfold max_line_length.
      rewrite !length_app in Hlen. simpl in Hlen. lia.
Qed.

(** X7. A text whose words, joined by single blanks, take fewer than
    sixty code points is put on one line: the wrapped text is those words
    joined by single blanks. *)
Theorem wrap_short_text (t : str) :
  (List.length (join (u " ") (split t)) < 60)%nat ->
  wrap t = join (u " ") (split t).
Proof.
  unfold wrap, wrap_words. destruct (split t) as [|w ws] eqn:E.
  - reflexivity.
  - intros Hlen. rewrite join_space in *.
    assert (Hw : w <> []).
    { pose proof (split_words t) as H. rewrite E in H.
      inversion H as [|? ? [Hne _] _]. exact Hne. }
    cbn [fold_left]. unfold wrap_step at 2. cbn [List.length Py.truthy].
    replace (Nat.ltb max_line_length (0 + List.length w + 1)) with false.
    + rewrite wrap_loop_short; [| exact Hw | lia].
      unfold wrap_finish. destruct w; [contradiction | reflexivity].
    + symmetry. apply Nat.ltb_ge. unfold max_line_length.
      rewrite length_app in Hlen. lia.
Qed.

Lemma first_word_app_blank (C w : str) :
  split C <> [] -> first_word (C ++ 32 :: w) = first_word C.
Proof.
  intros H. unfold first_word.
  rewrite split_sep by reflexivity.
  destruct (split C); [contradiction | reflexivity].
Qed.

Lemma first_word_word (w : str) : is_word w -> first_word w = w.
Proof. intros H. unfold first_word. rewrite split_word by exact H. reflexivity. Qed.

(** The lines the loop adds from a state whose current line [C] holds at
    least one word: the flushed lines [new] and the last current line. *)
Lemma wrap_loop_layout (ws : list str) :
  Forall is_word ws ->
  forall W C, split C <> [] -> no_break C ->
    exists new C',
      fold_left wrap_step ws (W, C)
      = (W ++ List.concat (map (fun l => l ++ NL) new), C')
      /\ Forall (fun l => l <> [] /\ no_break l) (new ++ [C'])
      /\ all_adjacent did_not_fit (new ++ [C'])
      /\ first_word (hd C' (new ++ [C'])) = first_word C.
Proof.
  induction 1 as [|w ws Hw _ IH]; intros W C HC Hnb.
  - exists [], C. simpl. rewrite app_nil_r.
    repeat split; auto. constructor; [|constructor].
    split; [intros ->; apply HC; reflexivity | exact Hnb].
  - cbn [fold_left]. unfold wrap_step at 2.
    assert (HCne : C <> []) by (intros ->; apply HC; reflexivity).
    destruct (Nat.ltb _ _) eqn:Hlt.
    + destruct (IH (W ++ C ++ NL) w) as (new & C' & E & Hall & Hadj & Hfw).
      { rewrite split_word by exact Hw. discriminate. }
      { apply word_no_break, Hw. }
      exists (C :: new), C'. repeat split.
      * etransitivity; [exact E|].
        cbn [map List.concat]. rewrite <- !app_assoc. reflexivity.
      * constructor; [split; assumption | exact Hall].
      * change ((C :: new) ++ [C']) with (C :: (new ++ [C'])).
        destruct (new ++ [C']) as [|b rest] eqn:En.
        { destruct new; discriminate. }
        cbn [all_adjacent]. split; [|exact Hadj].
        unfold did_not_fit. simpl in Hfw. rewrite Hfw.
        rewrite first_word_word by exact Hw.
        apply Nat.ltb_lt in Hlt. exact Hlt.
    + destruct C as [|c C]; [contradiction|]. cbn [Py.truthy].
      change ((c :: C) ++ u " " ++ w) with ((c :: C) ++ 32 :: w).
      destruct (IH W ((c :: C) ++ 32 :: w)) as (new & C' & E & Hall & Hadj & Hfw).
      { rewrite split_sep by reflexivity. destruct (split (c :: C));
          [contradiction | discriminate]. }
      { apply Forall_app. split; [exact Hnb|].
        constructor; [discriminate | apply word_no_break, Hw]. }
      exists new, C'. repeat split; auto.
      rewrite Hfw. apply first_word_app_blank, HC.
Qed.

Lemma lines_finish (pre new : list str) (C' : str) (st : str * str) :
  st = (List.concat (map (fun l => l ++ NL) pre)
        ++ List.concat (map (fun l => l ++ NL) new), C') ->
  C' <> [] -> Forall no_break pre -> Forall no_break new -> no_break C' ->
  lines (wrap_finish st) = pre ++ new ++ [C'].
Proof.
  intros -> Hne Hp Hn Hc. unfold wrap_finish.
  destruct C' as [|c C']; [contradiction|]. cbn [Py.truthy].
  rewrite <- List.concat_app, <- map_app, app_assoc.
  apply lines_flushed; [apply Forall_app; split; assumption | exact Hc].
Qed.

(** The lines of a wrapped text that has at least one word. *)
Lemma wrap_lines_layout (t w : str) (ws : list str) :
  split t = w :: ws ->
  exists pre new C',
    lines (wrap t) = pre ++ new ++ [C']
    /\ ((pre = [[]] /\ (60 <= List.length w)%nat)
        \/ (pre = [] /\ (List.length w < 60)%nat))
    /\ Forall (fun l => l <> []) (new ++ [C'])
    /\ all_adjacent did_not_fit (pre ++ new ++ [C']).
Proof.
  intros E. pose proof (split_words t) as Hws. rewrite E in Hws.
  inversion Hws as [|? ? Hw Hws']; subst.
  unfold wrap, wrap_words. rewrite E. cbn [fold_left].
  unfold wrap_step at 2. cbn [List.length Py.truthy].
  assert (Hlay : forall W,
    exists new C',
      fold_left wrap_step ws (W, w)
      = (W ++ List.concat (map (fun l => l ++ NL) new), C')
      /\ Forall (fun l => l <> [] /\ no_break l) (new ++ [C'])
      /\ all_adjacent did_not_fit (new ++ [C'])
      /\ first_word (hd C' (new ++ [C'])) = w).
  { intros W. destruct (wrap_loop_layout ws Hws' W w)
      as (new & C' & H1 & H2 & H3 & H4).
    - rewrite split_word by exact Hw. discriminate.
    - apply word_no_break, Hw.
    - exists new, C'. rewrite (first_word_word w Hw) in H4. auto. }
  assert (Hsplit : forall (new : list str) (C' : str),
    Forall (fun l => l <> [] /\ no_break l) (new ++ [C']) ->
    Forall no_break new /\ no_break C' /\ C' <> []
    /\ Forall (fun l => l <> []) (new ++ [C'])).
  { intros new C' H. apply Forall_app in H as H'. destruct H' as [Hn Hc].
    inversion Hc as [|? ? [Hc1 Hc2] _]; subst.
    repeat split; auto.
    - eapply Forall_impl; [|exact Hn]. intros ? [_ ?]; assumption.
    - eapply Forall_impl; [|exact H]. intros ? [? _]; assumption. }
  destruct (Nat.ltb max_line_length (0 + List.length w + 1)) eqn:Hlt.
  - destruct (Hlay ([] ++ [] ++ NL)) as (new & C' & H1 & H2 & H3 & H4).
    destruct (Hsplit new C' H2) as (Hn & Hc & Hcne & Hne).
    exists [[]], new, C'. repeat split.
    + apply (lines_finish [[]] new C' _ H1); auto.
      constructor; constructor.
    + left. split; [reflexivity|]. apply Nat.ltb_lt in Hlt.
      unfold max_line_length in Hlt. lia.
    + exact Hne.
    + change ([[]] ++ new ++ [C']) with ([] :: (new ++ [C'])).
      destruct (new ++ [C']) as [|b rest] eqn:En.
      { destruct new; discriminate. }
      cbn [all_adjacent]. split; [|exact H3].
      unfold did_not_fit. simpl in H4. rewrite H4.
      apply Nat.ltb_lt in Hlt. exact Hlt.
  - destruct (Hlay []) as (new & C' & H1 & H2 & H3 & H4).
    destruct (Hsplit new C' H2) as (Hn & Hc & Hcne & Hne).
    exists [], new, C'. repeat split.
    + apply (lines_finish [] new C' _ H1); auto.
    + right. split; [reflexivity|]. apply Nat.ltb_ge in Hlt.
      unfold max_line_length in Hlt. lia.
    + exact Hne.
    + exact H3.
Qed.

(** X8. The only empty line the wrap can give is the first one: every
    later line holds a word.  The first line is empty exactly when the text
    has no word at all or its first word has sixty code points or more. *)
Theorem wrap_empty_line_only_first (t : str) :
  Forall (fun l => l <> []) (tl (lines (wrap t)))
  /\ (hd [] (lines (wrap t)) = [] <->
      match split t with
      | [] => True
      | w :: _ => (60 <= List.length w)%nat
      end).
Proof.
  destruct (split t) as [|w ws] eqn:E.
  - unfold wrap. rewrite E. simpl. split; [constructor | tauto].
  - destruct (wrap_lines_layout t w ws E)
      as (pre & new & C' & Hl & Hpre & Hne & _).
    rewrite Hl. destruct Hpre as [[-> Hw]|[-> Hw]].
    + simpl. split; [exact Hne | tauto].
    + simpl. split.
      * destruct (new ++ [C']) as [|b rest]; [constructor|].
        inversion Hne; assumption.
      * destruct (new ++ [C']) as [|b rest] eqn:En.
        { destruct new; discriminate. }
        inversion Hne; subst. simpl. split; [contradiction | lia].
Qed.

Lemma all_adjacent_at (R : str -> str -> Prop) (before : list str) :
  forall a b after,
    all_adjacent R (before ++ a :: b :: after) -> R a b.
Proof.
  induction before as [|x before IH]; intros a b after H.
  - destruct H as [H _]. exact H.
  - change ((x :: before) ++ a :: b :: after)
      with (x :: (before ++ a :: b :: after)) in H.
    destruct (before ++ a :: b :: after) as [|y rest] eqn:E.
    { destruct before; discriminate. }
    destruct H as [_ H]. rewrite <- E in H. apply (IH _ _ _ H).
Qed.

(** X9. Lines are filled greedily: for every two adjacent lines of the
    wrapped text, the first line, a blank and the first word of the second
    line together take more than sixty code points. *)
Theorem wrap_lines_greedy (t : str) (before : list str) (a b : str)
    (after : list str) :
  lines (wrap t) = before ++ a :: b :: after ->
  (60 < List.length a + List.length (first_word b) + 1)%nat.
Proof.
  intros Hl. destruct (split t) as [|w ws] eqn:E.
  - unfold wrap in Hl. rewrite E in Hl. simpl in Hl.
    destruct before as [|x [|y before]]; discriminate.
  - destruct (wrap_lines_layout t w ws E)
      as (pre & new & C' & Hl' & _ & _ & Hadj).
    rewrite <- Hl', Hl in Hadj.
    apply (all_adjacent_at did_not_fit before a b after Hadj).
Qed.

Lemma wrap_loop_last (ws : list str) (w : str) (st : str * str) :
  exists pre, snd (fold_left wrap_step (ws ++ [w]) st) = pre ++ w.
Proof.
  rewrite fold_left_app. cbn [fold_left].
  destruct (fold_left wrap_step ws st) as [W C]. unfold wrap_step.
  destruct (Nat.ltb _ _); [exists []; reflexivity|].
  destruct (Py.truthy C).
  - exists (C ++ u " "). rewrite <- app_assoc. reflexivity.
  - exists []. reflexivity.
Qed.

(** X10. A text without a word wraps to the empty text.  Otherwise the
    wrapped text ends with the last word of the input: no blank and no line
    break follows it. *)
Theorem wrap_ends_with_last_word (t : str) :
  (split t = [] -> wrap t = [])
  /\ (forall ws w, split t = ws ++ [w] -> exists pre, wrap t = pre ++ w).
Proof.
  split.
  - intros E. unfold wrap. rewrite E. reflexivity.
  - intros ws w E. unfold wrap, wrap_words. rewrite E.
    destruct (wrap_loop_last ws w ([], [])) as [pre Hpre].
    destruct (fold_left wrap_step (ws ++ [w]) ([], [])) as [W C].
    simpl in Hpre. subst C. unfold wrap_finish.
    destruct (Py.truthy (pre ++ w)) eqn:Ht.
    + exists (W ++ pre). rewrite <- app_assoc. reflexivity.
    + assert (Hw : is_word w).
      { pose proof (split_words t) as H. rewrite E in H.
        apply Forall_app in H as [_ H]. inversion H; assumption. }
      destruct Hw as [Hne _]. destruct pre; destruct w; try discriminate.
      contradiction.
Qed.

(** * Further properties of the backtest table *)

(** X11. The loop of [print_backtest_results] sorts the rows into the
    two lists without reordering them: the ticker rows are the rows whose
    second cell does not contain the heading, the summary rows those whose
    second cell does, each in table order.  A row with fewer than two
    cells makes it raise [IndexError]. *)
Theorem classify_rows_partition (heading : str) (table_rows : list row) :
  (Forall (fun r => (2 <= List.length r)%nat) table_rows ->
   classify_rows heading table_rows =
     Ok (filter (fun r => negb (has_heading heading r)) table_rows,
         filter (has_heading heading) table_rows))
  /\ (Exists (fun r => (List.length r < 2)%nat) table_rows ->
      classify_rows heading table_rows = Raise IndexError).
Proof.
  split.
  - induction 1 as [|r rows Hr _ IH]; [reflexivity|].
    cbn [classify_rows filter]. unfold is_summary_row, item, has_heading.
    destruct (nth_error r 1) as [c|] eqn:E.
    + cbn [bind]. rewrite IH. cbn [bind].
      destruct (contains heading c); reflexivity.
    + apply nth_error_None in E. lia.
  - induction table_rows as [|r rows IH]; intros H.
    + inversion H.
    + cbn [classify_rows]. unfold is_summary_row, item.
      destruct (nth_error r 1) as [c|] eqn:E; [|reflexivity].
      cbn [bind]. inversion H as [? ? Hr|? ? Hr]; subst.
      * assert (nth_error r 1 <> None) by congruence.
        apply nth_error_Some in H0. lia.
      * rewrite (IH Hr). reflexivity.
Qed.

(** ** The order of dates *)

Lemma ltb_irrefl (a : str) : ltb a a = false.
Proof.
  induction a as [|x a IH]; [reflexivity|].
  simpl. rewrite N.ltb_irrefl, N.eqb_refl, IH. reflexivity.
Qed.

Lemma ltb_trans (a b c : str) :
  ltb a b = true -> ltb b c = true -> ltb a c = true.
Proof.
  revert b c. induction a as [|x a IH]; intros [|y b] [|z c]; simpl;
    try discriminate; try reflexivity.
  rewrite !orb_true_iff, !andb_true_iff, !N.ltb_lt, !N.eqb_eq.
  intros [H1|[H1 H1']] [H2|[H2 H2']].
  - left. lia.
  - left. lia.
  - left. lia.
  - right. split; [lia|]. eapply IH; eassumption.
Qed.

Lemma ltb_total (a b : str) :
  ltb a b = false -> ltb b a = true \/ a = b.
Proof.
  revert b. induction a as [|x a IH]; intros [|y b]; simpl; auto;
    try discriminate.
  rewrite orb_false_iff, andb_false_iff, N.ltb_ge.
  intros [H1 H2].
  destruct (N.eq_dec x y) as [->|Hxy].
  - rewrite N.eqb_refl in *. destruct H2 as [H2|H2]; [discriminate|].
    destruct (IH _ H2) as [H | ->].
    + left. rewrite H. apply orb_true_r.
    + right. reflexivity.
  - left. apply orb_true_iff. left. apply N.ltb_lt. lia.
Qed.

Lemma ltb_le_lt (a b c : str) :
  ltb b a = false -> ltb b c = true -> ltb a c = true.
Proof.
  intros H1 H2. destruct (ltb_total _ _ H1) as [H | <-]; [|exact H2].
  eapply ltb_trans; eassumption.
Qed.

Lemma ltb_asym (a b : str) : ltb a b = true -> ltb b a = false.
Proof.
  intros H. destruct (ltb b a) eqn:E; [|reflexivity].
  pose proof (ltb_trans _ _ _ H E) as Hc. rewrite ltb_irrefl in Hc.
  discriminate.
Qed.

(** What [max_by_date] returns: with [best] the best of the rows read so
    far, [pre] the rows before it and [post] those after it. *)
Lemma max_by_date_spec (rows : list row) :
  Forall (fun x => x <> []) rows ->
  forall pre best post,
    Forall (fun x => ltb (date_of x) (date_of best) = true) pre ->
    Forall (fun x => ltb (date_of best) (date_of x) = false) post ->
    exists m before after,
      max_by_date best (date_of best) rows = Ok m
      /\ pre ++ best :: post ++ rows = before ++ m :: after
      /\ Forall (fun x => ltb (date_of x) (date_of m) = true) before
      /\ Forall (fun x => ltb (date_of m) (date_of x) = false) after.
Proof.
  induction 1 as [|r rows Hr _ IH]; intros pre best post Hpre Hpost.
  - exists best, pre, post. rewrite app_nil_r. auto.
  - destruct r as [|k r]; [contradiction|].
    cbn [max_by_date item nth_error bind].
    destruct (ltb (date_of best) k) eqn:Hlt.
    + destruct (IH (pre ++ best :: post) (k :: r) [])
        as (m & before & after & H1 & H2 & H3 & H4).
      * apply Forall_app. split; [|constructor].
        -- eapply Forall_impl; [|exact Hpre].
           intros x Hx. exact (ltb_trans _ _ _ Hx Hlt).
        -- exact Hlt.
        -- eapply Forall_impl; [|exact Hpost].
           intros x Hx. exact (ltb_le_lt _ _ _ Hx Hlt).
      * constructor.
      * exists m, before, after. repeat split; auto.
        rewrite <- H2. rewrite <- !app_assoc. reflexivity.
    + destruct (IH pre best (post ++ [k :: r]))
        as (m & before & after & H1 & H2 & H3 & H4).
      * exact Hpre.
      * apply Forall_app. split; [exact Hpost|].
        constructor; [exact Hlt | constructor].
      * exists m, before, after. repeat split; auto.
        rewrite <- H2. rewrite <- !app_assoc. reflexivity.
Qed.

(** X12. The latest summary is the first row with the greatest date:
    among the summary rows, those before the chosen one have a strictly
    smaller first cell and none after it has a greater one, in the
    code-point order of strings. *)
Theorem latest_summary_greatest (r : row) (rest : list row) :
  Forall (fun x => x <> []) (r :: rest) ->
  exists m before after,
    (k <- item r 0 ;; max_by_date r k rest) = Ok m
    /\ r :: rest = before ++ m :: after
    /\ Forall (fun x => ltb (date_of x) (date_of m) = true) before
    /\ Forall (fun x => ltb (date_of m) (date_of x) = false) after.
Proof.
  intros H. inversion H as [|? ? Hr Hrest]; subst.
  destruct r as [|k r]; [contradiction|]. cbn [item nth_error bind].
  destruct (max_by_date_spec rest Hrest [] (k :: r) [])
    as (m & before & after & H1 & H2 & H3 & H4); try constructor.
  exists m, before, after. auto.
Qed.

(** ** Reading amounts *)

Lemma in_split_first (c : N) (l : str) :
  In c l -> exists p t, l = p ++ c :: t /\ ~ In c p.
Proof.
  induction l as [|x l IH]; intros H; [destruct H|].
  destruct (N.eq_dec x c) as [->|Hx].
  - exists [], l. split; [reflexivity | intros []].
  - destruct H as [H|H]; [contradiction|].
    destruct (IH H) as (p & t & -> & Hp).
    exists (x :: p), t. split; [reflexivity|].
    intros [E|E]; [exact (Hx E) | exact (Hp E)].
Qed.

Lemma split_on_go_nonempty (sep : str) (s : str) :
  forall skip cur, exists x l, split_on_go sep skip cur s = x :: l.
Proof.
  induction s as [|c s IH]; intros skip cur; simpl.
  - eexists; eexists; reflexivity.
  - destruct skip as [|k]; [|apply IH].
    destruct (startswith (c :: s) sep); [eexists; eexists; reflexivity|].
    apply IH.
Qed.

(** X13. Reading an amount needs the dollar sign and nothing else: on a
    cell without [$] the extraction raises [IndexError]; on a cell with
    one it returns a text, reset marker or not. *)
Theorem amount_text_needs_dollar (cell : str) :
  ((exists text, amount_text cell = Ok text) <-> In 36 cell)
  /\ (amount_text cell = Raise IndexError <-> ~ In 36 cell).
Proof.
  assert (Hyes : In 36 cell -> exists text, amount_text cell = Ok text).
  { intros H. destruct (in_split_first 36 cell H) as (p & t & -> & Hp).
    unfold amount_text, split_on. change (u "$") with [36].
    rewrite (ReadFacts.split_on_go_char 36 p t Hp).
    destruct (split_on_go_nonempty [36] t 0 []) as (x & l & ->).
    cbn [item nth_error bind app].
    destruct (split_on_go_nonempty Style.RESET_ALL x 0 []) as (y & l' & ->).
    cbn [item nth_error bind]. eexists. reflexivity. }
  assert (Hno : ~ In 36 cell -> amount_text cell = Raise IndexError).
  { intros H. unfold amount_text, split_on. change (u "$") with [36].
    rewrite (ReadFacts.split_on_go_char_none 36 cell H). reflexivity. }
  split; split.
  - intros [text Ht]. destruct (in_dec N.eq_dec 36 cell) as [Hin|Hin];
      [exact Hin|]. rewrite (Hno Hin) in Ht. discriminate.
  - exact Hyes.
  - intros Hr Hin. destruct (Hyes Hin) as [text Ht]. congruence.
  - exact Hno.
Qed.

(** ** Built rows *)

Section BuiltRows.
Variable upper_hi : N -> list N.

Lemma trade_row_cells (a : row_args) (r : row) :
  a.(is_summary) = false -> format_backtest_row upper_hi a = Ok r ->
  r = [ a.(date);
        Fore.CYAN ++ a.(ticker) ++ Style.RESET_ALL;
        get_default (upper upper_hi a.(action)) (action_colors) Fore.WHITE
          ++ translate_action upper_hi (upper upper_hi a.(action))
               a.(language)
          ++ Style.RESET_ALL;
        get_default (upper upper_hi a.(action)) (action_colors) Fore.WHITE
          ++ format_f false true 0 a.(quantity) ++ Style.RESET_ALL;
        money_cell Fore.WHITE a.(price);
        Fore.GREEN ++ format_f false true 0 a.(long_shares)
          ++ Style.RESET_ALL;
        Fore.RED ++ format_f false true 0 a.(short_shares)
          ++ Style.RESET_ALL;
        money_cell Fore.YELLOW a.(position_value);
        Fore.GREEN ++ format_int a.(bullish_count) ++ Style.RESET_ALL;
        Fore.RED ++ format_int a.(bearish_count) ++ Style.RESET_ALL;
        Fore.BLUE ++ format_int a.(neutral_count) ++ Style.RESET_ALL ].
Proof.
  intros Hs. unfold format_backtest_row. rewrite Hs.
  intros H. inversion H. reflexivity.
Qed.

Lemma format_backtest_row_ok (a : row_args) :
  format_backtest_row upper_hi a = Ok (row_of upper_hi a).
Proof.
  unfold row_of. destruct (is_summary a) eqn:Hs.
  - destruct (summary_row_exists upper_hi a Hs) as [r ->]. reflexivity.
  - unfold format_backtest_row. rewrite Hs. reflexivity.
Qed.

(** X14. [format_backtest_row] never raises.  It gives fourteen cells in
    summary mode and eleven in per-trade mode, the first of them the date
    as passed; in summary mode the action, quantity, price and share
    cells are empty. *)
Theorem format_backtest_row_cells (a : row_args) :
  exists r,
    format_backtest_row upper_hi a = Ok r
    /\ List.length r = (if a.(is_summary) then 14 else 11)%nat
    /\ nth_error r 0 = Some a.(date)
    /\ (a.(is_summary) = true ->
        firstn 5 (skipn 2 r) = [[]; []; []; []; []]).
Proof.
  exists (row_of upper_hi a). split; [apply format_backtest_row_ok|].
  pose proof (format_backtest_row_ok a) as Hr.
  destruct (is_summary a) eqn:Hs.
  - rewrite (summary_row_cells upper_hi a _ Hs Hr). repeat split.
  - rewrite (trade_row_cells a _ Hs Hr).
    repeat split; try discriminate.
Qed.

Lemma format_f_signed (x : float) :
  is_finite x = true ->
  format_f true false 2 x
  = (if sign_bit x then u "-" else u "+")
    ++ format_f false false 2 (SFabs x).
Proof. destruct x as [s|s| |s m e]; try discriminate; destruct s; reflexivity. Qed.

Lemma ge0_sign (x : float) :
  x <> S754_nan -> ge0 (or0 (Some x)) = negb (sign_bit (or0 (Some x))).
Proof.
  destruct x as [s|s| |s m e]; intros H; try contradiction;
    destruct s; reflexivity.
Qed.

(** X15. In a summary row the sign and the colour of the return agree.
    For a finite return the cell is green with a plus sign when the value
    counts as non-negative and red with a minus sign otherwise, followed
    by a two-decimal number and a percent sign; an absent or zero return
    is the green text [+0.00%]. *)
Theorem return_cell_sign_and_colour (a : row_args) (r : row) :
  a.(is_summary) = true -> format_backtest_row upper_hi a = Ok r ->
  (forall x, a.(return_pct) = Some x -> is_finite x = true ->
     exists body,
       nth_error r 10
       = Some ((if sign_bit (or0 (Some x))
                then Fore.RED ++ u "-" else Fore.GREEN ++ u "+")
               ++ body ++ u "%" ++ Style.RESET_ALL)
       /\ two_decimals body = true
       /\ Format.is_digit (hd 0 body) = true)
  /\ (or0 a.(return_pct) = zero ->
      nth_error r 10 = Some (Fore.GREEN ++ u "+0.00%" ++ Style.RESET_ALL)).
Proof.
  intros Hs Hr. rewrite (summary_row_cells upper_hi a r Hs Hr).
  cbn [nth_error]. split.
  - intros x Hx Hfin. rewrite Hx.
    assert (Hfin' : is_finite (or0 (Some x)) = true)
      by (apply FixedFacts.or0_finite, Hfin).
    exists (format_f false false 2 (SFabs (or0 (Some x)))).
    rewrite ge0_sign by (intros ->; discriminate).
    rewrite format_f_signed by exact Hfin'.
    split; [|split].
    + destruct (sign_bit (or0 (Some x))); cbn [negb];
        rewrite <- !app_assoc; reflexivity.
    + apply FixedFacts.two_decimals_finite, FixedFacts.abs_finite, Hfin'.
    + rewrite FixedFacts.format_f_finite
        by (apply FixedFacts.abs_finite, Hfin').
      assert (Hs0 : sign_bit (SFabs (or0 (Some x))) = false).
      { destruct (or0 (Some x)); try discriminate; reflexivity. }
      rewrite Hs0.
      destruct (FixedFacts.decimal_head (cents (SFabs (or0 (Some x))) / 100))
        as (d & ds & E & Hd & _).
      rewrite E. exact Hd.
  - intros Hz. rewrite Hz. reflexivity.
Qed.
End BuiltRows.

Section PrintBuiltRows.
Variable upper_hi : N -> list N.

Lemma build_rows_ok (args : list row_args) :
  build_rows upper_hi args = Ok (map (row_of upper_hi) args).
Proof.
  induction args as [|a args IH]; [reflexivity|].
  cbn [build_rows map]. rewrite format_backtest_row_ok, IH. reflexivity.
Qed.

Lemma row_of_date (a : row_args) :
  date_of (row_of upper_hi a) = a.(date) /\ row_of upper_hi a <> [].
Proof.
  pose proof (format_backtest_row_ok upper_hi a) as Hr.
  destruct (is_summary a) eqn:Hs.
  - rewrite (summary_row_cells upper_hi a _ Hs Hr).
    split; [reflexivity | discriminate].
  - rewrite (trade_row_cells upper_hi a _ Hs Hr).
    split; [reflexivity | discriminate].
Qed.

Lemma built_row_class (l : Language) (a : row_args) :
  fits_language l a ->
  is_summary_row (heading_text l) (row_of upper_hi a) = Ok a.(is_summary).
Proof.
  intros [Hl Hno]. pose proof (format_backtest_row_ok upper_hi a) as Hr.
  destruct (is_summary a) eqn:Hs.
  - erewrite is_summary_row_cell
      by (rewrite (summary_row_cells upper_hi a _ Hs Hr); reflexivity).
    rewrite Hl, (app_assoc Fore.WHITE), contains_middle. reflexivity.
  - erewrite is_summary_row_cell
      by (rewrite (trade_row_cells upper_hi a _ Hs Hr); reflexivity).
    destruct (heading_avoids_colors l) as (Hne & Hc & Hrs).
    rewrite contains_skip, contains_before, (Hno eq_refl) by assumption.
    reflexivity.
Qed.

Lemma classify_rows_built (l : Language) (args : list row_args) :
  Forall (fits_language l) args ->
  classify_rows (heading_text l) (map (row_of upper_hi) args)
  = Ok (map (row_of upper_hi) (filter is_trade args),
        map (row_of upper_hi) (filter is_summary args)).
Proof.
  induction 1 as [|a args Ha _ IH]; [reflexivity|].
  cbn [map classify_rows filter]. rewrite (built_row_class l a Ha), IH.
  cbn [bind]. unfold is_trade at 1 3.
  destruct (is_summary a); reflexivity.
Qed.

Lemma summary_row_read (a : row_args) :
  a.(is_summary) = true ->
  exists view,
    read_summary (row_of upper_hi a) = Ok view
    /\ view.(shown_cash) = shown_amount (or0 a.(cash_balance))
    /\ view.(shown_position) = shown_amount (or0 a.(total_position_value))
    /\ view.(shown_total) = shown_amount (or0 a.(total_value)).
Proof.
  intros Hs. pose proof (format_backtest_row_ok upper_hi a) as Hr.
  pose proof (summary_row_cells upper_hi a _ Hs Hr) as Hcells.
  destruct colors_without_dollar as (Hy & Hc & Hw).
  destruct (read_amount_inv _ _
              (ReadFacts.read_amount_money_cell Fore.YELLOW
                 (or0 a.(total_position_value)) Hy)) as (tp & Hp1 & Hp2).
  destruct (read_amount_inv _ _
              (ReadFacts.read_amount_money_cell Fore.CYAN
                 (or0 a.(cash_balance)) Hc)) as (tc & Hc1 & Hc2).
  destruct (read_amount_inv _ _
              (ReadFacts.read_amount_money_cell Fore.WHITE
                 (or0 a.(total_value)) Hw)) as (tt & Ht1 & Ht2).
  rewrite Hcells. unfold read_summary.
  cbn [item nth_error bind].
  rewrite Hp1. cbn [bind]. rewrite Hc1. cbn [bind].
  rewrite Ht1. cbn [bind]. rewrite Hc2. cbn [bind].
  rewrite Hp2. cbn [bind]. rewrite Ht2. cbn [bind].
  eexists. split; [reflexivity|]. repeat split.
Qed.

(** X16. [print_backtest_results] never raises on a table built with
    [format_backtest_row] in its own language from tickers that do not
    contain the heading.  The grid holds the per-trade rows in table
    order; a summary is shown exactly when the table has a summary row,
    and it is that of a summary row with the greatest date, with the
    cash, position and total amounts as their cells show them. *)
Theorem print_built_rows (l : Language) (args : list row_args) :
  Forall (fits_language l) args ->
  exists table_rows shown grid,
    build_rows upper_hi args = Ok table_rows
    /\ print_backtest_results table_rows l = Ok (shown, grid)
    /\ build_rows upper_hi (filter is_trade args) = Ok grid
    /\ (shown = None <-> filter is_summary args = [])
    /\ (forall view, shown = Some view ->
          exists a,
            In a args /\ a.(is_summary) = true
            /\ (forall a', In a' args -> a'.(is_summary) = true ->
                  ltb a.(date) a'.(date) = false)
            /\ view.(shown_cash) = shown_amount (or0 a.(cash_balance))
            /\ view.(shown_position)
               = shown_amount (or0 a.(total_position_value))
            /\ view.(shown_total) = shown_amount (or0 a.(total_value))).
Proof.
  intros Hfit. exists (map (row_of upper_hi) args).
  unfold print_backtest_results.
  rewrite summary_heading_text. cbn [bind].
  rewrite (classify_rows_built l args Hfit). cbn [bind].
  destruct (filter is_summary args) as [|a0 rest] eqn:Ef.
  - exists None, (map (row_of upper_hi) (filter is_trade args)).
    repeat split; try apply build_rows_ok; try discriminate.
  - cbn [map].
    assert (Hin0 : forall a, In a (a0 :: rest) ->
                             In a args /\ a.(is_summary) = true).
    { intros a Ha. rewrite <- Ef in Ha. apply filter_In in Ha. exact Ha. }
    destruct (row_of_date a0) as [Hd0 Hne0].
    assert (Hk : item (row_of upper_hi a0) 0 = Ok a0.(date)).
    { unfold item. destruct (row_of upper_hi a0) as [|k r];
        [contradiction|]. simpl in Hd0. subst k. reflexivity. }
    rewrite Hk. cbn [bind].
    destruct (max_by_date_spec (map (row_of upper_hi) rest)) with
      (pre := @nil row) (best := row_of upper_hi a0) (post := @nil row)
      as (m & before & after & Hm & Hsplit & Hbefore & Hafter).
    { apply Forall_forall. intros r Hr. apply in_map_iff in Hr
        as (a & <- & _). apply row_of_date. }
    { constructor. }
    { constructor. }
    rewrite Hd0 in Hm. rewrite Hm. cbn [bind].
    assert (Hmin : In m (map (row_of upper_hi) (a0 :: rest))).
    { cbn [map]. simpl in Hsplit. rewrite Hsplit.
      apply in_or_app. right. left. reflexivity. }
    apply in_map_iff in Hmin as (a & Ea & Ha).
    destruct (Hin0 a Ha) as [Hain Has].
    destruct (summary_row_read a Has) as (view & Hview & H1 & H2 & H3).
    rewrite <- Ea, Hview. cbn [bind].
    exists (Some view), (map (row_of upper_hi) (filter is_trade args)).
    repeat split; try apply build_rows_ok; try discriminate.
    intros v Hv. inversion Hv; subst v.
    exists a. repeat split; auto.
    intros a' Hin' Hs'.
    assert (Ha' : In (row_of upper_hi a')
                     (map (row_of upper_hi) (a0 :: rest))).
    { apply in_map. rewrite <- Ef. apply filter_In. auto. }
    cbn [map] in Ha'. simpl in Hsplit. rewrite Hsplit in Ha'.
    destruct (row_of_date a) as [Hda _].
    destruct (row_of_date a') as [Hda' _].
    rewrite <- Hda, <- Hda', Ea.
    apply in_app_or in Ha' as [Hb|[Hb|Hb]].
    + rewrite Forall_forall in Hbefore. apply ltb_asym, Hbefore, Hb.
    + rewrite <- Hb. apply ltb_irrefl.
    + rewrite Forall_forall in Hafter. apply Hafter, Hb.
Qed.
End PrintBuiltRows.

(** * Further properties: the analyst table *)

Lemma insert_by_rank_perm (x : ranked_row) (l : list ranked_row) :
  Permutation (x :: l) (insert_by_rank x l).
Proof.
  induction l as [|y l IH]; simpl; [reflexivity|].
  destruct (fst x <=? fst y)%Z; [reflexivity|].
  rewrite perm_swap. constructor. exact IH.
Qed.

Lemma sorted_by_rank_perm (l : list ranked_row) :
  Permutation l (sorted_by_rank l).
Proof.
  induction l as [|x l IH]; [reflexivity|].
  simpl. rewrite <- insert_by_rank_perm. constructor. exact IH.
Qed.

Lemma insert_by_rank_sorted (x : ranked_row) (l : list ranked_row) :
  StronglySorted (fun a b => (fst a <= fst b)%Z) l ->
  StronglySorted (fun a b => (fst a <= fst b)%Z) (insert_by_rank x l).
Proof.
  induction 1 as [|y l Hl IH Hy]; simpl.
  - constructor; constructor.
  - destruct (Z.leb_spec (fst x) (fst y)) as [Hle|Hgt].
    + constructor; [constructor; assumption|].
      constructor; [exact Hle|].
      eapply Forall_impl; [|exact Hy]. intros a Ha. simpl in *. lia.
    + constructor; [exact IH|].
      assert (Hp : Permutation (x :: l) (insert_by_rank x l))
        by apply insert_by_rank_perm.
      eapply Permutation_Forall; [exact Hp|].
      constructor; [lia | exact Hy].
Qed.

Lemma sorted_by_rank_sorted (l : list ranked_row) :
  StronglySorted (fun a b => (fst a <= fst b)%Z) (sorted_by_rank l).
Proof.
  induction l as [|x l IH]; simpl; [constructor|].
  apply insert_by_rank_sorted, IH.
Qed.

Lemma insert_by_rank_filter (k : Z) (x : ranked_row) (l : list ranked_row) :
  filter (has_rank k) (insert_by_rank x l) = filter (has_rank k) (x :: l).
Proof.
  induction l as [|y l IH]; [reflexivity|].
  cbn [insert_by_rank].
  destruct (Z.leb_spec (fst x) (fst y)) as [Hle|Hgt]; [reflexivity|].
  cbn [filter] in *. rewrite IH. unfold has_rank.
  destruct (Z.eqb_spec (fst x) k) as [Hx|Hx];
    destruct (Z.eqb_spec (fst y) k) as [Hy|Hy]; try reflexivity.
  lia.
Qed.

Lemma sorted_by_rank_stable (k : Z) (l : list ranked_row) :
  filter (has_rank k) (sorted_by_rank l) = filter (has_rank k) l.
Proof.
  induction l as [|x l IH]; [reflexivity|].
  cbn [sorted_by_rank fold_right]. fold (sorted_by_rank l).
  rewrite insert_by_rank_filter. cbn [filter]. rewrite IH. reflexivity.
Qed.

Section AnalystTableFacts.
Variable upper_hi : N -> list N.
Variable title_hi : N -> list N.
Variable lower_hi : N -> list N.
Variable cased_hi : N -> bool.
Variable analyst_order_map : list (str * Z).

Lemma agent_table_rows_count language ticker analyst_signals :
  List.length (agent_table_rows upper_hi title_hi lower_hi cased_hi
      analyst_order_map language ticker analyst_signals)
  = List.length (filter (agent_shown ticker) analyst_signals).
Proof.
  induction analyst_signals as [|[agent signals] rest IH]; [reflexivity|].
  cbn [agent_table_rows filter]. unfold agent_row, agent_shown.
  cbn [fst snd].
  destruct (Format.get ticker signals); [|exact IH].
  destruct (eqb agent (u "risk_management_agent")); cbn [negb];
    [exact IH|].
  cbn [List.length]. rewrite IH. reflexivity.
Qed.

(** X20. The analyst table of a ticker has one row for each agent that
    reported the ticker, the risk-management agent left out.  Its rows
    come in ascending rank, and rows of equal rank (among them the agents
    outside the order map, all of rank 999) keep the order in which the
    agents were reported. *)
Theorem agent_table_in_rank_order language ticker analyst_signals :
  let table_rows := agent_table_rows upper_hi title_hi lower_hi cased_hi
      analyst_order_map language ticker analyst_signals in
  let sorted := sorted_by_rank table_rows in
  agent_table_data upper_hi title_hi lower_hi cased_hi analyst_order_map
                   language ticker analyst_signals = map snd sorted
  /\ List.length sorted
     = List.length (filter (agent_shown ticker) analyst_signals)
  /\ Permutation table_rows sorted
  /\ StronglySorted (fun a b => (fst a <= fst b)%Z) sorted
  /\ (forall k, filter (has_rank k) sorted = filter (has_rank k) table_rows).
Proof.
  cbv zeta. split; [reflexivity|]. split; [|split; [|split]].
  - rewrite <- (Permutation_length (sorted_by_rank_perm _)).
    apply agent_table_rows_count.
  - apply sorted_by_rank_perm.
  - apply sorted_by_rank_sorted.
  - intros k. apply sorted_by_rank_stable.
Qed.
End AnalystTableFacts.

Example agent_table_sample :
  map (firstn 3)
      (agent_table_data (fun c => [c]) (fun c => [c]) (fun c => [c])
         (fun _ => false) sample_order EN (u "AAPL") sample_analyst_signals)
  = [ [Fore.CYAN ++ u "Warren Buffett" ++ Style.RESET_ALL;
       Fore.GREEN ++ u "BULLISH" ++ Style.RESET_ALL;
       Fore.WHITE ++ u "75%" ++ Style.RESET_ALL];
      [Fore.CYAN ++ u "Zeta" ++ Style.RESET_ALL;
       Fore.RED ++ u "BEARISH" ++ Style.RESET_ALL;
       Fore.WHITE ++ u "75%" ++ Style.RESET_ALL];
      [Fore.CYAN ++ u "Alpha" ++ Style.RESET_ALL;
       Fore.YELLOW ++ u "NEUTRAL" ++ Style.RESET_ALL;
       Fore.WHITE ++ u "75%" ++ Style.RESET_ALL] ].
Proof. vm_compute. reflexivity. Qed.

Lemma startswith_long (b : str) :
  forall n a, (List.length n <= List.length a)%nat ->
    startswith (a ++ b) n = startswith a n.
Proof.
  induction n as [|y n IH]; intros a Hl; [reflexivity|].
  destruct a as [|x a]; [simpl in Hl; lia|].
  simpl. rewrite IH by (simpl in Hl; lia). reflexivity.
Qed.

Lemma split_on_suffix (key : str) :
  contains (u "_agent") (key ++ u "_agen") = false ->
  forall cur, split_on_go (u "_agent") 0 cur (key ++ u "_agent")
              = [cur ++ key; []].
Proof.
  induction key as [|x key IH]; intros Hno cur.
  - rewrite app_nil_r. reflexivity.
  - rewrite contains_unfold in Hno. apply orb_false_iff in Hno as [Hs Hc].
    change ((x :: key) ++ u "_agent") with (x :: (key ++ u "_agent")).
    cbn [split_on_go].
    assert (E : startswith (x :: key ++ u "_agent") (u "_agent") = false).
    { change (x :: key ++ u "_agent")
        with (((x :: key) ++ u "_agen") ++ u "t" ) || idtac.
      replace (x :: key ++ u "_agent")
        with (((x :: key) ++ u "_agen") ++ u "t")
        by (rewrite <- app_assoc; reflexivity).
      rewrite startswith_long; [exact Hs|].
      rewrite length_app. simpl. lia. }
    rewrite E, (IH Hc), <- app_assoc. reflexivity.
Qed.

Section AgentKeyFacts.
Variable upper_hi : N -> list N.
Variable title_hi : N -> list N.
Variable lower_hi : N -> list N.
Variable cased_hi : N -> bool.
Variable analyst_order_map : list (str * Z).

(** X21. An agent identifier made of a key and the suffix [_agent] is
    shown under that key, provided [_agent] occurs nowhere else in it:
    the suffix is removed, and for an agent other than the risk-management
    one that reported the ticker the row has the rank of the key (999
    outside the order map) and the translated name of the key in cyan. *)
Theorem agent_row_of_suffixed_key language ticker key signals signal :
  contains (u "_agent") (key ++ u "_agen") = false ->
  key <> u "risk_management" ->
  Format.get ticker signals = Some signal ->
  replace (u "_agent") [] (key ++ u "_agent") = key
  /\ exists cells,
       agent_row upper_hi title_hi lower_hi cased_hi analyst_order_map
                 language ticker (key ++ u "_agent") signals
       = Some (get_default key (analyst_order analyst_order_map) 999%Z,
               (Fore.CYAN
                ++ translate_agent_name title_hi lower_hi cased_hi key
                     language
                ++ Style.RESET_ALL) :: cells).
Proof.
  intros Hno Hkey Hg.
  assert (Hrep : replace (u "_agent") [] (key ++ u "_agent") = key).
  { unfold replace, split_on. rewrite (split_on_suffix key Hno []).
    simpl. rewrite app_nil_r. reflexivity. }
  split; [exact Hrep|].
  unfold agent_row. rewrite Hg.
  assert (E : eqb (key ++ u "_agent") (u "risk_management_agent") = false).
  { apply eqb_neq. intros H. apply Hkey.
    change (u "risk_management_agent")
      with (u "risk_management" ++ u "_agent") in H.
    apply app_inv_tail in H. exact H. }
  rewrite E, Hrep. eexists. reflexivity.
Qed.
End AgentKeyFacts.

(** X22. The headings [print_trading_output] asks for with a ticker never
    raise: in [ZH] and [EN] they are the fixed prefix followed by the
    ticker, and in [BOTH] a text is returned too.  The portfolio strategy
    text is the wrapped reasoning itself in [ZH] and [EN]. *)
Theorem ticker_headings (ticker : str) :
  let kwargs := [(u "ticker", ticker)] in
  translate_text (u "display.analysis_heading") ZH None kwargs
    = Ok (u "分析：" ++ ticker)
  /\ translate_text (u "display.analysis_heading") EN None kwargs
     = Ok (u "Analysis: " ++ ticker)
  /\ translate_text (u "display.agent_analysis_header") ZH None kwargs
     = Ok (u "代理分析：" ++ ticker)
  /\ translate_text (u "display.agent_analysis_header") EN None kwargs
     = Ok (u "Agent Analysis: " ++ ticker)
  /\ translate_text (u "display.trading_decision_header") ZH None kwargs
     = Ok (u "交易决策：" ++ ticker)
  /\ translate_text (u "display.trading_decision_header") EN None kwargs
     = Ok (u "Trading Decision: " ++ ticker)
  /\ (forall key, In key [u "display.analysis_heading";
                          u "display.agent_analysis_header";
                          u "display.trading_decision_header"] ->
        exists text, translate_text key BOTH None kwargs = Ok text)
  /\ (forall language, language <> BOTH ->
        translate_text (u "display.portfolio_strategy_text") language None
                       [(u "text", ticker)] = Ok ticker).
Proof.
  cbv zeta.
  repeat split;
    try match goal with
        | |- _ = Ok (?p ++ ticker) =>
          transitivity (Ok (p ++ ticker ++ []));
          [vm_compute; reflexivity | rewrite app_nil_r; reflexivity]
        end.
  - intros key Hin.
    assert (Hk : exists translations,
      Format.get key TRANSLATIONS = Some translations
      /\ Format.fields (get_default (u "zh") translations (or_empty None))
         = [u "ticker"]).
    { destruct Hin as [<-|[<-|[<-|[]]]]; eexists; split; reflexivity. }
    destruct Hk as (translations & Hg & Hf).
    apply (translate_text_ok_when_supplied key translations BOTH None _ Hg).
    rewrite Hf. intros name [<-|[]]. discriminate.
  - intros language Hl. unfold translate_text, translate_text_in.
    change (Format.get (u "display.portfolio_strategy_text") TRANSLATIONS)
      with (Some [(u "zh", u "{text}"); (u "en", u "{text}")]).
    cbv iota beta.
    change (get_default (u "zh") [(u "zh", u "{text}"); (u "en", u "{text}")]
              (or_empty None)) with (u "{text}").
    change (get_default (u "en") [(u "zh", u "{text}"); (u "en", u "{text}")]
              (or_empty None)) with (u "{text}").
    change (Format.format (u "{text}") [(u "text", ticker)])
      with (Ok (ticker ++ [])).
    cbn [bind]. rewrite app_nil_r, combine_same.
    destruct language; [reflexivity | reflexivity | contradiction].
Qed.

(** * The properties at sample inputs *)

Lemma from_value_caseless_witness :
  from_value sample_lower_hi (Some (u "fr")) = ZH
  /\ from_value sample_lower_hi (Some (u "BoTh")) = BOTH.
Proof.
  assert (H : forall c, 128 <= c -> lower_head_ok (sample_lower_hi c) = true).
  { intros c Hc. unfold sample_lower_hi.
    destruct (c =? 8490); [reflexivity|].
    destruct (c =? 304); [reflexivity|].
    destruct (c =? 201); [reflexivity|].
    simpl. apply N.leb_le in Hc. rewrite Hc. reflexivity. }
  destruct (from_value_caseless sample_lower_hi H)
    as (_ & _ & _ & Hfr & Hboth & _).
  split; assumption.
Defined.

Lemma wrap_line_width_witness :
  (List.length word61 <= 60)%nat
  \/ ((60 < List.length word61)%nat
      /\ In word61 (split (word61 ++ u " b"))).
Proof.
  apply (wrap_line_width (word61 ++ u " b") word61).
  vm_compute. right. left. reflexivity.
Defined.

Lemma translate_text_absent_or_missing_witness :
  translate_text (u "no.such.key") BOTH (Some (u "Agent")) [] = Ok (u "Agent")
  /\ exists missing,
       translate_text (u "display.analysis_heading") ZH None []
         = Raise (KeyError missing)
       /\ Format.get missing (@nil (str * str)) = None.
Proof.
  split.
  - apply (proj1 (translate_text_absent_or_missing
                    (u "no.such.key") BOTH (Some (u "Agent")) [])).
    reflexivity.
  - apply (proj2 (translate_text_absent_or_missing
                    (u "display.analysis_heading") ZH None [])
             [(u "zh", u "分析：{ticker}"); (u "en", u "Analysis: {ticker}")]
             (u "ticker")).
    + reflexivity.
    + vm_compute. left. reflexivity.
    + reflexivity.
Defined.

Lemma translate_text_formats_both_witness :
  raises (translate_text_in lopsided_table (u "greeting") ZH None [])
  <-> raises (Format.format (u "你好") [])
      \/ raises (Format.format (u "Hello {name}") []).
Proof.
  apply (proj1 translate_text_formats_both lopsided_table (u "greeting")
           [(u "zh", u "你好"); (u "en", u "Hello {name}")] ZH None []).
  - reflexivity.
  - discriminate.
Defined.

Lemma summary_rows_by_heading_witness :
  exists heading,
    translate_text summary_heading_key BOTH (Some summary_heading_fallback) []
      = Ok heading
    /\ (exists r view,
          format_backtest_row sample_upper_hi (summary_args None BOTH) = Ok r
          /\ classify_rows heading [r] = Ok ([], [r])
          /\ print_backtest_results [r] BOTH = Ok (Some view, []))
    /\ (exists r,
          format_backtest_row sample_upper_hi (trade_args (u "AAPL") BOTH)
            = Ok r
          /\ classify_rows heading [r] = Ok ([r], [])
          /\ print_backtest_results [r] BOTH = Ok (None, [r])).
Proof.
  destruct (summary_rows_by_heading sample_upper_hi (summary_args None BOTH))
    as (h & Hh & Hsum & _).
  destruct (summary_rows_by_heading sample_upper_hi (trade_args (u "AAPL") BOTH))
    as (h' & Hh' & _ & Htrade & _).
  exists h. split; [exact Hh|]. split.
  - apply Hsum. reflexivity.
  - assert (E : h' = h).
    { change (language (trade_args (u "AAPL") BOTH)) with BOTH in Hh'.
      change (language (summary_args None BOTH)) with BOTH in Hh.
      rewrite Hh in Hh'. inversion Hh'. reflexivity. }
    rewrite <- E. apply Htrade; [reflexivity|].
    change (language (trade_args (u "AAPL") BOTH)) with BOTH in Hh'.
    vm_compute in Hh'. inversion Hh'. vm_compute. reflexivity.
Defined.

Lemma metric_cells_test_presence_witness :
  exists sharpe sortino drawdown,
    nth_error zero_summary_row 11 = Some sharpe
    /\ nth_error zero_summary_row 12 = Some sortino
    /\ nth_error zero_summary_row 13 = Some drawdown
    /\ metric_cell_ok Fore.YELLOW [] (Some zero) sharpe
    /\ metric_cell_ok Fore.YELLOW [] (Some zero) sortino
    /\ metric_cell_ok Fore.RED (u "%") (Some zero) drawdown.
Proof.
  apply (metric_cells_test_presence sample_upper_hi zero_summary_args
           zero_summary_row).
  - reflexivity.
  - vm_compute. reflexivity.
Defined.

Lemma summary_amounts_read_back_witness :
  exists r view,
    format_backtest_row sample_upper_hi
      (summary_args (Some f_1234567_89) EN) = Ok r
    /\ print_backtest_results [r] EN = Ok (Some view, [])
    /\ view.(shown_cash) = f_1234567_89.
Proof.
  destruct (proj1 (summary_amounts_read_back sample_upper_hi
                     (summary_args (Some f_1234567_89) EN) eq_refl))
    as (r & view & Hr & Hp & Hc & _).
  exists r, view. split; [exact Hr|]. split; [exact Hp|].
  rewrite Hc. vm_compute. reflexivity.
Defined.

(** * The further properties at sample inputs *)

Lemma combine_keeps_text_witness :
  Py.truthy (combine_translations (u "买入") [] BOTH (u " / ")) = true.
Proof. apply combine_keeps_text. reflexivity. Defined.

Lemma translate_text_absent_value_witness :
  translate_text (u "no.such.key") BOTH (Some (u " {Agent} ")) []
  = Ok (u "{Agent}").
Proof.
  apply (translate_text_absent_value (u "no.such.key") BOTH
           (Some (u " {Agent} ")) []).
  reflexivity.
Defined.

Lemma translate_text_supplied_witness :
  exists text,
    translate_text (u "backtest.max_drawdown_with_date") BOTH None
      [(u "date", u "2024-01-02"); (u "value", u "12.5")] = Ok text.
Proof.
  apply (translate_text_supplied (u "backtest.max_drawdown_with_date")
           [(u "zh", u "最大回撤：{value}%（发生于 {date}）");
            (u "en", u "Maximum Drawdown: {value}% (on {date})")]).
  - reflexivity.
  - intros name H. vm_compute in H.
    destruct H as [<-|[<-|[]]]; discriminate.
Defined.

Lemma translate_text_ignores_fallback_witness :
  translate_text (u "display.table.agent") EN (Some (u "Agent")) []
  = translate_text (u "display.table.agent") EN None [].
Proof.
  apply (translate_text_ignores_fallback (u "display.table.agent")
           [(u "zh", u "代理"); (u "en", u "Agent")]).
  reflexivity.
Defined.

Lemma wrap_short_text_witness :
  wrap (u "  Strong    fundamentals ") = u "Strong fundamentals".
Proof.
  apply (wrap_short_text (u "  Strong    fundamentals ")).
  apply Nat.ltb_lt. reflexivity.
Defined.

Lemma wrap_lines_greedy_witness :
  (60 < List.length word61 + List.length (first_word (u "b")) + 1)%nat.
Proof.
  apply (wrap_lines_greedy (word61 ++ u " b") [[]] word61 (u "b") []).
  vm_compute. reflexivity.
Defined.

Lemma wrap_ends_with_last_word_witness :
  exists pre, wrap (u "one two") = pre ++ u "two".
Proof.
  apply (proj2 (wrap_ends_with_last_word (u "one two")) [u "one"] (u "two")).
  reflexivity.
Defined.

Lemma classify_rows_partition_witness :
  classify_rows (u "PORTFOLIO SUMMARY") two_summaries
  = Ok (filter (fun r => negb (has_heading (u "PORTFOLIO SUMMARY") r))
               two_summaries,
        filter (has_heading (u "PORTFOLIO SUMMARY")) two_summaries).
Proof.
  apply (proj1 (classify_rows_partition (u "PORTFOLIO SUMMARY") two_summaries)).
  repeat constructor.
Defined.

Lemma latest_summary_greatest_witness :
  exists m before after,
    (k <- item (hd [] two_summaries) 0 ;;
     max_by_date (hd [] two_summaries) k (tl two_summaries)) = Ok m
    /\ two_summaries = before ++ m :: after
    /\ Forall (fun x => ltb (date_of x) (date_of m) = true) before
    /\ Forall (fun x => ltb (date_of m) (date_of x) = false) after.
Proof.
  apply (latest_summary_greatest (hd [] two_summaries) (tl two_summaries)).
  repeat constructor; discriminate.
Defined.

Lemma format_backtest_row_cells_witness :
  exists r,
    format_backtest_row sample_upper_hi zero_summary_args = Ok r
    /\ List.length r = 14%nat
    /\ firstn 5 (skipn 2 r) = [[]; []; []; []; []].
Proof.
  destruct (format_backtest_row_cells sample_upper_hi zero_summary_args)
    as (r & Hr & Hl & _ & He).
  exists r. split; [exact Hr|]. split; [exact Hl|]. apply He. reflexivity.
Defined.

Lemma return_cell_sign_and_colour_witness :
  exists body,
    nth_error loss_row 10
    = Some ((Fore.RED ++ u "-") ++ body ++ u "%" ++ Style.RESET_ALL)
    /\ two_decimals body = true
    /\ Format.is_digit (hd 0 body) = true.
Proof.
  apply (proj1 (return_cell_sign_and_colour sample_upper_hi loss_args loss_row
                  eq_refl eq_refl)
           (of_decimal true 1234 2)); reflexivity.
Defined.

Lemma print_built_rows_witness :
  exists table_rows shown grid,
    build_rows sample_upper_hi sample_table_args = Ok table_rows
    /\ print_backtest_results table_rows EN = Ok (shown, grid)
    /\ build_rows sample_upper_hi (filter is_trade sample_table_args)
       = Ok grid
    /\ (shown = None <-> filter is_summary sample_table_args = []).
Proof.
  destruct (print_built_rows sample_upper_hi EN sample_table_args)
    as (rows & shown & grid & H1 & H2 & H3 & H4 & _).
  - repeat constructor; intros; vm_compute; reflexivity.
  - exists rows, shown, grid. auto.
Defined.

Lemma translate_status_cases_witness :
  translate_status (u "Done") BOTH = u "完成 / Done"
  /\ translate_status (u " Thinking ") BOTH = u "Thinking".
Proof.
  split.
  - apply (proj1 (translate_status_cases (u "Done") BOTH) (u "完成")).
    reflexivity.
  - apply (proj2 (translate_status_cases (u " Thinking ") BOTH)).
    reflexivity.
Defined.

Lemma translate_action_signal_cases_witness :
  translate_action sample_upper_hi (u "buy") BOTH = u "买入 / BUY"
  /\ translate_signal sample_upper_hi (u "strong buy") ZH = u "STRONG BUY".
Proof.
  destruct (translate_action_signal_cases sample_upper_hi (u "buy") BOTH)
    as (Ha & _).
  destruct (translate_action_signal_cases sample_upper_hi (u "strong buy") ZH)
    as (_ & _ & _ & Hs).
  split.
  - apply (Ha (u "买入")). reflexivity.
  - apply Hs. reflexivity.
Defined.


Lemma agent_row_of_suffixed_key_witness :
  replace (u "_agent") [] (u "warren_buffett" ++ u "_agent")
  = u "warren_buffett"
  /\ exists cells,
       agent_row sample_upper_hi sample_upper_hi sample_upper_hi
                 (fun _ => false) sample_order
                 EN (u "AAPL") (u "warren_buffett" ++ u "_agent")
                 (sample_signal "bullish")
       = Some (get_default (u "warren_buffett") (analyst_order sample_order)
                           999%Z,
               (Fore.CYAN
                ++ translate_agent_name sample_upper_hi sample_upper_hi
                     (fun _ => false) (u "warren_buffett") EN
                ++ Style.RESET_ALL) :: cells).
Proof.
  apply (agent_row_of_suffixed_key sample_upper_hi sample_upper_hi
           sample_upper_hi (fun _ => false) sample_order EN (u "AAPL")
           (u "warren_buffett") (sample_signal "bullish")
           {| sig_signal := Some (u "bullish");
              sig_confidence := Some (u "75");
              sig_reasoning := Some (ReasonStr (u "Strong fundamentals")) |}).
  - reflexivity.
  - discriminate.
  - reflexivity.
Defined.

Lemma ticker_headings_witness :
  (exists text,
     translate_text (u "display.analysis_heading") BOTH None
                    [(u "ticker", u "AAPL")] = Ok text)
  /\ translate_text (u "display.portfolio_strategy_text") ZH None
                    [(u "text", u "AAPL")] = Ok (u "AAPL").
Proof.
  destruct (ticker_headings (u "AAPL"))
    as (_ & _ & _ & _ & _ & _ & Hb & Hs).
  split.
  - apply Hb. left. reflexivity.
  - apply Hs. discriminate.
Defined.
